(** * Zotero citation relinker: a shallow embedding and its properties

    The development embeds the citation extraction and matching core of
    [zotero-citation-relinker.py]:

    - [Citation.from_field_code]  (the citation parser),
    - [ZoteroDatabase.find_match] (the matching engine) together with the
      row loop of [ZoteroDatabase._load_items],
    - the field-code loop of [extract_citations_from_docx],
    - [check_orphaned_status]     (the orphan classifier),
    - the matching loop of [main] and the counters of [generate_report],
    - the identifier rewriting of [update_docx_citations].

    Conventions.  A Python text is embedded as the [string] of the bytes
    of its UTF-8 form.  Concatenation, comparison, search and replacement
    of a text that is not empty are the same on the bytes and on the
    characters; where the source works character by character (iteration,
    slices, white space, [\d]) the bytes are grouped into characters
    first ([chars]); a text with a lone surrogate has no such form and is
    not embedded.  White space is what [str.isspace] says it is; the
    lower case of a text ([str.lower]) and the decimal digits ([\d]) come
    from the Unicode database of the interpreter and are parameters
    ([Unicode]).  Values decoded from JSON keep their dynamic type
    ([pyval]), and an operation applied to a value of the wrong type
    raises, as it does in Python ([result]).  Further parameters are
    [json.loads], the [repr]-based part of the builtin [str], the line
    separator of the platform, and rapidfuzz's [fuzz.token_set_ratio];
    rapidfuzz's [process.extractOne] is modelled by its result.  Scores
    are rational numbers. *)

From Stdlib Require Import ZArith NArith QArith_base String Ascii PrimFloat DecimalString.
From stdpp Require Import base option list gmap strings.

Local Open Scope string_scope.
Local Open Scope nat_scope.

(** ** Exceptions and results *)

(** [JSONDecodeError] carries its message, [str(e)].  [SliceOfDict] is
    what a dict raises when it is asked for a slice: [TypeError] up to
    Python 3.11 (a slice cannot be hashed), [KeyError] from 3.12 on. *)
Inductive exn : Set :=
| TypeError
| AttributeError
| IndexError
| KeyError
| ValueError
| RecursionError
| UnicodeDecodeError
| SliceOfDict
| JSONDecodeError (msg : string).

Inductive result (A : Type) : Type :=
| Ok (a : A)
| Raise (e : exn).
Arguments Ok {A} a.
Arguments Raise {A} e.

#[global] Instance result_ret : MRet result := fun A a => Ok a.
#[global] Instance result_bind : MBind result := fun A B k r =>
  match r with
  | Ok a => k a
  | Raise e => Raise e
  end.

Fixpoint mapR {A B} (f : A -> result B) (l : list A) : result (list B) :=
  match l with
  | [] => Ok []
  | a :: l' => b ← f a; bs ← mapR f l'; Ok (b :: bs)
  end.

(** ** Text *)

Definition dquote : string := String (ascii_of_nat 34) EmptyString.
Definition newline : string := String (ascii_of_nat 10) EmptyString.
Definition carriage_return : string := String (ascii_of_nat 13) EmptyString.

Definition code (c : ascii) : nat := nat_of_ascii c.

(** The classes of the patterns [[A-Za-z0-9]] and [[^0-9X]], and the
    white space among the first 128 characters. *)
Definition is_space (c : ascii) : bool :=
  let n := code c in
  ((9 <=? n) && (n <=? 13)) || ((28 <=? n) && (n <=? 32)).

Definition is_digit (c : ascii) : bool :=
  let n := code c in (48 <=? n) && (n <=? 57).
Definition is_upper (c : ascii) : bool :=
  let n := code c in (65 <=? n) && (n <=? 90).
Definition is_lower (c : ascii) : bool :=
  let n := code c in (97 <=? n) && (n <=? 122).
Definition is_alnum (c : ascii) : bool := is_upper c || is_lower c || is_digit c.

Definition lower_char (c : ascii) : ascii :=
  if is_upper c then ascii_of_nat (code c + 32) else c.
Definition upper_char (c : ascii) : ascii :=
  if is_lower c then ascii_of_nat (code c - 32) else c.

Fixpoint map_string (f : ascii -> ascii) (s : string) : string :=
  match s with
  | EmptyString => EmptyString
  | String c s' => String (f c) (map_string f s')
  end.

Fixpoint filter_string (p : ascii -> bool) (s : string) : string :=
  match s with
  | EmptyString => EmptyString
  | String c s' => if p c then String c (filter_string p s') else filter_string p s'
  end.

Fixpoint all_string (p : ascii -> bool) (s : string) : bool :=
  match s with
  | EmptyString => true
  | String c s' => p c && all_string p s'
  end.

(** The letters A to Z lowered, the letters a to z raised; every other
    byte is kept.  [upper] is [s.upper()] as far as [isbn_clean] can tell:
    [str.upper] changes characters outside ASCII too, but none of them
    into a digit or an X, and [isbn_clean] removes whatever is neither. *)
Definition lower (s : string) : string := map_string lower_char s.
Definition upper (s : string) : string := map_string upper_char s.

Definition is_empty (s : string) : bool :=
  match s with EmptyString => true | _ => false end.

(** *** Characters

    A byte from 128 to 191 continues a character; any other byte opens
    one.  [chars] gives the characters of a text, each as its bytes. *)
Definition byte (c : ascii) : N := N_of_ascii c.

Definition between (lo hi n : N) : bool := N.leb lo n && N.leb n hi.

Definition is_cont (c : ascii) : bool := between 128 191 (byte c).

(** The text goes on in the middle of a character. *)
Definition continues (s : string) : bool :=
  match s with
  | String b _ => is_cont b
  | EmptyString => false
  end.

Fixpoint chars (s : string) : list string :=
  match s with
  | EmptyString => []
  | String c s' =>
      match chars s' with
      | ch :: rest =>
          if continues s' then String c ch :: rest
          else String c EmptyString :: ch :: rest
      | [] => [String c EmptyString]
      end
  end.
Arguments chars : simpl never.

(** The code point of a character: the bytes have to be the UTF-8 form of
    the code point, the shortest there is, and no surrogate. *)
Definition utf8_code (ch : string) : option N :=
  match ch with
  | String a EmptyString =>
      if between 0 127 (byte a) then Some (byte a) else None
  | String a (String b EmptyString) =>
      if between 194 223 (byte a) && is_cont b
      then Some ((byte a - 192) * 64 + (byte b - 128))%N
      else None
  | String a (String b (String c EmptyString)) =>
      let n := (((byte a - 224) * 64 + (byte b - 128)) * 64 + (byte c - 128))%N in
      if between 224 239 (byte a) && is_cont b && is_cont c
         && between 2048 65535 n && negb (between 55296 57343 n)
      then Some n
      else None
  | String a (String b (String c (String d EmptyString))) =>
      let n := ((((byte a - 240) * 64 + (byte b - 128)) * 64 + (byte c - 128)) * 64
                + (byte d - 128))%N in
      if between 240 244 (byte a) && is_cont b && is_cont c && is_cont d
         && between 65536 1114111 n
      then Some n
      else None
  | _ => None
  end.

(** [str.isspace] of a character, which is also what [str.strip] removes
    and what [\s] matches: U+0009 to U+000D, U+001C to U+0020, U+0085,
    U+00A0, U+1680, U+2000 to U+200A, U+2028, U+2029, U+202F, U+205F and
    U+3000. *)
Definition is_space_code (n : N) : bool :=
  between 9 13 n || between 28 32 n || N.eqb n 133 || N.eqb n 160
  || N.eqb n 5760 || between 8192 8202 n || N.eqb n 8232 || N.eqb n 8233
  || N.eqb n 8239 || N.eqb n 8287 || N.eqb n 12288.

Definition is_space_char (ch : string) : bool :=
  match utf8_code ch with
  | Some n => is_space_code n
  | None => false
  end.

(** [itertools.dropwhile] *)
Fixpoint dropwhile {A} (p : A -> bool) (l : list A) : list A :=
  match l with
  | [] => []
  | a :: l' => if p a then dropwhile p l' else l
  end.

Definition lstrip (s : string) : string :=
  String.concat "" (dropwhile is_space_char (chars s)).

(** [s.strip()] *)
Definition strip (s : string) : string :=
  String.concat ""
    (rev (dropwhile is_space_char (rev (dropwhile is_space_char (chars s))))).

(** [s[:n]] *)
Definition slice_to (n : nat) (s : string) : string :=
  String.concat "" (take n (chars s)).

(** The text behind the first [n] bytes of a text. *)
Fixpoint drop_string (n : nat) (s : string) : string :=
  match n, s with
  | S n', String _ s' => drop_string n' s'
  | _, _ => s
  end.

Fixpoint take_while (p : ascii -> bool) (s : string) : string :=
  match s with
  | String c s' => if p c then String c (take_while p s') else EmptyString
  | EmptyString => EmptyString
  end.

Fixpoint drop_while (p : ascii -> bool) (s : string) : string :=
  match s with
  | String c s' => if p c then drop_while p s' else s
  | EmptyString => EmptyString
  end.

(** [s.startswith(p)], and the rest of [s] behind the prefix [p]. *)
Fixpoint strip_prefix (p s : string) : option string :=
  match p, s with
  | EmptyString, _ => Some s
  | String a p', String b s' => if Ascii.eqb a b then strip_prefix p' s' else None
  | String _ _, EmptyString => None
  end.

Definition starts_with (p s : string) : bool :=
  match strip_prefix p s with Some _ => true | None => false end.

(** [old in s] *)
Fixpoint occurs (old s : string) : bool :=
  starts_with old s ||
  match s with
  | EmptyString => false
  | String _ s' => occurs old s'
  end.

(** [sep.join(parts)] on strings *)
Fixpoint join (sep : string) (parts : list string) : string :=
  match parts with
  | [] => EmptyString
  | [p] => p
  | p :: ps => p +:+ sep +:+ join sep ps
  end.

(** [s.replace(old, new)]: the occurrences of [old] are found from the left
    and do not overlap; [skip] counts the bytes of the occurrence being
    replaced that are still to be passed over.  An empty [old] occurs before
    every character and at the end. *)
Fixpoint replace_from (old new : string) (skip : nat) (s : string) : string :=
  match s with
  | EmptyString => EmptyString
  | String c s' =>
      match skip with
      | S k => replace_from old new k s'
      | O =>
          if starts_with old s
          then new +:+ replace_from old new (String.length old - 1) s'
          else String c (replace_from old new 0 s')
      end
  end.

Definition replace_empty (new s : string) : string :=
  new +:+ String.concat "" (map (fun ch => ch +:+ new) (chars s)).

Definition replace (old new s : string) : string :=
  if is_empty old then replace_empty new s else replace_from old new 0 s.

(** *** Text files

    [open(path, 'r', encoding='utf-8').read()] refuses bytes that are not
    UTF-8 and turns every line end, CR LF or CR, into LF;
    [open(path, 'w', encoding='utf-8').write(s)] writes the line separator
    of the platform for every LF. *)
Definition valid_utf8 (s : string) : bool :=
  forallb (fun ch => bool_decide (is_Some (utf8_code ch))) (chars s).

Fixpoint universal_newlines (s : string) : string :=
  match s with
  | EmptyString => EmptyString
  | String c s' =>
      if Ascii.eqb c (ascii_of_nat 13) then
        match s' with
        | String c' s'' =>
            if Ascii.eqb c' (ascii_of_nat 10)
            then String (ascii_of_nat 10) (universal_newlines s'')
            else String (ascii_of_nat 10) (universal_newlines s')
        | EmptyString => String (ascii_of_nat 10) EmptyString
        end
      else String c (universal_newlines s')
  end.

Definition read_text (raw : string) : result string :=
  if valid_utf8 raw then Ok (universal_newlines raw) else Raise UnicodeDecodeError.

(** [os.linesep] *)
Class Platform := linesep : string.

Fixpoint write_text `{Platform} (s : string) : string :=
  match s with
  | EmptyString => EmptyString
  | String c s' =>
      if Ascii.eqb c (ascii_of_nat 10) then linesep +:+ write_text s'
      else String c (write_text s')
  end.

(** ** The three regular expressions of the source *)

(** [re.search(r'ADDIN ZOTERO_ITEM CSL_CITATION\s*(\{.*\})', s, re.DOTALL)]:
    group 1 of the leftmost match.  Behind the marker all white space is
    passed, an opening brace must follow, and the greedy [.*] runs to the
    last closing brace of the text. *)
Definition citation_marker : string := "ADDIN ZOTERO_ITEM CSL_CITATION".

Fixpoint up_to_last_brace (s : string) : option string :=
  match s with
  | EmptyString => None
  | String c s' =>
      match up_to_last_brace s' with
      | Some t => Some (String c t)
      | None => if Ascii.eqb c "}" then Some (String c EmptyString) else None
      end
  end.

Definition csl_citation_at (s : string) : option string :=
  match strip_prefix citation_marker s with
  | Some r =>
      match lstrip r with
      | String c body =>
          if Ascii.eqb c "{"
          then match up_to_last_brace body with
               | Some b => Some (String c b)
               | None => None
               end
          else None
      | EmptyString => None
      end
  | None => None
  end.

Fixpoint search_csl_citation (s : string) : option string :=
  match csl_citation_at s with
  | Some g => Some g
  | None =>
      match s with
      | EmptyString => None
      | String _ s' => search_csl_citation s'
      end
  end.

(** [re.search(r'/items/([A-Za-z0-9]+)$', uri)]: group 1 of the leftmost
    match.  Python's [$] matches at the end of the text and also just
    before a line feed that ends the text. *)
Definition at_dollar (s : string) : bool :=
  is_empty s || String.eqb s newline.

Definition item_key_at (s : string) : option string :=
  match strip_prefix "/items/" s with
  | Some r =>
      let k := take_while is_alnum r in
      if negb (is_empty k) && at_dollar (drop_while is_alnum r) then Some k else None
  | None => None
  end.

Fixpoint search_item_key (s : string) : option string :=
  match item_key_at s with
  | Some k => Some k
  | None =>
      match s with
      | EmptyString => None
      | String _ s' => search_item_key s'
      end
  end.

(** [re.sub(r'[^0-9X]', '', s)] *)
Definition is_isbn_char (c : ascii) : bool := is_digit c || Ascii.eqb c "X".
Definition sub_non_isbn (s : string) : string := filter_string is_isbn_char s.

(** ** The Unicode database of the interpreter

    [str.lower] of a text, and the code points [\d] matches in a text
    pattern, the decimal digits (category Nd).  Of a text of ASCII
    characters [str.lower] lowers the letters A to Z and nothing else, and
    no decimal digit is white space. *)
Definition is_ascii (c : ascii) : bool := N.leb (byte c) 127.

Class Unicode := {
  str_lower : string -> string;
  is_decimal : N -> bool;
  str_lower_ascii : forall s, all_string is_ascii s = true -> str_lower s = lower s;
  decimal_not_space : forall n, is_decimal n = true -> is_space_code n = false
}.

(** The two normalisations of the index and of [find_match]. *)
Definition doi_clean `{Unicode} (doi : string) : string := strip (str_lower doi).
Definition isbn_clean (isbn : string) : string := sub_non_isbn (upper isbn).

(** ** Python values, as [json.loads] delivers them *)

#[warnings="-register-all"] Inductive pyval : Type :=
| PNone
| PBool (b : bool)
| PInt (n : Z)
| PFloat (x : float)
| PStr (s : string)
| PList (l : list pyval)
| PDict (d : list (string * pyval)).

(** [bool(v)] *)
Definition truthy (v : pyval) : bool :=
  match v with
  | PNone => false
  | PBool b => b
  | PInt n => negb (Z.eqb n 0)
  | PFloat x => negb (PrimFloat.eqb x PrimFloat.zero)
  | PStr s => negb (is_empty s)
  | PList l => match l with [] => false | _ => true end
  | PDict d => match d with [] => false | _ => true end
  end.

(** The entries of a dict are kept in insertion order, one per key. *)
Fixpoint assoc {V} (k : string) (d : list (string * V)) : option V :=
  match d with
  | [] => None
  | (k', v) :: d' => if String.eqb k k' then Some v else assoc k d'
  end.

(** [v.get(k, dflt)]: only a dict has the method. *)
Definition py_get (v : pyval) (k : string) (dflt : pyval) : result pyval :=
  match v with
  | PDict d => Ok (default dflt (assoc k d))
  | _ => Raise AttributeError
  end.

(** [iter(v)]: the elements a [for] loop over [v] visits. *)
Definition py_iter (v : pyval) : result (list pyval) :=
  match v with
  | PList l => Ok l
  | PStr s => Ok (map PStr (chars s))
  | PDict d => Ok (map (fun kv => PStr (fst kv)) d)
  | _ => Raise TypeError
  end.

(** [v[0]]; the keys of a decoded dict are strings, so [d[0]] misses. *)
Definition py_first (v : pyval) : result pyval :=
  match v with
  | PList (x :: _) => Ok x
  | PList [] => Raise IndexError
  | PStr s =>
      match chars s with
      | ch :: _ => Ok (PStr ch)
      | [] => Raise IndexError
      end
  | PDict _ => Raise KeyError
  | _ => Raise TypeError
  end.

(** [v[:4]]: the first four characters of a text, the first four elements
    of a list; a dict has no slice for a key. *)
Definition py_slice4 (v : pyval) : result pyval :=
  match v with
  | PStr s => Ok (PStr (slice_to 4 s))
  | PList l => Ok (PList (take 4 l))
  | PDict _ => Raise SliceOfDict
  | _ => Raise TypeError
  end.

(** ** Functions from outside the program *)

(** [json.loads]: the value, or the exception it raises.  Besides
    [json.JSONDecodeError] for a text that is not JSON these are
    [ValueError], for an integer with more digits than the interpreter
    converts, and [RecursionError], for a text nested too deep. *)
Class JsonDecoder := json_loads : string -> result pyval.

(** The builtin [str] on floats, lists and dicts follows [repr]. *)
Class PyRepr := py_repr : pyval -> string.

(** [fuzz.token_set_ratio] of rapidfuzz, a score between 0 and 100.  It
    returns 0 as soon as one of the two texts has no token, which is the
    one fact about it that is used. *)
Class Scorer := {
  token_set_ratio : string -> string -> Q;
  token_set_ratio_blank : forall q c, strip q = "" -> (token_set_ratio q c == 0)%Q
}.

(** [str(v)] *)
Definition py_str `{PyRepr} (v : pyval) : string :=
  match v with
  | PStr s => s
  | PInt n => NilZero.string_of_int (Z.to_int n)
  | PBool true => "True"
  | PBool false => "False"
  | PNone => "None"
  | _ => py_repr v
  end.

(** [sep.join(parts)]: every part has to be a [str]. *)
Definition as_str (v : pyval) : result string :=
  match v with
  | PStr s => Ok s
  | _ => Raise TypeError
  end.

Definition py_join (sep : string) (parts : list pyval) : result string :=
  ss ← mapR as_str parts; Ok (join sep ss).

(** ** Library records

    One row of the catalogue query of [_load_items] with the fields the
    loop adds to it; a column that is NULL in the database is [None]. *)
Module LibraryItem.
Record t := mk {
  key : string;
  title : option string;
  date : option string;
  doi : option string;
  isbn : option string;
  authors : list (option string * option string);
  year : option string;
  search_string : string
}.
End LibraryItem.

(** [if x:] on an optional text *)
Definition nonempty (o : option string) : bool :=
  match o with
  | Some s => negb (is_empty s)
  | None => false
  end.

(** ** Cited items *)
Module CitationItem.
Record t := mk {
  uri : pyval;
  uris : pyval;
  item_key : option string;
  library_id : option string;
  title : pyval;
  authors : pyval;
  year : pyval;
  doi : pyval;
  isbn : pyval;
  item_data : pyval;
  is_orphaned : bool;
  matched_library_item : option LibraryItem.t;
  match_score : Q;
  match_method : string
}.

(** [CitationItem()], the defaults of the dataclass. *)
Definition new : t :=
  {| uri := PNone; uris := PList []; item_key := None; library_id := None;
     title := PStr ""; authors := PList []; year := PNone; doi := PNone;
     isbn := PNone; item_data := PDict []; is_orphaned := false;
     matched_library_item := None; match_score := 0; match_method := "" |}.

Definition set_is_orphaned (b : bool) (ci : t) : t :=
  {| uri := uri ci; uris := uris ci; item_key := item_key ci;
     library_id := library_id ci; title := title ci; authors := authors ci;
     year := year ci; doi := doi ci; isbn := isbn ci; item_data := item_data ci;
     is_orphaned := b; matched_library_item := matched_library_item ci;
     match_score := match_score ci; match_method := match_method ci |}.

Definition set_matched_library_item (m : option LibraryItem.t) (ci : t) : t :=
  {| uri := uri ci; uris := uris ci; item_key := item_key ci;
     library_id := library_id ci; title := title ci; authors := authors ci;
     year := year ci; doi := doi ci; isbn := isbn ci; item_data := item_data ci;
     is_orphaned := is_orphaned ci; matched_library_item := m;
     match_score := match_score ci; match_method := match_method ci |}.

(** [ci.match_method = method; ci.match_score = score] *)
Definition set_match (method : string) (score : Q) (ci : t) : t :=
  {| uri := uri ci; uris := uris ci; item_key := item_key ci;
     library_id := library_id ci; title := title ci; authors := authors ci;
     year := year ci; doi := doi ci; isbn := isbn ci; item_data := item_data ci;
     is_orphaned := is_orphaned ci; matched_library_item := matched_library_item ci;
     match_score := score; match_method := method |}.

(** What one entry of [authors] adds to [parts]. *)
Definition author_part (author : pyval) : list pyval :=
  match author with
  | PDict d =>
      match assoc "family" d with
      | Some v => [v]
      | None =>
          match assoc "literal" d with
          | Some v => [v]
          | None => []
          end
      end
  | PStr _ => [author]
  | _ => []
  end.

Definition author_string (ci : t) : result string :=
  l ← py_iter (authors ci);
  py_join " " (flat_map author_part l).

Definition search_string `{PyRepr} (ci : t) : result string :=
  a ← author_string ci;
  let parts := ([title ci; PStr a] ++
                (if truthy (year ci) then [PStr (py_str (year ci))] else []))%list in
  py_join " " (filter (fun v => truthy v = true) parts).
End CitationItem.

(** ** Citations *)
Module Citation.
Record t := mk {
  field_code : string;
  citation_data : pyval;
  items : list CitationItem.t;
  field_index : nat;
  is_orphaned : bool
}.

Definition set_is_orphaned (b : bool) (c : t) : t :=
  {| field_code := field_code c; citation_data := citation_data c;
     items := items c; field_index := field_index c; is_orphaned := b |}.

Definition set_items (l : list CitationItem.t) (c : t) : t :=
  {| field_code := field_code c; citation_data := citation_data c;
     items := l; field_index := field_index c; is_orphaned := is_orphaned c |}.

(** The loop over [ci.uris]: the first URI the key pattern matches gives
    the key; [re.search] refuses a URI that is not text. *)
Fixpoint find_item_key (us : list pyval) : result (option string) :=
  match us with
  | [] => Ok None
  | PStr u :: us' =>
      match search_item_key u with
      | Some k => Ok (Some k)
      | None => find_item_key us'
      end
  | _ :: _ => Raise TypeError
  end.

(** [item_metadata.get('issued', {}).get('date-parts', [[None]])[0][0]] *)
Definition date_parts_year (item_metadata : pyval) : result pyval :=
  issued ← py_get item_metadata "issued" (PDict []);
  date_parts ← py_get issued "date-parts" (PList [PList [PNone]]);
  first_date ← py_first date_parts;
  py_first first_date.

(** The year of an item, from [itemData]. *)
Definition item_year `{PyRepr} (item_metadata : pyval) : result pyval :=
  y ← date_parts_year item_metadata;
  let year := py_str (if truthy y then y else PStr "") in
  if negb (is_empty year) then Ok (PStr year)
  else
    d ← py_get item_metadata "date" PNone;
    if truthy d
    then d' ← py_get item_metadata "date" (PStr ""); py_slice4 d'
    else Ok (PStr "").

(** The body of the loop over [citationItems]. *)
Definition parse_item `{PyRepr} (item_data : pyval) : result CitationItem.t :=
  uris ← py_get item_data "uris" (PList []);
  uri ← (if truthy uris then py_first uris else Ok PNone);
  us ← py_iter uris;
  item_key ← find_item_key us;
  item_metadata ← py_get item_data "itemData" (PDict []);
  title ← py_get item_metadata "title" (PStr "");
  year ← item_year item_metadata;
  authors ← py_get item_metadata "author" (PList []);
  doi ← py_get item_metadata "DOI" (PStr "");
  isbn ← py_get item_metadata "ISBN" (PStr "");
  Ok {| CitationItem.uri := uri; CitationItem.uris := uris;
        CitationItem.item_key := item_key; CitationItem.library_id := None;
        CitationItem.title := title; CitationItem.authors := authors;
        CitationItem.year := year; CitationItem.doi := doi;
        CitationItem.isbn := isbn; CitationItem.item_data := item_data;
        CitationItem.is_orphaned := false;
        CitationItem.matched_library_item := None;
        CitationItem.match_score := 0; CitationItem.match_method := "" |}.

(** The loop over [citationItems] and the citation it ends with. *)
Definition build `{PyRepr} (field_code : string) (field_index : nat)
    (citation_data : pyval) : result (option t) :=
  cis ← py_get citation_data "citationItems" (PList []);
  l ← py_iter cis;
  items ← mapR parse_item l;
  Ok (Some {| field_code := field_code; citation_data := citation_data;
              items := items; field_index := field_index;
              is_orphaned := false |}).

(** [Citation.from_field_code] with what it prints: the lines written to
    the standard output, and the return value, [Ok None] for [None].  Of
    the exceptions of [json.loads] the [except] clause catches
    [json.JSONDecodeError] only. *)
Definition from_field_code_io `{JsonDecoder, PyRepr}
    (field_code : string) (field_index : nat) : list string * result (option t) :=
  match search_csl_citation field_code with
  | None => ([], Ok None)
  | Some json_str =>
      match json_loads json_str with
      | Ok citation_data => ([], build field_code field_index citation_data)
      | Raise (JSONDecodeError e) =>
          (["Warning: Failed to parse citation JSON: " +:+ e], Ok None)
      | Raise e => ([], Raise e)
      end
  end.

(** The return value of [Citation.from_field_code]. *)
Definition from_field_code `{JsonDecoder, PyRepr}
    (field_code : string) (field_index : nat) : result (option t) :=
  snd (from_field_code_io field_code field_index).
End Citation.

(** ** The library index and the matching engine *)

(** Modelled from the spec: [process.extractOne] belongs to rapidfuzz, which
    is not part of the repository.  Every choice is scored against the query
    and the single best one is returned with its score and its position; of
    several choices with the best score the first one met is kept, and
    without choices there is no result. *)
Fixpoint extractOne_from `{Scorer} (query : string) (best : option (string * Q * nat))
    (i : nat) (choices : list string) : option (string * Q * nat) :=
  match choices with
  | [] => best
  | c :: cs =>
      let score := token_set_ratio query c in
      let best' :=
        match best with
        | Some (_, b, _) => if Qle_bool score b then best else Some (c, score, i)
        | None => Some (c, score, i)
        end in
      extractOne_from query best' (S i) cs
  end.

Definition extractOne `{Scorer} (query : string) (choices : list string)
    : option (string * Q * nat) :=
  extractOne_from query None 0 choices.

Module ZoteroDatabase.
Record t := mk {
  items : list LibraryItem.t;
  items_by_key : gmap string LibraryItem.t;
  items_by_doi : gmap string LibraryItem.t;
  items_by_isbn : gmap string LibraryItem.t;
  user_id : pyval;
  local_user_key : pyval
}.

(** The fields as [__init__] leaves them before [_load_items]. *)
Definition init : t :=
  {| items := []; items_by_key := ∅; items_by_doi := ∅; items_by_isbn := ∅;
     user_id := PNone; local_user_key := PNone |}.

(** The end of the body of the row loop of [_load_items]: the item is
    appended and entered into the three dicts. *)
Definition add_item `{Unicode} (db : t) (item : LibraryItem.t) : t :=
  {| items := (items db ++ [item])%list;
     items_by_key := <[LibraryItem.key item := item]> (items_by_key db);
     items_by_doi :=
       match LibraryItem.doi item with
       | Some d =>
           if negb (is_empty d) then <[doi_clean d := item]> (items_by_doi db)
           else items_by_doi db
       | None => items_by_doi db
       end;
     items_by_isbn :=
       match LibraryItem.isbn item with
       | Some i =>
           if negb (is_empty i) then <[isbn_clean i := item]> (items_by_isbn db)
           else items_by_isbn db
       | None => items_by_isbn db
       end;
     user_id := user_id db; local_user_key := local_user_key db |}.

Definition load_items `{Unicode} (rows : list LibraryItem.t) : t :=
  foldl add_item init rows.

(** [if v: ... v.method() ...] for a field that holds text or nothing: the
    text when there is some, and [AttributeError] for a true value without
    the string method. *)
Definition text_if_true (v : pyval) : result (option string) :=
  if truthy v then
    match v with
    | PStr s => Ok (Some s)
    | _ => Raise AttributeError
    end
  else Ok None.

(** A result of [extractOne] that exists and reaches [bound]. *)
Definition accepted (bound : Q) (r : option (string * Q * nat)) : option (Q * nat) :=
  match r with
  | Some (_, score, i) => if Qle_bool bound score then Some (score, i) else None
  | None => None
  end.

(** [choices[i][1]] followed by [self.items_by_key[match_key]] *)
Definition record_of (db : t) (choices : list (string * string)) (i : nat)
    : result LibraryItem.t :=
  match choices !! i with
  | Some (_, match_key) =>
      match items_by_key db !! match_key with
      | Some item => Ok item
      | None => Raise KeyError
      end
  | None => Raise IndexError
  end.

(** [[(item.get('title', ''), item['key']) for item in self.items
      if item.get('title')]] *)
Definition titled_items (db : t) : list LibraryItem.t :=
  filter (fun item => nonempty (LibraryItem.title item) = true) (items db).

Definition title_choices (db : t) : list (string * string) :=
  map (fun item => (default "" (LibraryItem.title item), LibraryItem.key item))
      (titled_items db).

(** The last stage: the title alone, with the bound 90. *)
Definition find_title_match `{Scorer} (db : t) (citation_item : CitationItem.t)
    : result (CitationItem.t * option LibraryItem.t) :=
  if truthy (CitationItem.title citation_item) then
    title ← as_str (CitationItem.title citation_item);
    let choices := title_choices db in
    match accepted (inject_Z 90) (extractOne title (map fst choices)) with
    | Some (score, i) =>
        item ← record_of db choices i;
        Ok (CitationItem.set_match "title_only" score citation_item, Some item)
    | None => Ok (citation_item, None)
    end
  else Ok (citation_item, None).

(** The stage on title, authors and year. *)
Definition find_fuzzy_match `{PyRepr, Scorer} (db : t) (citation_item : CitationItem.t)
    (threshold : Z) : result (CitationItem.t * option LibraryItem.t) :=
  search_str ← CitationItem.search_string citation_item;
  if is_empty (strip search_str) then Ok (citation_item, None)
  else
    let choices :=
      map (fun item => (LibraryItem.search_string item, LibraryItem.key item))
          (items db) in
    match choices with
    | [] => Ok (citation_item, None)
    | _ =>
        match accepted (inject_Z threshold)
                (extractOne search_str (map fst choices)) with
        | Some (score, i) =>
            item ← record_of db choices i;
            Ok (CitationItem.set_match "fuzzy" score citation_item, Some item)
        | None => find_title_match db citation_item
        end
    end.

(** [find_match]: the item as the call leaves it, and the return value. *)
Definition find_match `{Unicode, PyRepr, Scorer} (db : t) (citation_item : CitationItem.t)
    (threshold : Z) : result (CitationItem.t * option LibraryItem.t) :=
  doi ← text_if_true (CitationItem.doi citation_item);
  match doi ≫= (fun d => items_by_doi db !! doi_clean d) with
  | Some item =>
      Ok (CitationItem.set_match "DOI" (inject_Z 100) citation_item, Some item)
  | None =>
      isbn ← text_if_true (CitationItem.isbn citation_item);
      match isbn ≫= (fun i => items_by_isbn db !! isbn_clean i) with
      | Some item =>
          Ok (CitationItem.set_match "ISBN" (inject_Z 100) citation_item, Some item)
      | None => find_fuzzy_match db citation_item threshold
      end
  end.
End ZoteroDatabase.

(** ** The field-code loop of [extract_citations_from_docx]

    [root.iter()] visits the elements of the document in document order;
    of an element the loop reads the tag, one attribute and the text. *)
Record element := mk_element {
  tag : string;
  attrib : list (string * string);
  text : option string
}.

Definition w_namespace : string :=
  "http://schemas.openxmlformats.org/wordprocessingml/2006/main".
Definition w_name (local : string) : string := "{" +:+ w_namespace +:+ "}" +:+ local.

Definition fld_begin : element :=
  {| tag := w_name "fldChar"; attrib := [(w_name "fldCharType", "begin")]; text := None |}.
Definition fld_end : element :=
  {| tag := w_name "fldChar"; attrib := [(w_name "fldCharType", "end")]; text := None |}.
Definition instr_text (s : string) : element :=
  {| tag := w_name "instrText"; attrib := []; text := Some s |}.

Definition is_fld_end (elem : element) : bool :=
  String.eqb (tag elem) (w_name "fldChar") &&
  bool_decide (assoc (w_name "fldCharType") (attrib elem) = Some "end").

Record extractor := mk_extractor {
  citations : list Citation.t;
  field_index : nat;
  current_field : list string;
  in_field : bool
}.

Definition extractor_init : extractor :=
  {| citations := []; field_index := 0; current_field := []; in_field := false |}.

(** What the end of a field does with the text collected for it. *)
Definition close_field `{JsonDecoder, PyRepr} (st : extractor) : result extractor :=
  let field_code := String.concat "" (current_field st) in
  if occurs "ADDIN ZOTERO_ITEM" field_code then
    citation ← Citation.from_field_code field_code (field_index st);
    match citation with
    | Some c =>
        Ok {| citations := (citations st ++ [c])%list;
              field_index := field_index st + 1;
              current_field := []; in_field := false |}
    | None =>
        Ok {| citations := citations st; field_index := field_index st;
              current_field := []; in_field := false |}
    end
  else
    Ok {| citations := citations st; field_index := field_index st;
          current_field := []; in_field := false |}.

(** The body of the loop. *)
Definition extract_step `{JsonDecoder, PyRepr} (st : extractor) (elem : element)
    : result extractor :=
  if String.eqb (tag elem) (w_name "fldChar") then
    let fld_type := assoc (w_name "fldCharType") (attrib elem) in
    if bool_decide (fld_type = Some "begin") then
      Ok {| citations := citations st; field_index := field_index st;
            current_field := []; in_field := true |}
    else if bool_decide (fld_type = Some "end") && in_field st then
      close_field st
    else Ok st
  else if in_field st && String.eqb (tag elem) (w_name "instrText") then
    if nonempty (text elem) then
      Ok {| citations := citations st; field_index := field_index st;
            current_field := (current_field st ++ [default "" (text elem)])%list;
            in_field := in_field st |}
    else Ok st
  else Ok st.

Fixpoint extract_loop `{JsonDecoder, PyRepr} (st : extractor) (elems : list element)
    : result extractor :=
  match elems with
  | [] => Ok st
  | elem :: rest => st' ← extract_step st elem; extract_loop st' rest
  end.

Definition extract_citations `{JsonDecoder, PyRepr} (elems : list element)
    : result (list Citation.t) :=
  st ← extract_loop extractor_init elems; Ok (citations st).

(** ** [check_orphaned_status] *)

(** [item.item_key and item.item_key in db.items_by_key] *)
Definition key_in_library (db : ZoteroDatabase.t) (item : CitationItem.t) : bool :=
  match CitationItem.item_key item with
  | Some k => negb (is_empty k) && bool_decide (is_Some (ZoteroDatabase.items_by_key db !! k))
  | None => false
  end.

Definition check_item (db : ZoteroDatabase.t) (item : CitationItem.t) : CitationItem.t :=
  if key_in_library db item
  then CitationItem.set_is_orphaned false item
  else CitationItem.set_is_orphaned true item.

Definition check_citation (db : ZoteroDatabase.t) (citation : Citation.t) : Citation.t :=
  let items := map (check_item db) (Citation.items citation) in
  Citation.set_is_orphaned (existsb CitationItem.is_orphaned items)
    (Citation.set_items items citation).

Definition check_orphaned_status (citations : list Citation.t) (db : ZoteroDatabase.t)
    : list Citation.t :=
  map (check_citation db) citations.

(** ** The identifier rewriting of [update_docx_citations] *)

(** [d[k] = v] on a dict in insertion order. *)
Fixpoint dict_set (k v : string) (d : list (string * string)) : list (string * string) :=
  match d with
  | [] => [(k, v)]
  | (k', v') :: d' =>
      if String.eqb k k' then (k, v) :: d' else (k', v') :: dict_set k v d'
  end.

Definition new_uri `{PyRepr} (db : ZoteroDatabase.t) (new_key : string) : string :=
  if truthy (ZoteroDatabase.user_id db) then
    "http://zotero.org/users/" +:+ py_str (ZoteroDatabase.user_id db)
      +:+ "/items/" +:+ new_key
  else if truthy (ZoteroDatabase.local_user_key db) then
    "http://zotero.org/users/local/" +:+ py_str (ZoteroDatabase.local_user_key db)
      +:+ "/items/" +:+ new_key
  else "http://zotero.org/users/local/items/" +:+ new_key.

(** The entries one cited item adds to [uri_replacements], the keys being
    texts.  An old URI that is no text makes the function fail with
    [TypeError]: where it is entered, when the dict cannot hash it (a list,
    an object), and else at [old_uri in content], once the document has
    been read.  The mapping is not built for such an item; which of the two
    it is, [uris_hashable] tells. *)
Definition item_replacements `{PyRepr} (db : ZoteroDatabase.t)
    (m : list (string * string)) (item : CitationItem.t)
    : result (list (string * string)) :=
  match CitationItem.matched_library_item item with
  | Some lib_item =>
      if CitationItem.is_orphaned item then
        old_uris ← py_iter (CitationItem.uris item);
        olds ← mapR as_str old_uris;
        Ok (foldl (fun m old_uri => dict_set old_uri (new_uri db (LibraryItem.key lib_item)) m)
                  m olds)
      else Ok m
  | None => Ok m
  end.

Fixpoint items_replacements `{PyRepr} (db : ZoteroDatabase.t)
    (m : list (string * string)) (items : list CitationItem.t)
    : result (list (string * string)) :=
  match items with
  | [] => Ok m
  | item :: rest => m' ← item_replacements db m item; items_replacements db m' rest
  end.

Fixpoint uri_replacements `{PyRepr} (db : ZoteroDatabase.t)
    (m : list (string * string)) (citations : list Citation.t)
    : result (list (string * string)) :=
  match citations with
  | [] => Ok m
  | c :: rest =>
      if Citation.is_orphaned c then
        m' ← items_replacements db m (Citation.items c); uri_replacements db m' rest
      else uri_replacements db m rest
  end.

(** A value the dict takes for a key: anything but a list or an object. *)
Definition hashable (v : pyval) : bool :=
  match v with
  | PList _ | PDict _ => false
  | _ => true
  end.

(** The loop over the citations enters every old URI it comes to. *)
Definition item_uris_hashable (item : CitationItem.t) : bool :=
  match CitationItem.matched_library_item item with
  | Some _ =>
      if CitationItem.is_orphaned item then
        match py_iter (CitationItem.uris item) with
        | Ok old_uris => forallb hashable old_uris
        | Raise _ => false
        end
      else true
  | None => true
  end.

Definition uris_hashable (citations : list Citation.t) : bool :=
  forallb (fun c => negb (Citation.is_orphaned c)
                    || forallb item_uris_hashable (Citation.items c)) citations.

(** One round of the replacement loop. *)
Definition replace_uri (content : string) (entry : string * string) : string :=
  if occurs (fst entry) content then replace (fst entry) (snd entry) content
  else content.

(** The replacement loop over the entries of [uri_replacements]. *)
Definition apply_replacements (m : list (string * string)) (content : string) : string :=
  foldl replace_uri content m.

(** [update_docx_citations] on the bytes of [word/document.xml]: the bytes
    written in its place in the output, [None] when the function returns
    without writing any.  The file is read only when there is something to
    replace; a key of the mapping that is no text stops the replacement
    loop after the file has been read. *)
Definition update_docx_citations `{PyRepr, Platform} (raw : string)
    (citations : list Citation.t) (db : ZoteroDatabase.t) : result (option string) :=
  match uri_replacements db [] citations with
  | Ok [] => Ok None
  | Ok m =>
      content ← read_text raw;
      Ok (Some (write_text (apply_replacements m content)))
  | Raise e =>
      if uris_hashable citations then _ ← read_text raw; Raise e else Raise e
  end.

(** ** The rows of the catalogue and the whole of [_load_items] *)

(** [re.search(r'\d{4}', date)]: group 0 of the leftmost match, the first
    run of four decimal digits. *)
Definition is_decimal_char `{Unicode} (ch : string) : bool :=
  match utf8_code ch with
  | Some n => is_decimal n
  | None => false
  end.

Definition four_digits_at `{Unicode} (l : list string) : option string :=
  let ys := take 4 l in
  if (length ys =? 4) && forallb is_decimal_char ys
  then Some (String.concat "" ys) else None.

Fixpoint search_digits `{Unicode} (l : list string) : option string :=
  match four_digits_at l with
  | Some y => Some y
  | None =>
      match l with
      | [] => None
      | _ :: l' => search_digits l'
      end
  end.

Definition search_four_digits `{Unicode} (s : string) : option string :=
  search_digits (chars s).

(** [f"{v}"] for a column that holds text or NULL. *)
Definition format_optional (o : option string) : string :=
  match o with
  | Some s => s
  | None => "None"
  end.

(** One row of the item query, and the rows of the creator query for the
    item, in the order of [orderIndex]. *)
Module Row.
Record creator := mk_creator {
  firstName : option string;
  lastName : option string;
  creatorType : string
}.

Record t := mk {
  itemID : Z;
  key : string;
  libraryID : Z;
  itemType : string;
  title : option string;
  date : option string;
  doi : option string;
  isbn : option string;
  creators : list creator
}.
End Row.

(** [c['creatorType'] in ('author', 'editor')] *)
Definition is_author_or_editor (c : Row.creator) : bool :=
  String.eqb (Row.creatorType c) "author" || String.eqb (Row.creatorType c) "editor".

(** [" ".join(a.get('family', '') for a in authors)]: a family name that
    is NULL is no text and makes [join] raise. *)
Definition family_names (authors : list (option string * option string))
    : result string :=
  names ← mapR (fun a => match snd a with
                         | Some family => Ok family
                         | None => Raise TypeError
                         end) authors;
  Ok (join " " names).

(** The body of the row loop of [_load_items] up to the search string. *)
Definition make_item `{Unicode} (row : Row.t) : result LibraryItem.t :=
  let authors :=
    map (fun c => (Row.firstName c, Row.lastName c))
        (filter (fun c => is_author_or_editor c = true) (Row.creators row)) in
  let year :=
    if nonempty (Row.date row)
    then search_four_digits (default "" (Row.date row))
    else None in
  author_str ← family_names authors;
  Ok {| LibraryItem.key := Row.key row;
        LibraryItem.title := Row.title row;
        LibraryItem.date := Row.date row;
        LibraryItem.doi := Row.doi row;
        LibraryItem.isbn := Row.isbn row;
        LibraryItem.authors := authors;
        LibraryItem.year := year;
        LibraryItem.search_string :=
          format_optional (Row.title row) +:+ " " +:+ author_str +:+ " "
          +:+ format_optional year |}.

(** The loop over the rows of the account settings. *)
Definition load_setting (db : ZoteroDatabase.t) (row : string * pyval)
    : ZoteroDatabase.t :=
  if String.eqb (fst row) "userID" then
    {| ZoteroDatabase.items := ZoteroDatabase.items db;
       ZoteroDatabase.items_by_key := ZoteroDatabase.items_by_key db;
       ZoteroDatabase.items_by_doi := ZoteroDatabase.items_by_doi db;
       ZoteroDatabase.items_by_isbn := ZoteroDatabase.items_by_isbn db;
       ZoteroDatabase.user_id := snd row;
       ZoteroDatabase.local_user_key := ZoteroDatabase.local_user_key db |}
  else if String.eqb (fst row) "localUserKey" then
    {| ZoteroDatabase.items := ZoteroDatabase.items db;
       ZoteroDatabase.items_by_key := ZoteroDatabase.items_by_key db;
       ZoteroDatabase.items_by_doi := ZoteroDatabase.items_by_doi db;
       ZoteroDatabase.items_by_isbn := ZoteroDatabase.items_by_isbn db;
       ZoteroDatabase.user_id := ZoteroDatabase.user_id db;
       ZoteroDatabase.local_user_key := snd row |}
  else db.

(** The loop over the rows of the item query; an exception ends it. *)
Fixpoint load_rows `{Unicode} (db : ZoteroDatabase.t) (rows : list Row.t)
    : result ZoteroDatabase.t :=
  match rows with
  | [] => Ok db
  | row :: rest =>
      item ← make_item row;
      load_rows (ZoteroDatabase.add_item db item) rest
  end.

(** [_load_items] on the answers of its queries. *)
Definition _load_items `{Unicode} (settings : list (string * pyval)) (rows : list Row.t)
    : result ZoteroDatabase.t :=
  load_rows (foldl load_setting ZoteroDatabase.init settings) rows.

(** ** The matching loop of [main] *)

(** [if item.is_orphaned: match = db.find_match(item, threshold);
     if match: item.matched_library_item = match] *)
Definition match_item `{Unicode, PyRepr, Scorer} (db : ZoteroDatabase.t) (threshold : Z)
    (item : CitationItem.t) : result CitationItem.t :=
  if CitationItem.is_orphaned item then
    found ← ZoteroDatabase.find_match db item threshold;
    match snd found with
    | Some record => Ok (CitationItem.set_matched_library_item (Some record) (fst found))
    | None => Ok (fst found)
    end
  else Ok item.

Definition match_citation `{Unicode, PyRepr, Scorer} (db : ZoteroDatabase.t) (threshold : Z)
    (citation : Citation.t) : result Citation.t :=
  items ← mapR (match_item db threshold) (Citation.items citation);
  Ok (Citation.set_items items citation).

Definition find_matches `{Unicode, PyRepr, Scorer} (db : ZoteroDatabase.t) (threshold : Z)
    (citations : list Citation.t) : result (list Citation.t) :=
  mapR (match_citation db threshold) citations.

(** ** The counters of [generate_report]

    The head of the report prints four counts and its summary two.  The
    lines in between format the score of a match, an [int] after the
    identifier stages and a [float] after the scored ones, which the items
    here do not tell apart: the counters are embedded, the lines are not. *)

(** [total_items = sum(len(c.items) for c in citations)] *)
Definition total_items (citations : list Citation.t) : nat :=
  sum_list (map (fun c => length (Citation.items c)) citations).

(** [orphaned_citations = [c for c in citations if c.is_orphaned]] *)
Definition orphaned_citations (citations : list Citation.t) : list Citation.t :=
  List.filter Citation.is_orphaned citations.

(** [orphaned_items = sum(len([i for i in c.items if i.is_orphaned])
                          for c in orphaned_citations)] *)
Definition orphaned_items (citations : list Citation.t) : nat :=
  sum_list (map (fun c => length (List.filter CitationItem.is_orphaned (Citation.items c)))
                (orphaned_citations citations)).

Record counters := mk_counters {
  matched_count : nat;
  unmatched_count : nat
}.

(** The body of the inner loop: [continue] for an item that is not
    orphaned, then one of the two counters. *)
Definition report_item (n : counters) (item : CitationItem.t) : counters :=
  if negb (CitationItem.is_orphaned item) then n
  else
    match CitationItem.matched_library_item item with
    | Some _ => {| matched_count := S (matched_count n);
                   unmatched_count := unmatched_count n |}
    | None => {| matched_count := matched_count n;
                 unmatched_count := S (unmatched_count n) |}
    end.

(** The two loops over [orphaned_citations] and their items. *)
Definition report_counts (citations : list Citation.t) : counters :=
  foldl (fun n c => foldl report_item n (Citation.items c))
        (mk_counters 0 0) (orphaned_citations citations).

(** ** Notions of the statements *)

(** The DOI stage finds nothing: the DOI is empty (or another false value),
    or it is a text whose normal form is no key of the DOI index. *)
Definition doi_miss `{Unicode} (db : ZoteroDatabase.t) (ci : CitationItem.t) : Prop :=
  truthy (CitationItem.doi ci) = false \/
  exists d, CitationItem.doi ci = PStr d /\
            ZoteroDatabase.items_by_doi db !! doi_clean d = None.

(** The same for the ISBN stage. *)
Definition isbn_miss (db : ZoteroDatabase.t) (ci : CitationItem.t) : Prop :=
  truthy (CitationItem.isbn ci) = false \/
  exists i, CitationItem.isbn ci = PStr i /\
            ZoteroDatabase.items_by_isbn db !! isbn_clean i = None.


(** [uri] ends with [/items/k], [k] made of letters and digits. *)
Definition key_at_end (uri k : string) : Prop :=
  k <> "" /\ all_string is_alnum k = true /\
  exists pre, uri = pre +:+ "/items/" +:+ k.

(** The same, a line feed being allowed behind the key. *)
Definition key_pattern (uri k : string) : Prop :=
  k <> "" /\ all_string is_alnum k = true /\
  exists pre, uri = pre +:+ "/items/" +:+ k \/
              uri = pre +:+ "/items/" +:+ k +:+ newline.

(** Four digits, 0 to 9, at the head of a raw date. *)
Definition leading_digits (date y : string) : Prop :=
  y = slice_to 4 date /\ String.length y = 4 /\ all_string is_digit y = true.

(** The keys the parser produces are never the empty text. *)
Definition key_not_empty (item : CitationItem.t) : Prop :=
  CitationItem.item_key item <> Some "".

(** [t] comes from [s] by keeping characters and by putting some text in
    the place of occurrences of members of [olds]. *)
Inductive rewrites_only (olds : list string) : string -> string -> Prop :=
| rewrites_nil : rewrites_only olds "" ""
| rewrites_keep c s t :
    rewrites_only olds s t -> rewrites_only olds (String c s) (String c t)
| rewrites_subst o r s t s0 t0 :
    o ∈ olds -> rewrites_only olds s t ->
    s0 = o +:+ s -> t0 = r +:+ t ->
    rewrites_only olds s0 t0.

(** A text rewritten in rounds, one old identifier per round. *)
Inductive rewrite_rounds : list string -> string -> string -> Prop :=
| rounds_nil s : rewrite_rounds [] s s
| rounds_cons o os s t u :
    rewrites_only [o] s t -> rewrite_rounds os t u -> rewrite_rounds (o :: os) s u.

(** *** The payloads the parser can read

    What [from_field_code] asks of a decoded payload, value by value:
    [citationItems] is a list (or an empty text or object, which have no
    entries); an entry is an object; [uris] is a list whose entries are
    texts up to the first one the key pattern matches, or a text, or an
    empty object; [itemData] and [issued] are objects; [date-parts] has a
    first element which has a first element, each being a list or a text
    that is not empty; and [date], which is read when the year of
    [date-parts] gives no text, is false, a text or a list. *)
Definition is_str (v : pyval) : bool :=
  match v with PStr _ => true | _ => false end.

Definition first_of (v : pyval) : option pyval :=
  match v with
  | PList (x :: _) => Some x
  | PStr s => PStr <$> head (chars s)
  | _ => None
  end.







(** Everything of an item but the method and the score of its match. *)
Definition same_but_score (ci ci' : CitationItem.t) : Prop :=
  CitationItem.uri ci' = CitationItem.uri ci /\
  CitationItem.uris ci' = CitationItem.uris ci /\
  CitationItem.item_key ci' = CitationItem.item_key ci /\
  CitationItem.library_id ci' = CitationItem.library_id ci /\
  CitationItem.title ci' = CitationItem.title ci /\
  CitationItem.authors ci' = CitationItem.authors ci /\
  CitationItem.year ci' = CitationItem.year ci /\
  CitationItem.doi ci' = CitationItem.doi ci /\
  CitationItem.isbn ci' = CitationItem.isbn ci /\
  CitationItem.item_data ci' = CitationItem.item_data ci /\
  CitationItem.is_orphaned ci' = CitationItem.is_orphaned ci /\
  CitationItem.matched_library_item ci' = CitationItem.matched_library_item ci.

(** A text without carriage return. *)
Definition no_cr (s : string) : bool :=
  all_string (fun c => negb (Ascii.eqb c (ascii_of_nat 13))) s.

(** No record of the library is filed under the key of the item, or the
    item has no key. *)
Definition key_missing (db : ZoteroDatabase.t) (item : CitationItem.t) : Prop :=
  CitationItem.item_key item = None \/
  exists k, CitationItem.item_key item = Some k /\
            ZoteroDatabase.items_by_key db !! k = None.

Definition is_fld_begin (elem : element) : bool :=
  String.eqb (tag elem) (w_name "fldChar") &&
  bool_decide (assoc (w_name "fldCharType") (attrib elem) = Some "begin").

(** The last character of a text. *)
Fixpoint last_char (s : string) : option ascii :=
  match s with
  | EmptyString => None
  | String c EmptyString => Some c
  | String _ s' => last_char s'
  end.

(** ** Sample data of the examples *)

(** A database that knows the letters and digits of ASCII only. *)
Definition sample_unicode : Unicode.
Proof.
  refine {| str_lower := lower; is_decimal := between 48 57 |}; [done |].
  intros n. unfold between, is_space_code, between.
  intros [H1 H2]%andb_true_iff. apply N.leb_le in H1, H2.
  repeat (rewrite orb_false_iff; split);
    repeat (rewrite andb_false_iff);
    rewrite ?N.leb_gt, ?N.eqb_neq; lia.
Defined.

Definition sample_repr : PyRepr := fun _ => "<object>".

Definition sample_platform : Platform := newline.

(** A scorer that knows one title. *)
Definition sample_ratio (q c : string) : Q :=
  if is_empty (strip q) then inject_Z 0
  else if String.eqb c "On Matching" then inject_Z 92 else inject_Z 75.

Definition sample_scorer : Scorer.
Proof.
  refine {| token_set_ratio := sample_ratio |}.
  intros q c Hq. unfold sample_ratio. rewrite Hq. apply Qeq_refl.
Defined.

Definition record_abc1 : LibraryItem.t :=
  {| LibraryItem.key := "ABC1"; LibraryItem.title := Some "On Matching";
     LibraryItem.date := Some "2020-05-01"; LibraryItem.doi := Some "10.1/xyz";
     LibraryItem.isbn := Some "978-0-306-40615-7";
     LibraryItem.authors := [(Some "Jo", Some "Smith")];
     LibraryItem.year := Some "2020";
     LibraryItem.search_string := "On Matching Smith 2020" |}.

(** A record whose ISBN field holds no ISBN character. *)
Definition record_report : LibraryItem.t :=
  {| LibraryItem.key := "REP2"; LibraryItem.title := Some "Annual Report";
     LibraryItem.date := Some "2001"; LibraryItem.doi := None;
     LibraryItem.isbn := Some "n/a";
     LibraryItem.authors := [(Some "Al", Some "Jones")];
     LibraryItem.year := Some "2001";
     LibraryItem.search_string := "Annual Report Jones 2001" |}.

Definition sample_library : ZoteroDatabase.t :=
  @ZoteroDatabase.load_items sample_unicode [record_abc1; record_report].

(** A cited item with the given identifiers, title, DOI and ISBN. *)
Definition cited (uris : list string) (item_key : option string)
    (title doi isbn : string) : CitationItem.t :=
  {| CitationItem.uri := default PNone (head (map PStr uris));
     CitationItem.uris := PList (map PStr uris);
     CitationItem.item_key := item_key; CitationItem.library_id := None;
     CitationItem.title := PStr title; CitationItem.authors := PList [];
     CitationItem.year := PStr ""; CitationItem.doi := PStr doi;
     CitationItem.isbn := PStr isbn; CitationItem.item_data := PDict [];
     CitationItem.is_orphaned := true; CitationItem.matched_library_item := None;
     CitationItem.match_score := inject_Z 0; CitationItem.match_method := "" |}.

(** ** Sample payloads *)

Definition quoted (s : string) : string := dquote +:+ s +:+ dquote.

(** [{"citationItems":[{"uris":["http://zotero.org/users/1/items/OLD1"],
    "itemData":{"title":"On Matching","issued":{"date-parts":[[2020,5,1]]},
    "DOI":"10.1/XYZ"}}]}] *)
Definition payload_plain : string :=
  "{" +:+ quoted "citationItems" +:+ ":[{" +:+ quoted "uris" +:+ ":["
  +:+ quoted "http://zotero.org/users/1/items/OLD1" +:+ "],"
  +:+ quoted "itemData" +:+ ":{" +:+ quoted "title" +:+ ":" +:+ quoted "On Matching"
  +:+ "," +:+ quoted "issued" +:+ ":{" +:+ quoted "date-parts" +:+ ":[[2020,5,1]]},"
  +:+ quoted "DOI" +:+ ":" +:+ quoted "10.1/XYZ" +:+ "}}]}".

Definition entry_plain : pyval :=
  PDict [("uris", PList [PStr "http://zotero.org/users/1/items/OLD1"]);
         ("itemData",
          PDict [("title", PStr "On Matching");
                 ("issued",
                  PDict [("date-parts", PList [PList [PInt 2020; PInt 5; PInt 1]])]);
                 ("DOI", PStr "10.1/XYZ")])].

Definition decoded_plain : pyval := PDict [("citationItems", PList [entry_plain])].

(** [{"citationItems":[{"uris":["http://zotero.org/users/1/items/ABCD\n"]}]}],
    the escape [\n] standing for a line feed at the end of the URI. *)
Definition payload_newline_uri : string :=
  "{" +:+ quoted "citationItems" +:+ ":[{" +:+ quoted "uris" +:+ ":["
  +:+ quoted "http://zotero.org/users/1/items/ABCD\n" +:+ "]}]}".

Definition uri_with_newline : string :=
  "http://zotero.org/users/1/items/ABCD" +:+ newline.

Definition decoded_newline_uri : pyval :=
  PDict [("citationItems", PList [PDict [("uris", PList [PStr uri_with_newline])]])].

(** [{"citationItems":[{"itemData":{"title":"On Matching",
    "date":"March 2020"}}]}] *)
Definition payload_raw_date : string :=
  "{" +:+ quoted "citationItems" +:+ ":[{" +:+ quoted "itemData" +:+ ":{"
  +:+ quoted "title" +:+ ":" +:+ quoted "On Matching" +:+ ","
  +:+ quoted "date" +:+ ":" +:+ quoted "March 2020" +:+ "}}]}".

Definition decoded_raw_date : pyval :=
  PDict [("citationItems",
          PList [PDict [("itemData",
                         PDict [("title", PStr "On Matching");
                                ("date", PStr "March 2020")])]])].

(** [{"citationItems":[{"itemData":{"issued":{"date-parts":[]}}}]}] *)
Definition payload_empty_date_parts : string :=
  "{" +:+ quoted "citationItems" +:+ ":[{" +:+ quoted "itemData" +:+ ":{"
  +:+ quoted "issued" +:+ ":{" +:+ quoted "date-parts" +:+ ":[]}}}]}".

Definition decoded_empty_date_parts : pyval :=
  PDict [("citationItems",
          PList [PDict [("itemData",
                         PDict [("issued", PDict [("date-parts", PList [])])])]])].

(** [{"citationItems":[{"itemData":{"date":2020}}]}] *)
Definition payload_numeric_date : string :=
  "{" +:+ quoted "citationItems" +:+ ":[{" +:+ quoted "itemData" +:+ ":{"
  +:+ quoted "date" +:+ ":2020}}]}".

Definition decoded_numeric_date : pyval :=
  PDict [("citationItems",
          PList [PDict [("itemData", PDict [("date", PInt 2020)])]])].

(** [{"citationItems":[{"itemData":{"title":1e5000}}]}] with the number
    written out: a payload with an integer of 5001 digits. *)
Definition payload_long_number : string :=
  "{" +:+ quoted "citationItems" +:+ ":[{" +:+ quoted "itemData" +:+ ":{"
  +:+ quoted "title" +:+ ":1" +:+ String.concat "" (repeat "0" 5000) +:+ "}}]}".

(** A decoder that reads the sample payloads, fails on the long number as
    the interpreter does, and refuses any other text. *)
Definition sample_json_loads : JsonDecoder := fun s =>
  if String.eqb s payload_plain then Ok decoded_plain
  else if String.eqb s payload_newline_uri then Ok decoded_newline_uri
  else if String.eqb s payload_raw_date then Ok decoded_raw_date
  else if String.eqb s payload_empty_date_parts then Ok decoded_empty_date_parts
  else if String.eqb s payload_numeric_date then Ok decoded_numeric_date
  else if String.eqb s payload_long_number then Raise ValueError
  else Raise (JSONDecodeError "Expecting value: line 1 column 1 (char 0)").

Definition field_of (payload : string) : string :=
  " ADDIN ZOTERO_ITEM CSL_CITATION " +:+ payload +:+ " ".

(** The citation of the first payload, as the parser builds it. *)
Definition sample_item : CitationItem.t :=
  {| CitationItem.uri := PStr "http://zotero.org/users/1/items/OLD1";
     CitationItem.uris := PList [PStr "http://zotero.org/users/1/items/OLD1"];
     CitationItem.item_key := Some "OLD1"; CitationItem.library_id := None;
     CitationItem.title := PStr "On Matching"; CitationItem.authors := PList [];
     CitationItem.year := PStr "2020"; CitationItem.doi := PStr "10.1/XYZ";
     CitationItem.isbn := PStr ""; CitationItem.item_data := entry_plain;
     CitationItem.is_orphaned := false; CitationItem.matched_library_item := None;
     CitationItem.match_score := inject_Z 0; CitationItem.match_method := "" |}.

Definition sample_citation : Citation.t :=
  {| Citation.field_code := field_of payload_plain;
     Citation.citation_data := decoded_plain;
     Citation.items := [sample_item];
     Citation.field_index := 0;
     Citation.is_orphaned := false |}.

(** ** Sample data of the rewriting example

    Two cited items without record in the library, each matched to a
    record; the only identifier of the second is a text that comes about
    where the markup meets the new identifier of the first. *)
Definition rewritten_items : list CitationItem.t :=
  [CitationItem.set_matched_library_item (Some record_abc1)
     (cited ["zotero://old/1"] None "On Matching" "" "");
   CitationItem.set_matched_library_item (Some record_report)
     (cited [">http"] None "Annual Report" "" "")].

Definition rewritten_citation : Citation.t :=
  {| Citation.field_code := ""; Citation.citation_data := PDict [];
     Citation.items := rewritten_items; Citation.field_index := 0;
     Citation.is_orphaned := true |}.

Definition markup_before : string := "<w:instrText>zotero://old/1</w:instrText>".

(** A text with a line end of the form CR LF. *)
Definition markup_crlf : string :=
  "<w:t>a" +:+ carriage_return +:+ newline +:+ "b</w:t>".

Definition markup_after : string :=
  "<w:instrTexthttp://zotero.org/users/local/items/REP2"
  +:+ "://zotero.org/users/local/items/ABC1</w:instrText>".

(** A record that [_load_items] files under [k] in the DOI dict, and in
    the ISBN dict. *)
Definition doi_filed_as `{Unicode} (k : string) (item : LibraryItem.t) : Prop :=
  exists d, LibraryItem.doi item = Some d /\ d <> "" /\ doi_clean d = k.

Definition isbn_filed_as (k : string) (item : LibraryItem.t) : Prop :=
  exists i, LibraryItem.isbn item = Some i /\ i <> "" /\ isbn_clean i = k.

(** A cited item whose payload gave a number for the DOI. *)
Definition cited_numeric_doi : CitationItem.t :=
  {| CitationItem.uri := PNone; CitationItem.uris := PList [];
     CitationItem.item_key := None; CitationItem.library_id := None;
     CitationItem.title := PStr "On Matching"; CitationItem.authors := PList [];
     CitationItem.year := PStr ""; CitationItem.doi := PInt 101;
     CitationItem.isbn := PStr ""; CitationItem.item_data := PDict [];
     CitationItem.is_orphaned := true; CitationItem.matched_library_item := None;
     CitationItem.match_score := inject_Z 0; CitationItem.match_method := "" |}.

(** The same with the ISBN of record [ABC1]. *)
Definition cited_numeric_doi_isbn : CitationItem.t :=
  {| CitationItem.uri := PNone; CitationItem.uris := PList [];
     CitationItem.item_key := None; CitationItem.library_id := None;
     CitationItem.title := PStr "On Matching"; CitationItem.authors := PList [];
     CitationItem.year := PStr ""; CitationItem.doi := PInt 101;
     CitationItem.isbn := PStr "978-0-306-40615-7"; CitationItem.item_data := PDict [];
     CitationItem.is_orphaned := true; CitationItem.matched_library_item := None;
     CitationItem.match_score := inject_Z 0; CitationItem.match_method := "" |}.

(** The names [author_string] takes from a list of authors: the family
    name of an entry that has one, else its literal name, a bare text as it
    is, and nothing from any other entry. *)
Inductive author_names : list pyval -> list string -> Prop :=
| names_nil : author_names [] []
| names_family d f l ns :
    assoc "family" d = Some (PStr f) ->
    author_names l ns -> author_names (PDict d :: l) (f :: ns)
| names_literal d n l ns :
    assoc "family" d = None -> assoc "literal" d = Some (PStr n) ->
    author_names l ns -> author_names (PDict d :: l) (n :: ns)
| names_text s l ns :
    author_names l ns -> author_names (PStr s :: l) (s :: ns)
| names_skip v l ns :
    match v with
    | PDict d => assoc "family" d = None /\ assoc "literal" d = None
    | PStr _ => False
    | _ => True
    end ->
    author_names l ns -> author_names (v :: l) ns.

(** The text of a year that is a text or [None]. *)
Definition year_text (v : pyval) : option string :=
  match v with
  | PStr y => Some y
  | PNone => Some ""
  | _ => None
  end.

(** The texts of the instruction elements of a run of elements. *)
Definition instr_texts (elems : list element) : list string :=
  flat_map (fun elem =>
              if String.eqb (tag elem) (w_name "instrText") && nonempty (text elem)
              then [default "" (text elem)] else []) elems.

(** An element that neither begins nor ends a field. *)
Definition inside_field (elem : element) : Prop :=
  is_fld_begin elem = false /\ is_fld_end elem = false.

(** The index of the loop counts the citations, and each citation bears
    its position. *)
Definition numbered (st : extractor) : Prop :=
  field_index st = length (citations st) /\
  forall i c, citations st !! i = Some c -> Citation.field_index c = i.

(** What the matching loop of [main] may change in an item: the match and
    its method and score, and in an orphaned item only. *)
Definition same_but_match (item item' : CitationItem.t) : Prop :=
  CitationItem.uri item' = CitationItem.uri item /\
  CitationItem.uris item' = CitationItem.uris item /\
  CitationItem.item_key item' = CitationItem.item_key item /\
  CitationItem.title item' = CitationItem.title item /\
  CitationItem.authors item' = CitationItem.authors item /\
  CitationItem.year item' = CitationItem.year item /\
  CitationItem.doi item' = CitationItem.doi item /\
  CitationItem.isbn item' = CitationItem.isbn item /\
  CitationItem.item_data item' = CitationItem.item_data item /\
  CitationItem.is_orphaned item' = CitationItem.is_orphaned item /\
  (CitationItem.is_orphaned item = false -> item' = item).

(** [old] is one of the identifiers of an orphaned, matched item of an
    orphaned citation, and [new] the identifier made for its match. *)
Definition replaced_by `{PyRepr} (db : ZoteroDatabase.t) (citations : list Citation.t)
    (old new : string) : Prop :=
  exists c item record us,
    c ∈ citations /\ Citation.is_orphaned c = true /\
    item ∈ Citation.items c /\ CitationItem.is_orphaned item = true /\
    CitationItem.matched_library_item item = Some record /\
    py_iter (CitationItem.uris item) = Ok us /\ PStr old ∈ us /\
    new = new_uri db (LibraryItem.key record).

(** The cited items of [c] whose key is not a key of the library. *)
Definition missing_items (db : ZoteroDatabase.t) (c : Citation.t) : list CitationItem.t :=
  List.filter (fun item => negb (key_in_library db item)) (Citation.items c).

(** A text that is one character, and a text that opens a character. *)
Definition is_char (ch : string) : bool :=
  match ch with
  | String _ t => all_string is_cont t
  | EmptyString => false
  end.

Definition opens (s : string) : bool :=
  match s with
  | String c _ => negb (is_cont c)
  | EmptyString => false
  end.

(** The characters of a text: each is a character, and each but the first
    opens one. *)
Definition wf_chars (l : list string) : Prop :=
  Forall (fun ch => is_char ch = true) l /\ Forall (fun ch => opens ch = true) (tail l).

(** * Properties *)

Lemma is_empty_false (s : string) : s <> "" -> is_empty s = false.
Proof. destruct s; [congruence | reflexivity]. Qed.

Lemma is_empty_true (s : string) : is_empty s = true -> s = "".
Proof. destruct s; [reflexivity | discriminate]. Qed.

(** ** Text *)

Lemma append_cons (c : ascii) (s t : string) : String c s +:+ t = String c (s +:+ t).
Proof. reflexivity. Qed.

Lemma append_nil_r (s : string) : s +:+ "" = s.
Proof. induction s as [| c s IH]; [done | by rewrite append_cons, IH]. Qed.

Lemma append_assoc (s t u : string) : (s +:+ t) +:+ u = s +:+ t +:+ u.
Proof. induction s as [| c s IH]; [done | by rewrite !append_cons, IH]. Qed.

Lemma length_append (s t : string) :
  String.length (s +:+ t) = String.length s + String.length t.
Proof. induction s as [| c s IH]; [done | rewrite append_cons; simpl; by rewrite IH]. Qed.

Lemma bind_Ok {A B} (r : result A) (k : A -> result B) (b : B) :
  r ≫= k = Ok b -> exists a, r = Ok a /\ k a = Ok b.
Proof. destruct r as [a | e]; simpl; [eauto | discriminate]. Qed.

(** *** Characters *)

Lemma concat_cons (ch : string) (l : list string) :
  String.concat "" (ch :: l) = ch +:+ String.concat "" l.
Proof.
  destruct l as [| ch' l]; simpl; [by rewrite append_nil_r | done].
Qed.

Lemma concat_app (l1 l2 : list string) :
  String.concat "" (l1 ++ l2)%list = String.concat "" l1 +:+ String.concat "" l2.
Proof.
  induction l1 as [| ch l1 IH]; [done |].
  rewrite <- app_comm_cons, !concat_cons, IH. by rewrite append_assoc.
Qed.

Lemma chars_cons (c : ascii) (s : string) :
  chars (String c s)
  = match chars s with
    | ch :: rest =>
        if continues s then String c ch :: rest else String c "" :: ch :: rest
    | [] => [String c ""]
    end.
Proof. reflexivity. Qed.

Lemma chars_nil (s : string) : chars s = [] -> s = "".
Proof.
  destruct s as [| c s]; [done |]. rewrite chars_cons.
  destruct (chars s); [done |]. by destruct (continues s).
Qed.

(** The characters of a text make up the text. *)
Lemma concat_chars (s : string) : String.concat "" (chars s) = s.
Proof.
  induction s as [| c s IH]; [done |]. rewrite chars_cons.
  destruct (chars s) as [| ch rest] eqn:E.
  - apply chars_nil in E as ->. done.
  - destruct (continues s).
    + rewrite concat_cons, append_cons. rewrite concat_cons in IH. by rewrite IH.
    + rewrite concat_cons, append_cons. change ("" +:+ ?x) with x. by rewrite IH.
Qed.

Lemma chars_cons_opens (c : ascii) (s : string) :
  continues s = false -> chars (String c s) = String c "" :: chars s.
Proof.
  intros Hs. rewrite chars_cons, Hs. by destruct (chars s).
Qed.

Lemma continues_append (s t : string) :
  continues (s +:+ t) = if is_empty s then continues t else continues s.
Proof. by destruct s. Qed.

(** A text that does not go on in the middle of a character can be split
    off. *)
Lemma chars_app (s t : string) :
  continues t = false -> chars (s +:+ t) = (chars s ++ chars t)%list.
Proof.
  intros Ht. induction s as [| c s IH]; [done |].
  rewrite append_cons, !chars_cons, IH, continues_append.
  destruct s as [| b s].
  - simpl. rewrite Ht. by destruct (chars t).
  - cbn [is_empty]. destruct (chars (String b s)) as [| ch rest] eqn:E.
    + by apply chars_nil in E.
    + rewrite <- app_comm_cons. by destruct (continues (String b s)).
Qed.

Lemma chars_char_cons (t : string) : forall (c : ascii) (r : string),
  all_string is_cont t = true -> continues r = false ->
  chars (String c (t +:+ r)) = String c t :: chars r.
Proof.
  induction t as [| b t IH]; intros c r Ht Hr.
  - by apply chars_cons_opens.
  - simpl in Ht. apply andb_true_iff in Ht as [Hb Ht].
    rewrite append_cons, chars_cons, IH by done. simpl. by rewrite Hb.
Qed.

Lemma chars_char_app (ch r : string) :
  is_char ch = true -> continues r = false -> chars (ch +:+ r) = ch :: chars r.
Proof.
  destruct ch as [| c t]; [done |]. intros Ht Hr.
  rewrite append_cons. by apply chars_char_cons.
Qed.

Lemma continues_opens (s : string) : opens s = true -> continues s = false.
Proof. destruct s as [| c s]; [done |]. simpl. by destruct (is_cont c). Qed.

Lemma is_char_not_empty (ch : string) : is_char ch = true -> ch <> "".
Proof. by destruct ch. Qed.

Lemma continues_concat (l : list string) :
  Forall (fun ch => is_char ch = true) l ->
  match l with ch :: _ => opens ch = true | [] => True end ->
  continues (String.concat "" l) = false.
Proof.
  destruct l as [| ch l]; [done |]. intros Hl%Forall_inv Hch.
  rewrite concat_cons, continues_append.
  rewrite (is_empty_false ch) by (by apply is_char_not_empty).
  by apply continues_opens.
Qed.

Lemma wf_chars_tail (ch : string) (l : list string) :
  wf_chars (ch :: l) ->
  wf_chars l /\ match l with ch' :: _ => opens ch' = true | [] => True end.
Proof.
  intros [Hc Ho]. apply Forall_cons in Hc as [_ Hc]. simpl in Ho.
  split; [split; [done |] |].
  - destruct l; [constructor | by apply Forall_inv_tail in Ho].
  - destruct l; [done | by apply Forall_inv in Ho].
Qed.

(** Characters put together are the characters of the text they make. *)
Lemma chars_concat (l : list string) : wf_chars l -> chars (String.concat "" l) = l.
Proof.
  induction l as [| ch l IH]; [done |]. intros Hwf.
  destruct (wf_chars_tail ch l Hwf) as [Hl Hhead].
  rewrite concat_cons, chars_char_app, IH; [done | done | |].
  - destruct Hwf as [Hc _]. by apply Forall_inv in Hc.
  - apply continues_concat; [by destruct Hl | done].
Qed.

Lemma chars_wf (s : string) : wf_chars (chars s).
Proof.
  induction s as [| c s [Hc Ho]]; [by split; constructor |].
  rewrite chars_cons. destruct (chars s) as [| ch rest] eqn:E.
  - split; by repeat constructor.
  - destruct (continues s) eqn:Hs.
    + split; [| done]. apply Forall_cons in Hc as [Hch Hrest].
      constructor; [| done]. simpl.
      destruct s as [| b s]; [done |]. simpl in Hs.
      rewrite chars_cons in E.
      destruct (chars s) as [| ch' rest']; [by simplify_eq/=; rewrite Hs |].
      destruct (continues s); simplify_eq/=; by rewrite ?Hs.
    + split; [by constructor |]. simpl. constructor; [| done].
      destruct s as [| b s]; [done |]. simpl in Hs.
      rewrite chars_cons in E.
      destruct (chars s) as [| ch' rest']; [by simplify_eq/=; rewrite Hs |].
      destruct (continues s); simplify_eq/=; by rewrite ?Hs.
Qed.

Lemma wf_chars_app (l1 l2 : list string) :
  wf_chars (l1 ++ l2)%list -> wf_chars l1 /\ wf_chars l2.
Proof.
  intros [Hc Ho]. apply Forall_app in Hc as [Hc1 Hc2].
  split; split; try done.
  - destruct l1 as [| ch l1]; [constructor |]. simpl in *.
    by apply Forall_app in Ho as [? _].
  - destruct l1 as [| ch l1]; [done |]. simpl in Ho.
    apply Forall_app in Ho as [_ Ho]. destruct l2; [constructor |].
    by apply Forall_inv_tail in Ho.
Qed.

(** The bytes of a code point are one character, and open one. *)
Lemma utf8_code_char (ch : string) (n : N) :
  utf8_code ch = Some n -> is_char ch = true /\ opens ch = true.
Proof.
  unfold utf8_code, is_cont, between.
  destruct ch as [| a [| b [| c [| d [| e t]]]]]; try done; simpl;
    intros Hn; repeat (case_match; try done);
    repeat match goal with
           | H : _ && _ = true |- _ => apply andb_true_iff in H as [? ?]
           | H : N.leb _ _ = true |- _ => apply N.leb_le in H
           end;
    (split; [by repeat (apply andb_true_iff; split; [apply andb_true_iff; split;
                          by apply N.leb_le |]) |]);
    apply negb_true_iff, andb_false_iff; rewrite !N.leb_gt; lia.
Qed.

Lemma is_space_char_char (ch : string) :
  is_space_char ch = true -> is_char ch = true /\ opens ch = true.
Proof.
  unfold is_space_char. destruct (utf8_code ch) as [n |] eqn:E; [| done].
  intros _. by apply utf8_code_char in E.
Qed.

(** *** White space *)

Lemma dropwhile_nil {A} (p : A -> bool) (l : list A) :
  dropwhile p l = [] <-> Forall (fun a => p a = true) l.
Proof.
  induction l as [| a l IH]; simpl; [by split; [constructor |] |].
  destruct (p a) eqn:E.
  - rewrite IH. split; [by constructor | by intros ?%Forall_inv_tail].
  - split; [done |]. intros Ha%Forall_inv. congruence.
Qed.

Lemma dropwhile_split {A} (p : A -> bool) (l : list A) :
  exists l1, l = (l1 ++ dropwhile p l)%list /\ Forall (fun a => p a = true) l1.
Proof.
  induction l as [| a l (l1 & Hl & Hl1)]; [by exists [] |]. simpl.
  destruct (p a) eqn:E.
  - exists (a :: l1). split; [by rewrite <- app_comm_cons, <- Hl | by constructor].
  - by exists [].
Qed.

Lemma dropwhile_app {A} (p : A -> bool) (l1 l2 : list A) :
  Forall (fun a => p a = true) l1 -> dropwhile p (l1 ++ l2) = dropwhile p l2.
Proof. induction 1 as [| a l1 Ha _ IH]; simpl; [done | by rewrite Ha]. Qed.

Lemma dropwhile_fixed {A} (p : A -> bool) (l : list A) :
  match l with a :: _ => p a = false | [] => True end -> dropwhile p l = l.
Proof. destruct l as [| a l]; simpl; [done | by intros ->]. Qed.

Lemma dropwhile_head {A} (p : A -> bool) (l : list A) :
  match dropwhile p l with a :: _ => p a = false | [] => True end.
Proof.
  induction l as [| a l IH]; simpl; [done |]. by destruct (p a) eqn:E.
Qed.

Lemma concat_nil (l : list string) :
  Forall (fun ch => is_char ch = true) l -> String.concat "" l = "" -> l = [].
Proof.
  destruct l as [| ch l]; [done |]. intros Hch%Forall_inv.
  rewrite concat_cons. by destruct ch.
Qed.

Lemma chars_chars (s : string) : Forall (fun ch => is_char ch = true) (chars s).
Proof. by destruct (chars_wf s). Qed.

Lemma Forall_dropwhile {A} (P : A -> Prop) (p : A -> bool) (l : list A) :
  Forall P l -> Forall P (dropwhile p l).
Proof.
  induction 1 as [| a l Ha Hl IH]; simpl; [constructor |].
  destruct (p a); [done | by constructor].
Qed.

(** A text is blank when all its characters are white space. *)
Lemma strip_empty (s : string) :
  strip s = "" <-> Forall (fun ch => is_space_char ch = true) (chars s).
Proof.
  unfold strip. split.
  - intros Hs. apply concat_nil in Hs.
    + apply (f_equal (@rev string)) in Hs. rewrite rev_involutive in Hs. simpl in Hs.
      apply dropwhile_nil, Forall_rev in Hs. rewrite rev_involutive in Hs.
      destruct (dropwhile_split is_space_char (chars s)) as (l1 & Hl & Hl1).
      rewrite Hl. apply Forall_app. split; [done | done].
    + apply Forall_rev, Forall_dropwhile, Forall_rev, Forall_dropwhile, chars_chars.
  - intros Hs. apply dropwhile_nil in Hs. rewrite Hs. done.
Qed.

Lemma lstrip_empty (s : string) :
  lstrip s = "" <-> Forall (fun ch => is_space_char ch = true) (chars s).
Proof.
  unfold lstrip. rewrite <- dropwhile_nil. split.
  - intros Hs. apply concat_nil in Hs; [done |].
    apply Forall_dropwhile, chars_chars.
  - by intros ->.
Qed.


Lemma strip_app_not_empty_r (s t : string) :
  continues t = false -> strip t <> "" -> strip (s +:+ t) <> "".
Proof.
  intros Ht. rewrite !strip_empty, chars_app by done.
  intros Hs [_ Hs']%Forall_app. done.
Qed.

(** The white space [lstrip] takes away. *)
Lemma lstrip_split (s : string) :
  exists ws, s = ws +:+ lstrip s /\ lstrip ws = "".
Proof.
  destruct (dropwhile_split is_space_char (chars s)) as (l1 & Hl & Hl1).
  exists (String.concat "" l1). split.
  - rewrite <- (concat_chars s) at 1. rewrite Hl at 1. by rewrite concat_app.
  - apply lstrip_empty. rewrite chars_concat; [done |].
    pose proof (chars_wf s) as Hwf. rewrite Hl in Hwf.
    by apply wf_chars_app in Hwf as [? _].
Qed.

(** ** The index built by [_load_items] *)

Section Index.
Context {Un : Unicode}.

Lemma load_items_snoc rows item :
  ZoteroDatabase.load_items (rows ++ [item])
  = ZoteroDatabase.add_item (ZoteroDatabase.load_items rows) item.
Proof. unfold ZoteroDatabase.load_items. by rewrite foldl_snoc. Qed.

Lemma load_items_items rows :
  ZoteroDatabase.items (ZoteroDatabase.load_items rows) = rows.
Proof.
  induction rows as [| item rows IH] using rev_ind; [done |].
  rewrite load_items_snoc. simpl. by rewrite IH.
Qed.


End Index.

(** ** The matching engine *)

Lemma set_match_same (method : string) (score : Q) (ci : CitationItem.t) :
  same_but_score ci (CitationItem.set_match method score ci).
Proof. by repeat split. Qed.

Section Matching.
Context {Un : Unicode} {Rp : PyRepr} {Sc : Scorer}.

Lemma doi_miss_lookup db ci :
  doi_miss db ci ->
  exists o, ZoteroDatabase.text_if_true (CitationItem.doi ci) = Ok o /\
            o ≫= (fun d => ZoteroDatabase.items_by_doi db !! doi_clean d) = None.
Proof.
  unfold ZoteroDatabase.text_if_true.
  intros [Hf | (d & Hd & Hn)].
  - rewrite Hf. exists None. done.
  - rewrite Hd. destruct (truthy (PStr d)).
    + exists (Some d). done.
    + exists None. done.
Qed.

Lemma isbn_miss_lookup db ci :
  isbn_miss db ci ->
  exists o, ZoteroDatabase.text_if_true (CitationItem.isbn ci) = Ok o /\
            o ≫= (fun i => ZoteroDatabase.items_by_isbn db !! isbn_clean i) = None.
Proof.
  unfold ZoteroDatabase.text_if_true.
  intros [Hf | (i & Hi & Hn)].
  - rewrite Hf. exists None. done.
  - rewrite Hi. destruct (truthy (PStr i)).
    + exists (Some i). done.
    + exists None. done.
Qed.

(** C1.  An item whose DOI is a non-empty text, the normal form of which
    (lower case, trimmed) is a key of the DOI index: [find_match] returns
    the record filed under that key and leaves the item with the method
    [DOI] and the score 100, and otherwise as it was, whatever the
    threshold and whatever its title, authors, year and ISBN. *)
Theorem find_match_doi (db : ZoteroDatabase.t) (ci : CitationItem.t)
    (threshold : Z) (d : string) (item : LibraryItem.t) :
  CitationItem.doi ci = PStr d ->
  d <> "" ->
  ZoteroDatabase.items_by_doi db !! strip (str_lower d) = Some item ->
  exists ci',
    ZoteroDatabase.find_match db ci threshold = Ok (ci', Some item) /\
    CitationItem.match_method ci' = "DOI" /\
    CitationItem.match_score ci' = inject_Z 100 /\
    same_but_score ci ci'.
Proof.
  intros Hdoi Hne Hin.
  exists (CitationItem.set_match "DOI" (inject_Z 100) ci). split.
  - unfold ZoteroDatabase.find_match, ZoteroDatabase.text_if_true, doi_clean.
    rewrite Hdoi. simpl. rewrite (is_empty_false d Hne). simpl.
    rewrite Hin. reflexivity.
  - split; [reflexivity |]. split; [reflexivity |]. apply set_match_same.
Qed.

(** C2, amended.  An item whose DOI is false (empty, absent) or a text
    the normal form of which is no key of the DOI index, and whose ISBN is
    a non-empty text, the normal form of which (upper case, everything but
    digits and X removed) is a key of the ISBN index: [find_match] returns
    the record filed under that key and leaves the item with the method
    [ISBN] and the score 100, and otherwise as it was.  A DOI that is true
    and no text has no normal form: [find_match] raises [AttributeError]
    on it and does not come to the ISBN. *)
Theorem find_match_isbn (db : ZoteroDatabase.t) (ci : CitationItem.t)
    (threshold : Z) :
  (forall i item,
     doi_miss db ci ->
     CitationItem.isbn ci = PStr i ->
     i <> "" ->
     ZoteroDatabase.items_by_isbn db !! filter_string is_isbn_char (upper i)
     = Some item ->
     exists ci',
       ZoteroDatabase.find_match db ci threshold = Ok (ci', Some item) /\
       CitationItem.match_method ci' = "ISBN" /\
       CitationItem.match_score ci' = inject_Z 100 /\
       same_but_score ci ci') /\
  (truthy (CitationItem.doi ci) = true ->
   is_str (CitationItem.doi ci) = false ->
   ZoteroDatabase.find_match db ci threshold = Raise AttributeError).
Proof.
  split.
  - intros i item Hmiss Hisbn Hne Hin.
    exists (CitationItem.set_match "ISBN" (inject_Z 100) ci). split.
    + destruct (doi_miss_lookup db ci Hmiss) as (o & Ho & Hnone).
      unfold ZoteroDatabase.find_match. rewrite Ho. simpl. rewrite Hnone.
      unfold ZoteroDatabase.text_if_true, isbn_clean, sub_non_isbn.
      rewrite Hisbn. simpl.
      rewrite (is_empty_false i Hne). simpl. rewrite Hin. reflexivity.
    + split; [reflexivity |]. split; [reflexivity |]. apply set_match_same.
  - intros Htrue Hstr. unfold ZoteroDatabase.find_match, ZoteroDatabase.text_if_true.
    rewrite Htrue. by destruct (CitationItem.doi ci).
Qed.

Lemma find_title_match_item db ci ci' r :
  ZoteroDatabase.find_title_match db ci = Ok (ci', r) ->
  match r with
  | None => ci' = ci
  | Some _ => exists method score, ci' = CitationItem.set_match method score ci
  end.
Proof.
  unfold ZoteroDatabase.find_title_match.
  intros Hf. repeat (case_match; simplify_eq/=); try done.
  all: unfold mbind, result_bind in *; repeat (case_match; simplify_eq/=); eauto.
Qed.

(** C10.  When [find_match] returns no record, the item is as it was
    before the call, its method and score included; when it returns a
    record, the item differs from what it was in method and score only. *)
Theorem find_match_none_unchanged (db : ZoteroDatabase.t) (ci ci' : CitationItem.t)
    (threshold : Z) (r : option LibraryItem.t) :
  ZoteroDatabase.find_match db ci threshold = Ok (ci', r) ->
  match r with
  | None => ci' = ci
  | Some _ => exists method score, ci' = CitationItem.set_match method score ci
  end.
Proof.
  unfold ZoteroDatabase.find_match, ZoteroDatabase.find_fuzzy_match.
  unfold mbind at 1 3 5, result_bind.
  intros Hf.
  repeat (case_match; simplify_eq/=); eauto.
  all: try (eapply (find_title_match_item _ _ _ None); eassumption).
  all: try (eapply (find_title_match_item _ _ _ (Some _)); eassumption).
  all: destruct (ZoteroDatabase.record_of _ _ _); simplify_eq/=; eauto.
Qed.


(** *** What [extractOne] returns *)

Lemma extractOne_from_pick q cs : forall best i c sc j,
  extractOne_from q best i cs = Some (c, sc, j) ->
  best = Some (c, sc, j) \/
  exists k, j = i + k /\ cs !! k = Some c /\ sc = token_set_ratio q c.
Proof.
  induction cs as [| a cs IH]; simpl; intros best i c sc j Hf; [by left |].
  apply IH in Hf as [Hb | (k & -> & Hk & ->)].
  - destruct best as [[[c0 b] j0] |].
    + destruct (Qle_bool (token_set_ratio q a) b); [by left |].
      simplify_eq. right. exists 0. by rewrite Nat.add_0_r.
    + simplify_eq. right. exists 0. by rewrite Nat.add_0_r.
  - right. exists (1 + k). split; [lia | done].
Qed.

(** The result is one of the choices, at its position, with its score. *)
Lemma extractOne_pick q cs c sc j :
  extractOne q cs = Some (c, sc, j) ->
  cs !! j = Some c /\ sc = token_set_ratio q c.
Proof.
  intros [Hb | (k & -> & Hk & ->)]%extractOne_from_pick; [done | done].
Qed.



Lemma Qle_bool_lt (x y : Q) : (x < y)%Q -> Qle_bool y x = false.
Proof.
  intros Hlt. destruct (Qle_bool y x) eqn:E; [| done].
  apply Qle_bool_iff in E. by apply Qle_not_lt in E.
Qed.




End Matching.

(** *** The matching engine on the sample library *)


(** The example of the specification: the DOI [10.1/XYZ] of an item
    without title is found under [10.1/xyz], the key of record [ABC1]. *)
Lemma find_match_doi_witness :
  exists ci',
    @ZoteroDatabase.find_match sample_unicode sample_repr sample_scorer
      sample_library (cited [] None "" "10.1/XYZ" "") 80
    = Ok (ci', Some record_abc1) /\
    CitationItem.match_method ci' = "DOI" /\
    CitationItem.match_score ci' = inject_Z 100 /\
    same_but_score (cited [] None "" "10.1/XYZ" "") ci'.
Proof.
  apply (@find_match_doi sample_unicode sample_repr sample_scorer sample_library
           (cited [] None "" "10.1/XYZ" "") 80 "10.1/XYZ" record_abc1).
  - reflexivity.
  - discriminate.
  - vm_compute. reflexivity.
Defined.

Lemma find_match_isbn_witness :
  exists ci',
    @ZoteroDatabase.find_match sample_unicode sample_repr sample_scorer
      sample_library (cited [] None "" "" "ISBN 978 0 306 40615 7") 80
    = Ok (ci', Some record_abc1) /\
    CitationItem.match_method ci' = "ISBN" /\
    CitationItem.match_score ci' = inject_Z 100 /\
    same_but_score (cited [] None "" "" "ISBN 978 0 306 40615 7") ci'.
Proof.
  apply (proj1 (@find_match_isbn sample_unicode sample_repr sample_scorer sample_library
                  (cited [] None "" "" "ISBN 978 0 306 40615 7") 80)
           "ISBN 978 0 306 40615 7" record_abc1).
  - left. reflexivity.
  - reflexivity.
  - discriminate.
  - vm_compute. reflexivity.
Defined.

(** C2 as it is worded fails for an item without ISBN.  The ISBN field of
    record [REP2] holds no ISBN character, so [_load_items] files the record
    under the empty key; the empty ISBN of the item has that same normal
    form, yet [find_match] does not look it up and returns no record.  It
    fails too for an item whose DOI is a number: no key of the DOI index
    belongs to it, its ISBN is the one of record [ABC1], and [find_match]
    raises. *)
Lemma find_match_empty_isbn_counterexample :
  (@doi_miss sample_unicode sample_library (cited [] None "" "" "") /\
   CitationItem.isbn (cited [] None "" "" "") = PStr "" /\
   ZoteroDatabase.items_by_isbn sample_library !! isbn_clean "" = Some record_report /\
   @ZoteroDatabase.find_match sample_unicode sample_repr sample_scorer
     sample_library (cited [] None "" "" "") 80
   = Ok (cited [] None "" "" "", None)) /\
  (CitationItem.doi cited_numeric_doi_isbn = PInt 101 /\
   CitationItem.isbn cited_numeric_doi_isbn = PStr "978-0-306-40615-7" /\
   ZoteroDatabase.items_by_isbn sample_library !! isbn_clean "978-0-306-40615-7"
   = Some record_abc1 /\
   @ZoteroDatabase.find_match sample_unicode sample_repr sample_scorer
     sample_library cited_numeric_doi_isbn 80
   = Raise AttributeError).
Proof.
  split.
  - split; [left; reflexivity |].
    split; [reflexivity |].
    split; vm_compute; reflexivity.
  - split; [reflexivity |]. split; [reflexivity |].
    split; vm_compute; reflexivity.
Qed.

Lemma find_match_none_unchanged_witness :
  cited [] None "" "" "" = cited [] None "" "" "".
Proof.
  apply (@find_match_none_unchanged sample_unicode sample_repr sample_scorer sample_library
           (cited [] None "" "" "") (cited [] None "" "" "") 80 None).
  vm_compute. reflexivity.
Defined.



(** ** The orphan classifier *)

Lemma check_item_flag db item :
  check_item db item
  = CitationItem.set_is_orphaned (negb (key_in_library db item)) item.
Proof. unfold check_item. by destruct (key_in_library db item). Qed.

Lemma key_in_library_check db item :
  key_in_library db (check_item db item) = key_in_library db item.
Proof. rewrite check_item_flag. reflexivity. Qed.

Lemma check_item_idempotent db item :
  check_item db (check_item db item) = check_item db item.
Proof.
  rewrite (check_item_flag db (check_item db item)), key_in_library_check.
  rewrite check_item_flag. reflexivity.
Qed.

Lemma check_citation_idempotent db c :
  check_citation db (check_citation db c) = check_citation db c.
Proof.
  unfold check_citation. simpl. rewrite map_map.
  rewrite (map_ext _ (check_item db) (check_item_idempotent db)).
  reflexivity.
Qed.

Lemma key_in_library_false db item :
  key_not_empty item ->
  key_in_library db item = false <-> key_missing db item.
Proof.
  unfold key_not_empty, key_in_library, key_missing. intros Hne.
  destruct (CitationItem.item_key item) as [k |]; [| by split; [left |]].
  rewrite is_empty_false by congruence. simpl.
  rewrite bool_decide_eq_false, <- eq_None_not_Some. split.
  - intros Hk. right. eauto.
  - intros [? | (k' & ? & ?)]; congruence.
Qed.

(** C7.  For citations whose items have a key that is not the empty text
    (the parser produces no other), [check_orphaned_status] leaves every
    citation and every item in its place and changes flags only: the flag
    of an item is true iff the item has no key or its key is no key of
    [items_by_key], and the flag of a citation is true iff the flag of one
    of its items is.  Classifying the classified citations again changes
    nothing. *)
Theorem check_orphaned_status_flags (citations : list Citation.t)
    (db : ZoteroDatabase.t) :
  Forall (fun c => Forall key_not_empty (Citation.items c)) citations ->
  (forall i c, citations !! i = Some c ->
     exists c', check_orphaned_status citations db !! i = Some c' /\
       Citation.set_is_orphaned (Citation.is_orphaned c')
         (Citation.set_items (Citation.items c') c) = c' /\
       (forall j item, Citation.items c !! j = Some item ->
          exists item', Citation.items c' !! j = Some item' /\
            CitationItem.set_is_orphaned (CitationItem.is_orphaned item') item = item' /\
            (CitationItem.is_orphaned item' = true <-> key_missing db item)) /\
       length (Citation.items c') = length (Citation.items c) /\
       (Citation.is_orphaned c' = true <->
        exists item', item' ∈ Citation.items c' /\
                      CitationItem.is_orphaned item' = true)) /\
  check_orphaned_status (check_orphaned_status citations db) db
  = check_orphaned_status citations db.
Proof.
  intros Hkeys. split.
  - intros i c Hc. exists (check_citation db c).
    unfold check_orphaned_status. rewrite list_lookup_fmap, Hc.
    split; [done |]. split; [done |]. split; [| split].
    + intros j item Hitem. exists (check_item db item). simpl.
      rewrite list_lookup_fmap, Hitem. split; [done |].
      rewrite check_item_flag. simpl. split; [done |].
      rewrite negb_true_iff. apply key_in_library_false.
      pose proof (Forall_lookup_1 _ _ _ _ Hkeys Hc) as Hc'. simpl in Hc'.
      exact (Forall_lookup_1 _ _ _ _ Hc' Hitem).
    + simpl. apply length_map.
    + simpl. rewrite existsb_exists. split.
      * intros (x & Hx & Hflag). exists x. by rewrite list_elem_of_In.
      * intros (x & Hx & Hflag). exists x. by rewrite <- list_elem_of_In.
  - unfold check_orphaned_status. rewrite map_map.
    apply map_ext. intros c. apply check_citation_idempotent.
Qed.

(** ** The key pattern *)

Lemma strip_prefix_Some (p s r : string) : strip_prefix p s = Some r -> s = p +:+ r.
Proof.
  revert s. induction p as [| a p IH]; intros [| b s] Hs; simplify_eq/=; try done.
  destruct (Ascii.eqb_spec a b) as [-> |]; [| done].
  rewrite append_cons. f_equal. by apply IH.
Qed.

Lemma strip_prefix_append (p r : string) : strip_prefix p (p +:+ r) = Some r.
Proof.
  induction p as [| a p IH]; [by destruct r |].
  rewrite append_cons. simpl. by rewrite Ascii.eqb_refl.
Qed.

Lemma take_drop_while (p : ascii -> bool) (s : string) :
  take_while p s +:+ drop_while p s = s.
Proof.
  induction s as [| c s IH]; [done |]. simpl.
  destruct (p c); [| done]. by rewrite append_cons, IH.
Qed.

Lemma all_take_while (p : ascii -> bool) (s : string) :
  all_string p (take_while p s) = true.
Proof.
  induction s as [| c s IH]; [done |]. simpl.
  destruct (p c) eqn:E; [| done]. simpl. by rewrite E.
Qed.

Lemma at_dollar_cases (s : string) : at_dollar s = true -> s = "" \/ s = newline.
Proof.
  unfold at_dollar. intros [H | H]%orb_true_iff.
  - left. by apply is_empty_true.
  - right. by apply String.eqb_eq.
Qed.

(** Letters and digits followed by the end of the text, or by a line feed
    that ends it. *)
Lemma while_alnum_append (k tail : string) :
  all_string is_alnum k = true -> tail = "" \/ tail = newline ->
  take_while is_alnum (k +:+ tail) = k /\ drop_while is_alnum (k +:+ tail) = tail.
Proof.
  intros Hk Htail. induction k as [| c k IH].
  - destruct Htail as [-> | ->]; done.
  - rewrite append_cons. simpl in *. apply andb_true_iff in Hk as [Hc Hk].
    rewrite Hc. destruct (IH Hk) as [-> ->]. done.
Qed.

Lemma item_key_at_Some (s k : string) :
  item_key_at s = Some k <->
  k <> "" /\ all_string is_alnum k = true /\
  (s = "/items/" +:+ k \/ s = "/items/" +:+ k +:+ newline).
Proof.
  unfold item_key_at. split.
  - destruct (strip_prefix "/items/" s) as [r |] eqn:Hr; [| done].
    apply strip_prefix_Some in Hr as ->.
    destruct (is_empty (take_while is_alnum r)) eqn:Hk; [done |]. simpl.
    destruct (at_dollar (drop_while is_alnum r)) eqn:Hd; [| done].
    intros [= <-]. split; [by intros Hk'; rewrite Hk' in Hk |].
    split; [apply all_take_while |].
    rewrite <- (take_drop_while is_alnum r) at 1 3.
    apply at_dollar_cases in Hd as [-> | ->]; [left | right]; [| done].
    by rewrite append_nil_r.
  - intros (Hne & Hk & Hs).
    assert (Hs' : exists tail, (tail = "" \/ tail = newline) /\ s = "/items/" +:+ k +:+ tail).
    { destruct Hs as [-> | ->]; [exists "" | exists newline]; [| by eauto].
      split; [by left | by rewrite append_nil_r]. }
    destruct Hs' as (tail & Htail & ->).
    rewrite strip_prefix_append.
    destruct (while_alnum_append k tail Hk Htail) as [-> ->].
    rewrite (is_empty_false k Hne). simpl.
    destruct Htail as [-> | ->]; done.
Qed.

(** Behind a slash that is followed by something, a text is not made of
    letters and digits up to its end. *)
Lemma not_at_dollar_slash (x y : string) :
  y <> "" -> at_dollar (drop_while is_alnum (x +:+ String "/" y)) = false.
Proof.
  intros Hy. induction x as [| c x IH].
  - simpl. destruct y; done.
  - rewrite append_cons. simpl. destruct (is_alnum c); [done |].
    unfold at_dollar. simpl. destruct (x +:+ String "/" y) eqn:E.
    + destruct x; discriminate.
    + destruct (Ascii.eqb c _); done.
Qed.

Lemma append_split (a b r z : string) :
  a +:+ r = b +:+ z -> String.length a <= String.length b ->
  exists x, r = x +:+ z.
Proof.
  revert b. induction a as [| c a IH]; intros b Heq Hlen.
  - exists b. done.
  - destruct b as [| c' b]; [simpl in Hlen; lia |].
    rewrite !append_cons in Heq. simplify_eq. apply (IH b); [done |].
    simpl in Hlen. lia.
Qed.

(** The pattern does not match at a position in front of [/items/k]. *)
Lemma item_key_at_early (c : ascii) (pre k tail : string) :
  k <> "" ->
  item_key_at (String c pre +:+ "/items/" +:+ k +:+ tail) = None.
Proof.
  intros Hk. unfold item_key_at.
  destruct (strip_prefix "/items/" _) as [r |] eqn:Hr; [| done].
  apply strip_prefix_Some in Hr.
  replace (String c pre +:+ "/items/" +:+ k +:+ tail)
    with ((String c pre +:+ "/items") +:+ String "/" (k +:+ tail)) in Hr
    by (by rewrite append_assoc).
  symmetry in Hr. apply append_split in Hr as [x ->].
  - rewrite not_at_dollar_slash; [by rewrite andb_false_r |].
    destruct k; [done | discriminate].
  - rewrite length_append. simpl. lia.
Qed.

Lemma search_item_key_cons (c : ascii) (s : string) :
  search_item_key (String c s)
  = match item_key_at (String c s) with
    | Some k => Some k
    | None => search_item_key s
    end.
Proof. reflexivity. Qed.

(** What the key pattern of the source matches, and what it captures. *)
Lemma search_item_key_Some (uri k : string) :
  search_item_key uri = Some k <-> key_pattern uri k.
Proof.
  unfold key_pattern. split.
  - induction uri as [| c uri IH].
    + done.
    + rewrite search_item_key_cons.
      destruct (item_key_at (String c uri)) as [k' |] eqn:E.
      * intros [= ->]. apply item_key_at_Some in E as (? & ? & Hs).
        split; [done |]. split; [done |]. exists "". done.
      * intros (? & ? & pre & Hpre)%IH. split; [done |]. split; [done |].
        exists (String c pre). rewrite !append_cons.
        destruct Hpre as [-> | ->]; [by left | by right].
  - intros (Hne & Hk & pre & Hs).
    assert (Hs' : exists tail, (tail = "" \/ tail = newline) /\
                               uri = pre +:+ "/items/" +:+ k +:+ tail).
    { destruct Hs as [-> | ->]; [exists "" | exists newline]; [| by eauto].
      split; [by left | by rewrite append_nil_r]. }
    destruct Hs' as (tail & Htail & ->). clear Hs.
    induction pre as [| c pre IH].
    + change ("" +:+ "/items/" +:+ k +:+ tail) with ("/items/" +:+ k +:+ tail).
      assert (E : item_key_at ("/items/" +:+ k +:+ tail) = Some k).
      { apply item_key_at_Some. split; [done |]. split; [done |].
        destruct Htail as [-> | ->]; [left | right]; [| done].
        by rewrite append_nil_r. }
      rewrite append_cons, search_item_key_cons, <- append_cons. by rewrite E.
    + rewrite append_cons, search_item_key_cons, <- append_cons.
      by rewrite item_key_at_early.
Qed.

Lemma search_item_key_not_empty (uri : string) : search_item_key uri <> Some "".
Proof. intros (Hne & _)%search_item_key_Some. done. Qed.

(** ** The citation parser *)

Lemma mapR_Forall2 {A B} (f : A -> result B) (l : list A) (l' : list B) :
  mapR f l = Ok l' -> Forall2 (fun a b => f a = Ok b) l l'.
Proof.
  revert l'. induction l as [| a l IH]; simpl; intros l' Hl.
  - simplify_eq. constructor.
  - apply bind_Ok in Hl as (b & Hb & Hl).
    apply bind_Ok in Hl as (bs & Hbs & Hl). simplify_eq.
    constructor; [done | by apply IH].
Qed.

Lemma mapR_total {A B} (f : A -> result B) (l : list A) :
  Forall (fun a => exists b, f a = Ok b) l -> exists l', mapR f l = Ok l'.
Proof.
  induction 1 as [| a l [b Hb] _ [bs Hbs]]; simpl; [by eauto |].
  rewrite Hb. simpl. rewrite Hbs. simpl. eauto.
Qed.

(** The loop over the URIs stops at the first URI the pattern matches. *)
Lemma find_item_key_first (us : list pyval) (o : option string) :
  Citation.find_item_key us = Ok o ->
  match o with
  | Some k =>
      exists before u after,
        us = (map PStr before ++ PStr u :: after)%list /\
        search_item_key u = Some k /\
        Forall (fun u' => search_item_key u' = None) before
  | None =>
      exists all, us = map PStr all /\
                  Forall (fun u => search_item_key u = None) all
  end.
Proof.
  revert o. induction us as [| v us IH]; simpl; intros o Ho.
  - simplify_eq. exists []. done.
  - destruct v as [| | | | u | |]; try done.
    destruct (search_item_key u) as [k |] eqn:E.
    + simplify_eq. exists [], u, us. done.
    + apply IH in Ho. destruct o as [k |].
      * destruct Ho as (before & u' & after & -> & Hu' & Hbefore).
        exists (u :: before), u', after. split; [done |]. split; [done |].
        by constructor.
      * destruct Ho as (all & -> & Hall).
        exists (u :: all). split; [done |]. by constructor.
Qed.


Section Parser.
Context {Jd : JsonDecoder} {Rp : PyRepr}.

(** What [parse_item] reads and where it puts it. *)
Lemma parse_item_Ok (item_data : pyval) (ci : CitationItem.t) :
  Citation.parse_item item_data = Ok ci ->
  exists us item_metadata,
    CitationItem.item_data ci = item_data /\
    py_get item_data "uris" (PList []) = Ok (CitationItem.uris ci) /\
    py_iter (CitationItem.uris ci) = Ok us /\
    Citation.find_item_key us = Ok (CitationItem.item_key ci) /\
    py_get item_data "itemData" (PDict []) = Ok item_metadata /\
    Citation.item_year item_metadata = Ok (CitationItem.year ci).
Proof.
  unfold Citation.parse_item. intros Hp.
  apply bind_Ok in Hp as (uris & Huris & Hp).
  apply bind_Ok in Hp as (uri & Huri & Hp).
  apply bind_Ok in Hp as (us & Hus & Hp).
  apply bind_Ok in Hp as (item_key & Hkey & Hp).
  apply bind_Ok in Hp as (item_metadata & Hmd & Hp).
  apply bind_Ok in Hp as (title & Htitle & Hp).
  apply bind_Ok in Hp as (year & Hyear & Hp).
  apply bind_Ok in Hp as (authors & Hauthors & Hp).
  apply bind_Ok in Hp as (doi & Hdoi & Hp).
  apply bind_Ok in Hp as (isbn & Hisbn & Hp).
  simplify_eq/=. exists us, item_metadata. done.
Qed.

(** A citation is returned for a payload that the pattern found and
    [json.loads] decoded. *)
Lemma from_field_code_Some (field_code : string) (field_index : nat) (c : Citation.t) :
  Citation.from_field_code field_code field_index = Ok (Some c) ->
  exists json_str citation_data,
    search_csl_citation field_code = Some json_str /\
    json_loads json_str = Ok citation_data /\
    Citation.build field_code field_index citation_data = Ok (Some c).
Proof.
  unfold Citation.from_field_code, Citation.from_field_code_io.
  destruct (search_csl_citation field_code) as [json_str |]; [| done].
  destruct (json_loads json_str) as [citation_data | e] eqn:E; simpl.
  - eauto.
  - by destruct e.
Qed.

Lemma build_Some (field_code : string) (field_index : nat) (citation_data : pyval)
    (c : Citation.t) :
  Citation.build field_code field_index citation_data = Ok (Some c) ->
  exists cis entries,
    py_get citation_data "citationItems" (PList []) = Ok cis /\
    py_iter cis = Ok entries /\
    Forall2 (fun entry ci => Citation.parse_item entry = Ok ci)
      entries (Citation.items c) /\
    Citation.field_code c = field_code /\
    Citation.citation_data c = citation_data /\
    Citation.field_index c = field_index.
Proof.
  unfold Citation.build. intros Hc.
  apply bind_Ok in Hc as (cis & Hcis & Hc).
  apply bind_Ok in Hc as (l & Hl & Hc).
  apply bind_Ok in Hc as (items & Hitems & Hc). simplify_eq/=.
  exists cis, l. repeat (split; [done |]). split; [| done].
  by apply mapR_Forall2.
Qed.

(** The items of a parsed citation come out of [parse_item]. *)
Lemma from_field_code_items (field_code : string) (field_index : nat)
    (c : Citation.t) (ci : CitationItem.t) :
  Citation.from_field_code field_code field_index = Ok (Some c) ->
  ci ∈ Citation.items c ->
  exists item_data, Citation.parse_item item_data = Ok ci.
Proof.
  intros (json_str & citation_data & _ & _ & Hc)%from_field_code_Some Hci.
  apply build_Some in Hc as (cis & entries & _ & _ & Hitems & _).
  apply list_elem_of_lookup in Hci as [j Hj].
  destruct (Forall2_lookup_r _ _ _ _ _ Hitems Hj) as (item_data & _ & Hp).
  eauto.
Qed.

(** C5, amended.  The key of a parsed item is what the key pattern
    captures in the first of its URIs, in their order, that the pattern
    matches: the letters and digits behind [/items/] that reach the end of
    the URI or a line feed that ends the URI.  Without such a URI, and so
    without URIs, the item has no key. *)
Theorem item_key_first_match (field_code : string) (field_index : nat)
    (c : Citation.t) (ci : CitationItem.t) :
  Citation.from_field_code field_code field_index = Ok (Some c) ->
  ci ∈ Citation.items c ->
  exists us,
    py_iter (CitationItem.uris ci) = Ok us /\
    match CitationItem.item_key ci with
    | Some k =>
        exists before u after,
          us = (map PStr before ++ PStr u :: after)%list /\
          key_pattern u k /\
          forall u' k', u' ∈ before -> ~ key_pattern u' k'
    | None =>
        exists all, us = map PStr all /\
                    forall u k', u ∈ all -> ~ key_pattern u k'
    end.
Proof.
  intros Hc Hci.
  destruct (from_field_code_items _ _ _ _ Hc Hci) as [item_data Hp].
  apply parse_item_Ok in Hp as (us & _ & _ & _ & Hus & Hkey & _).
  exists us. split; [done |].
  apply find_item_key_first in Hkey.
  destruct (CitationItem.item_key ci) as [k |].
  - destruct Hkey as (before & u & after & -> & Hu & Hbefore).
    exists before, u, after. split; [done |].
    split; [by apply search_item_key_Some |].
    intros u' k' Hu' Hk'%search_item_key_Some.
    rewrite Forall_forall in Hbefore. rewrite (Hbefore u' Hu') in Hk'. done.
  - destruct Hkey as (all & -> & Hall).
    exists all. split; [done |].
    intros u k' Hu Hk'%search_item_key_Some.
    rewrite Forall_forall in Hall. rewrite (Hall u Hu) in Hk'. done.
Qed.

(** The key of a parsed item is never the empty text. *)
Lemma parse_item_key_not_empty (item_data : pyval) (ci : CitationItem.t) :
  Citation.parse_item item_data = Ok ci -> key_not_empty ci.
Proof.
  intros (us & _ & _ & _ & _ & Hkey & _)%parse_item_Ok Hempty.
  rewrite Hempty in Hkey. apply find_item_key_first in Hkey.
  destruct Hkey as (_ & u & _ & _ & Hu & _).
  by apply search_item_key_not_empty in Hu.
Qed.

Lemma from_field_code_keys (field_code : string) (field_index : nat) (c : Citation.t) :
  Citation.from_field_code field_code field_index = Ok (Some c) ->
  Forall key_not_empty (Citation.items c).
Proof.
  intros Hc. apply Forall_forall. intros ci Hci.
  destruct (from_field_code_items _ _ _ _ Hc Hci) as [item_data Hp].
  by apply parse_item_key_not_empty in Hp.
Qed.

Lemma string_of_int_not_empty (n : Z) : NilZero.string_of_int (Z.to_int n) <> "".
Proof. destruct (Z.to_int n) as [d | d]; destruct d; discriminate. Qed.

Lemma py_first_first_of (v x : pyval) : py_first v = Ok x <-> first_of v = Some x.
Proof.
  destruct v as [| | | | s | [| y l] |]; simpl; try (split; done).
  - destruct (chars s); simpl; split; congruence.
  - split; congruence.
Qed.

(** The first part of the first date, as [date_parts_year] reads it. *)
Lemma date_parts_year_Ok (item_metadata y : pyval) :
  Citation.date_parts_year item_metadata = Ok y ->
  exists md, item_metadata = PDict md /\
    match assoc "issued" md with
    | Some (PDict issued) =>
        match assoc "date-parts" issued with
        | Some date_parts => first_of date_parts ≫= first_of = Some y
        | None => y = PNone
        end
    | Some _ => False
    | None => y = PNone
    end.
Proof.
  unfold Citation.date_parts_year.
  destruct item_metadata as [| | | | | | md]; try done. simpl.
  intros Hy. exists md. split; [done |].
  destruct (assoc "issued" md) as [issued |]; simpl in Hy.
  - destruct issued as [| | | | | | issued]; try done. simpl in Hy.
    destruct (assoc "date-parts" issued) as [date_parts |]; simpl in Hy.
    + apply bind_Ok in Hy as (first_date & H1 & H2).
      apply py_first_first_of in H1, H2. rewrite H1. done.
    + congruence.
  - congruence.
Qed.

(** C9, amended.  The year of a parsed item.  With [y] the first part of
    the first date of [issued/date-parts] ([None] without the field), the
    year is the text of [y] when [y] is true and that text is not empty,
    so a non-empty text [y] itself and the decimal digits of a non-zero
    integer [y]; failing that it is the first four characters of the raw
    date when that is a text (all of it when it is shorter), whatever they
    are, the first four elements when it is a list, and empty when there
    is no raw date or an empty one. *)
Theorem item_year_derivation (field_code : string) (field_index : nat)
    (c : Citation.t) (ci : CitationItem.t) :
  Citation.from_field_code field_code field_index = Ok (Some c) ->
  ci ∈ Citation.items c ->
  exists md y d,
    py_get (CitationItem.item_data ci) "itemData" (PDict []) = Ok (PDict md) /\
    match assoc "issued" md with
    | Some (PDict issued) =>
        match assoc "date-parts" issued with
        | Some date_parts => first_of date_parts ≫= first_of = Some y
        | None => y = PNone
        end
    | Some _ => False
    | None => y = PNone
    end /\
    d = default PNone (assoc "date" md) /\
    let year_text := py_str (if truthy y then y else PStr "") in
    (year_text <> "" -> CitationItem.year ci = PStr year_text) /\
    (forall s, y = PStr s -> s <> "" -> CitationItem.year ci = PStr s) /\
    (forall n, y = PInt n -> n <> 0%Z ->
       CitationItem.year ci = PStr (NilZero.string_of_int (Z.to_int n))) /\
    (year_text = "" -> forall s, d = PStr s ->
       CitationItem.year ci = PStr (slice_to 4 s)) /\
    (year_text = "" -> forall l, d = PList l -> l <> [] ->
       CitationItem.year ci = PList (take 4 l)) /\
    (year_text = "" -> truthy d = false -> CitationItem.year ci = PStr "").
Proof.
  intros Hc Hci.
  destruct (from_field_code_items _ _ _ _ Hc Hci) as [item_data Hp].
  apply parse_item_Ok in Hp as (us & item_metadata & Hdata & _ & _ & _ & Hmd & Hyear).
  rewrite Hdata. unfold Citation.item_year in Hyear.
  apply bind_Ok in Hyear as (y & Hy & Hyear).
  destruct (date_parts_year_Ok _ _ Hy) as (md & -> & Hparts).
  exists md, y, (default PNone (assoc "date" md)).
  split; [done |]. split; [done |]. split; [done |].
  set (year_text := py_str (if truthy y then y else PStr "")) in *.
  simpl in Hyear.
  assert (Htext : year_text <> "" -> CitationItem.year ci = PStr year_text).
  { intros Hne. rewrite (is_empty_false _ Hne) in Hyear. simpl in Hyear. congruence. }
  split; [done |]. split; [| split; [| split; [| split]]].
  - intros s -> Hs. subst year_text. simpl in *.
    rewrite (is_empty_false s Hs) in *. simpl in *. by apply Htext.
  - intros n -> Hn. subst year_text. simpl in *.
    apply Z.eqb_neq in Hn. rewrite Hn in *. simpl in *.
    apply Htext, string_of_int_not_empty.
  - intros Hempty s Hs. rewrite Hempty in Hyear. simpl in Hyear.
    destruct (assoc "date" md) as [v |]; simpl in *; simplify_eq.
    simpl in Hyear. destruct (is_empty s) eqn:Es; simpl in Hyear; [| congruence].
    apply is_empty_true in Es as ->. change (slice_to 4 "") with "". congruence.
  - intros Hempty l Hl Hne. rewrite Hempty in Hyear. simpl in Hyear.
    destruct (assoc "date" md) as [v |]; simpl in *; simplify_eq.
    simpl in Hyear. destruct l; [done |]. simpl in *. congruence.
  - intros Hempty Hd. rewrite Hempty in Hyear. simpl in Hyear.
    rewrite Hd in Hyear. congruence.
Qed.

(** *** The payloads that parse *)








End Parser.

(** *** The parser on the sample payloads *)

Lemma sample_citation_parsed :
  @Citation.from_field_code sample_json_loads sample_repr (field_of payload_plain) 0
  = Ok (Some sample_citation).
Proof. vm_compute. reflexivity. Qed.

Lemma last_char_append (s t : string) : t <> "" -> last_char (s +:+ t) = last_char t.
Proof.
  intros Ht. induction s as [| c s IH]; [done |].
  rewrite append_cons. simpl. rewrite IH.
  destruct (s +:+ t) eqn:E; [| done].
  destruct s; [| discriminate]. by destruct t.
Qed.

Lemma last_char_all (p : ascii -> bool) (s : string) (c : ascii) :
  all_string p s = true -> last_char s = Some c -> p c = true.
Proof.
  induction s as [| a s IH]; [done |]. simpl.
  intros [Ha Hs]%andb_true_iff. destruct s; [by intros [= <-] | by apply IH].
Qed.

(** A text that ends with [/items/k] ends with a letter or a digit. *)
Lemma key_at_end_last (uri k : string) :
  key_at_end uri k -> exists c, last_char uri = Some c /\ is_alnum c = true.
Proof.
  intros (Hne & Hk & pre & ->).
  rewrite !last_char_append by (by destruct k).
  destruct (last_char k) as [c |] eqn:E.
  - exists c. split; [done |]. by apply (last_char_all is_alnum k).
  - destruct k as [| a k]; [done |]. clear -E. exfalso.
    revert a E. induction k as [| b k IH]; intros a E; [done |]. by apply (IH b).
Qed.

(** C5 as it is worded fails for a URI that ends with a line feed: no key
    stands at the end of the only URI of the item, and yet the item gets
    the key in front of the line feed. *)
Lemma item_key_newline_counterexample :
  exists c ci,
    @Citation.from_field_code sample_json_loads sample_repr
      (field_of payload_newline_uri) 0 = Ok (Some c) /\
    Citation.items c = [ci] /\
    CitationItem.uris ci = PList [PStr uri_with_newline] /\
    CitationItem.item_key ci = Some "ABCD" /\
    forall k, ~ key_at_end uri_with_newline k.
Proof.
  eexists _, _. split; [vm_compute; reflexivity |].
  split; [reflexivity |]. split; [reflexivity |]. split; [reflexivity |].
  intros k (c & Hc & Halnum)%key_at_end_last.
  vm_compute in Hc. injection Hc as <-. vm_compute in Halnum. discriminate.
Qed.

Lemma item_key_first_match_witness :
  exists us,
    py_iter (CitationItem.uris sample_item) = Ok us /\
    exists before u after,
      us = (map PStr before ++ PStr u :: after)%list /\
      key_pattern u "OLD1" /\
      forall u' k', u' ∈ before -> ~ key_pattern u' k'.
Proof.
  apply (@item_key_first_match sample_json_loads sample_repr
           (field_of payload_plain) 0 sample_citation sample_item).
  - vm_compute. reflexivity.
  - apply list_elem_of_here.
Defined.

(** C9 as it is worded fails for a raw date that does not start with the
    year: the item has no structured date, and its year is made of the
    first four characters of the raw date, which are not digits. *)
Lemma item_year_raw_date_counterexample :
  exists c ci item_metadata,
    @Citation.from_field_code sample_json_loads sample_repr
      (field_of payload_raw_date) 0 = Ok (Some c) /\
    Citation.items c = [ci] /\
    py_get (CitationItem.item_data ci) "itemData" (PDict []) = Ok item_metadata /\
    Citation.date_parts_year item_metadata = Ok PNone /\
    py_get item_metadata "date" PNone = Ok (PStr "March 2020") /\
    CitationItem.year ci = PStr "Marc" /\
    ~ leading_digits "March 2020" "Marc".
Proof.
  eexists _, _, _. split; [vm_compute; reflexivity |].
  split; [reflexivity |]. split; [reflexivity |]. split; [reflexivity |].
  split; [reflexivity |]. split; [reflexivity |].
  intros (_ & _ & Hdigits). vm_compute in Hdigits. done.
Qed.

Lemma item_year_derivation_witness :
  exists md y d,
    py_get (CitationItem.item_data sample_item) "itemData" (PDict []) = Ok (PDict md) /\
    match assoc "issued" md with
    | Some (PDict issued) =>
        match assoc "date-parts" issued with
        | Some date_parts => first_of date_parts ≫= first_of = Some y
        | None => y = PNone
        end
    | Some _ => False
    | None => y = PNone
    end /\
    d = default PNone (assoc "date" md) /\
    let year_text := @py_str sample_repr (if truthy y then y else PStr "") in
    (year_text <> "" -> CitationItem.year sample_item = PStr year_text) /\
    (forall s, y = PStr s -> s <> "" -> CitationItem.year sample_item = PStr s) /\
    (forall n, y = PInt n -> n <> 0%Z ->
       CitationItem.year sample_item = PStr (NilZero.string_of_int (Z.to_int n))) /\
    (year_text = "" -> forall s, d = PStr s ->
       CitationItem.year sample_item = PStr (slice_to 4 s)) /\
    (year_text = "" -> forall l, d = PList l -> l <> [] ->
       CitationItem.year sample_item = PList (take 4 l)) /\
    (year_text = "" -> truthy d = false -> CitationItem.year sample_item = PStr "").
Proof.
  apply (@item_year_derivation sample_json_loads sample_repr
           (field_of payload_plain) 0 sample_citation sample_item).
  - vm_compute. reflexivity.
  - apply list_elem_of_here.
Defined.



(** *** The classifier on the sample citation *)

Lemma check_orphaned_status_flags_witness :
  check_orphaned_status (check_orphaned_status [sample_citation] sample_library)
    sample_library
  = check_orphaned_status [sample_citation] sample_library.
Proof.
  apply (check_orphaned_status_flags [sample_citation] sample_library).
  repeat constructor. discriminate.
Defined.

(** ** The field-code loop *)

Section Extractor.
Context {Jd : JsonDecoder} {Rp : PyRepr}.

Lemma extract_loop_app (st : extractor) (l1 l2 : list element) :
  extract_loop st (l1 ++ l2) = st' ← extract_loop st l1; extract_loop st' l2.
Proof.
  revert st. induction l1 as [| elem l1 IH]; intros st; simpl; [done |].
  destruct (extract_step st elem) as [st' | e]; simpl; [apply IH | done].
Qed.

(** An element that does not end a field adds no citation. *)
Lemma extract_step_not_end (st : extractor) (elem : element) :
  is_fld_end elem = false ->
  exists st', extract_step st elem = Ok st' /\
              citations st' = citations st /\ field_index st' = field_index st.
Proof.
  unfold is_fld_end, extract_step. intros Hend.
  destruct (String.eqb (tag elem) (w_name "fldChar")); simpl in Hend.
  - destruct (bool_decide (_ = Some "begin")); [by eauto |].
    rewrite Hend. simpl. eauto.
  - destruct (in_field st && _); [| by eauto].
    destruct (nonempty (text elem)); eauto.
Qed.

Lemma extract_loop_no_end (st : extractor) (rest : list element) :
  Forall (fun elem => is_fld_end elem = false) rest ->
  exists st', extract_loop st rest = Ok st' /\
              citations st' = citations st /\ field_index st' = field_index st.
Proof.
  intros Hrest. revert st.
  induction Hrest as [| elem rest Helem _ IH]; intros st; simpl; [by eauto |].
  destruct (extract_step_not_end st elem Helem) as (st1 & -> & Hc & Hi). simpl.
  destruct (IH st1) as (st2 & -> & Hc2 & Hi2). exists st2. split; [done |].
  split; congruence.
Qed.

(** C6.  The loop tolerates fields that are not bracketed properly: the
    end of a field met outside a field leaves the state of the loop as it
    is, so nothing is emitted; the begin of a field empties the buffer,
    whatever had been collected; and behind the begin of a field that no
    end follows up to the end of the document, the loop finishes with the
    citations it had before that begin. *)
Theorem extractor_tolerant :
  (forall st elem,
     is_fld_end elem = true -> in_field st = false ->
     extract_step st elem = Ok st) /\
  (forall st elem,
     is_fld_begin elem = true ->
     extract_step st elem
     = Ok {| citations := citations st; field_index := field_index st;
             current_field := []; in_field := true |}) /\
  (forall before st elem rest,
     extract_loop extractor_init before = Ok st ->
     is_fld_begin elem = true ->
     Forall (fun elem' => is_fld_end elem' = false) rest ->
     extract_citations (before ++ elem :: rest) = Ok (citations st)).
Proof.
  assert (Hbegin : forall st elem,
     is_fld_begin elem = true ->
     extract_step st elem
     = Ok {| citations := citations st; field_index := field_index st;
             current_field := []; in_field := true |}).
  { intros st elem [Htag Hattr]%andb_true_iff. unfold extract_step.
    by rewrite Htag, Hattr. }
  split; [| split; [exact Hbegin |]].
  - intros st elem [Htag Hattr]%andb_true_iff Hout. unfold extract_step.
    rewrite Htag, Hattr, Hout. apply bool_decide_eq_true in Hattr as ->. done.
  - intros before st elem rest Hbefore Helem Hrest.
    unfold extract_citations. rewrite extract_loop_app, Hbefore. simpl.
    rewrite (Hbegin st elem Helem). simpl.
    destruct (extract_loop_no_end
                {| citations := citations st; field_index := field_index st;
                   current_field := []; in_field := true |} rest Hrest)
      as (st' & -> & Hc & _).
    simpl. by rewrite Hc.
Qed.

(** Every citation the loop collects comes out of [from_field_code]. *)
Lemma extract_step_citations (P : Citation.t -> Prop) (st st' : extractor)
    (elem : element) :
  (forall field_code field_index c,
     Citation.from_field_code field_code field_index = Ok (Some c) -> P c) ->
  extract_step st elem = Ok st' ->
  Forall P (citations st) -> Forall P (citations st').
Proof.
  intros HP. unfold extract_step, close_field. intros Hstep Hst.
  repeat (case_match; simplify_eq/=); try done.
  apply bind_Ok in Hstep as ([c |] & Hc & Hstep); simplify_eq/=; [| done].
  apply Forall_app. split; [done |]. constructor; [| done]. eauto.
Qed.

Lemma extract_citations_keys (elems : list element) (cs : list Citation.t) :
  extract_citations elems = Ok cs ->
  Forall (fun c => Forall key_not_empty (Citation.items c)) cs.
Proof.
  unfold extract_citations. intros (st & Hloop & Hcs)%bind_Ok. simplify_eq.
  assert (Hinv : forall st0,
            Forall (fun c => Forall key_not_empty (Citation.items c)) (citations st0) ->
            extract_loop st0 elems = Ok st ->
            Forall (fun c => Forall key_not_empty (Citation.items c)) (citations st)).
  { clear Hloop. induction elems as [| elem elems IH]; intros st0 H0 Hloop; simpl in *.
    - by simplify_eq.
    - apply bind_Ok in Hloop as (st1 & Hstep & Hloop).
      apply (IH st1); [| done].
      eapply extract_step_citations; [| exact Hstep | exact H0].
      intros field_code field_index c. apply from_field_code_keys. }
  apply (Hinv extractor_init); [constructor | done].
Qed.

End Extractor.

Lemma extractor_tolerant_witness :
  @extract_citations sample_json_loads sample_repr
    ([fld_begin; instr_text (field_of payload_plain); fld_end]
     ++ fld_begin :: [instr_text " ADDIN ZOTERO_ITEM CSL_CITATION {"])
  = Ok [sample_citation].
Proof.
  apply (proj2 (proj2 (@extractor_tolerant sample_json_loads sample_repr))
           [fld_begin; instr_text (field_of payload_plain); fld_end]
           {| citations := [sample_citation]; field_index := 1;
              current_field := []; in_field := false |}
           fld_begin [instr_text " ADDIN ZOTERO_ITEM CSL_CITATION {"]).
  - vm_compute. reflexivity.
  - reflexivity.
  - repeat constructor.
Defined.

(** ** The identifier rewriting *)

Lemma rewrites_refl (olds : list string) (s : string) : rewrites_only olds s s.
Proof. induction s; by constructor. Qed.

Lemma starts_with_Some (p s : string) :
  starts_with p s = true -> exists r, s = p +:+ r.
Proof.
  unfold starts_with. destruct (strip_prefix p s) as [r |] eqn:E; [| done].
  intros _. exists r. by apply strip_prefix_Some.
Qed.

Lemma starts_with_append (p r : string) : starts_with p (p +:+ r) = true.
Proof. unfold starts_with. by rewrite strip_prefix_append. Qed.

Lemma drop_string_append (p r : string) : drop_string (String.length p) (p +:+ r) = r.
Proof. induction p as [| c p IH]; [by destruct r |]. by rewrite append_cons. Qed.

Lemma replace_from_drop (old new : string) (k : nat) (s : string) :
  replace_from old new k s = replace_from old new 0 (drop_string k s).
Proof.
  revert k. induction s as [| c s IH]; intros [| k]; try done.
  simpl. apply IH.
Qed.

(** The text behind a replaced occurrence is rewritten from its start. *)
Lemma replace_from_occurrence (old new r : string) :
  old <> "" ->
  replace_from old new 0 (old +:+ r) = new +:+ replace_from old new 0 r.
Proof.
  intros Hold. destruct old as [| a old]; [done |].
  rewrite append_cons. cbn [replace_from].
  rewrite <- append_cons, starts_with_append.
  rewrite replace_from_drop. simpl. by rewrite Nat.sub_0_r, drop_string_append.
Qed.

Lemma replace_from_rewrites (old new : string) :
  old <> "" ->
  forall n s, String.length s <= n -> rewrites_only [old] s (replace_from old new 0 s).
Proof.
  intros Hold. induction n as [| n IH]; intros s Hlen.
  - destruct s; [constructor | simpl in Hlen; lia].
  - destruct s as [| c s]; [constructor |].
    destruct (starts_with old (String c s)) eqn:E.
    + destruct (starts_with_Some _ _ E) as [r Hr]. rewrite Hr.
      rewrite replace_from_occurrence by done.
      eapply rewrites_subst; [apply list_elem_of_here | | done | done].
      apply IH. apply (f_equal String.length) in Hr.
      rewrite length_append in Hr. simpl in *. destruct old; [done |]. simpl in Hr. lia.
    + cbn [replace_from]. rewrite E. constructor. apply IH. simpl in Hlen. lia.
Qed.

Lemma rewrites_keep_app (olds : list string) (k s t : string) :
  rewrites_only olds s t -> rewrites_only olds (k +:+ s) (k +:+ t).
Proof.
  intros Hst. induction k as [| c k IH]; [done |].
  rewrite !append_cons. by constructor.
Qed.

Lemma replace_empty_chars (new : string) (l : list string) :
  rewrites_only [""] (String.concat "" l)
    (new +:+ String.concat "" (map (fun ch => ch +:+ new) l)).
Proof.
  induction l as [| ch l IH].
  - eapply rewrites_subst;
      [apply list_elem_of_here | apply rewrites_nil | done | done].
  - cbn [map]. rewrite !concat_cons, append_assoc.
    eapply rewrites_subst; [apply list_elem_of_here | | done | done].
    by apply rewrites_keep_app.
Qed.

Lemma replace_empty_rewrites (new s : string) :
  rewrites_only [""] s (replace_empty new s).
Proof.
  unfold replace_empty. rewrite <- (concat_chars s) at 1. apply replace_empty_chars.
Qed.

(** [replace] keeps every character outside the occurrences of [old]. *)
Lemma replace_rewrites (old new s : string) : rewrites_only [old] s (replace old new s).
Proof.
  unfold replace. destruct old as [| a old].
  - apply replace_empty_rewrites.
  - by apply (replace_from_rewrites (String a old) new) with (n := String.length s).
Qed.

Lemma replace_uri_rewrites (content : string) (entry : string * string) :
  rewrites_only [fst entry] content (replace_uri content entry).
Proof.
  unfold replace_uri. destruct (occurs (fst entry) content).
  - apply replace_rewrites.
  - apply rewrites_refl.
Qed.

Lemma universal_newlines_no_cr (s : string) :
  no_cr s = true -> universal_newlines s = s.
Proof.
  unfold no_cr. induction s as [| c s IH]; [done |]. simpl.
  intros [Hc Hs]%andb_true_iff. apply negb_true_iff in Hc. rewrite Hc.
  by rewrite IH.
Qed.

Lemma write_text_lf (Pf : Platform) (s : string) :
  linesep = newline -> write_text s = s.
Proof.
  intros Hsep. induction s as [| c s IH]; [done |]. simpl.
  destruct (Ascii.eqb_spec c (ascii_of_nat 10)) as [-> | Hc].
  - by rewrite Hsep, IH.
  - by rewrite IH.
Qed.

(** C8, amended.  The rewriting goes through the entries of the mapping
    in their order; each round changes nothing but occurrences of its own
    old identifier in the text as the rounds before have left it, and
    keeps every other character.  With an empty mapping, and with a
    mapping none of whose old identifiers occurs in the text, the text
    stays as it is.  When no identifier is to be replaced, no document is
    written.  Otherwise the text is what the file gives when it is read as
    text, its line ends turned into line feeds, and what is written is the
    rewritten text with the line separator of the platform: the bytes of a
    file none of whose identifiers is replaced are those that were read
    when the file is UTF-8 without carriage return and the line separator
    is the line feed. *)
Theorem apply_replacements_frame (m : list (string * string)) (content raw : string) :
  rewrite_rounds (map fst m) content (apply_replacements m content) /\
  (Forall (fun entry => occurs (fst entry) content = false) m ->
   apply_replacements m content = content) /\
  (forall (Rp : PyRepr) (Pf : Platform) citations db,
     uri_replacements db [] citations = Ok [] ->
     update_docx_citations raw citations db = Ok None) /\
  (forall (Rp : PyRepr) (Pf : Platform) citations db,
     uri_replacements db [] citations = Ok m -> m <> [] ->
     update_docx_citations raw citations db
     = (text ← read_text raw; Ok (Some (write_text (apply_replacements m text)))) /\
     (valid_utf8 raw = true -> no_cr raw = true -> linesep = newline ->
      Forall (fun entry => occurs (fst entry) raw = false) m ->
      update_docx_citations raw citations db = Ok (Some raw))).
Proof.
  assert (Hnone : forall content',
            Forall (fun entry => occurs (fst entry) content' = false) m ->
            apply_replacements m content' = content').
  { intros content'. unfold apply_replacements.
    induction 1 as [| entry m' Hentry _ IH]; simpl; [done |].
    unfold replace_uri at 2. by rewrite Hentry. }
  split; [| split; [apply Hnone | split]].
  - clear Hnone. revert content. unfold apply_replacements.
    induction m as [| entry m IH]; intros content; simpl; [constructor |].
    econstructor; [apply replace_uri_rewrites | apply IH].
  - intros Rp Pf citations db Hm. unfold update_docx_citations. by rewrite Hm.
  - intros Rp Pf citations db Hm Hne.
    assert (Hupdate : update_docx_citations raw citations db
                      = (text ← read_text raw;
                         Ok (Some (write_text (apply_replacements m text))))).
    { unfold update_docx_citations. rewrite Hm. simpl. by destruct m. }
    split; [exact Hupdate |].
    intros Hvalid Hcr Hsep Hocc. rewrite Hupdate. unfold read_text.
    rewrite Hvalid, (universal_newlines_no_cr raw Hcr). simpl.
    by rewrite (Hnone raw Hocc), (write_text_lf Pf raw Hsep).
Qed.

Lemma apply_replacements_frame_witness :
  apply_replacements [("zotero://old/9", "http://zotero.org/users/7/items/ABC1")]
    markup_before = markup_before.
Proof.
  apply (proj1 (proj2 (apply_replacements_frame
                         [("zotero://old/9", "http://zotero.org/users/7/items/ABC1")]
                         markup_before markup_before))).
  repeat constructor.
Defined.

(** Where no old identifier starts, the character is kept. *)
Lemma rewrites_head (olds : list string) (c : ascii) (s t : string) :
  rewrites_only olds (String c s) t ->
  forallb (fun o => negb (starts_with o (String c s))) olds = true ->
  exists t', t = String c t' /\ rewrites_only olds s t'.
Proof.
  intros Hr Holds. inversion Hr as [| c' s' t' Hr' | o r s' t' s0 t0 Ho Hr' Hs Ht];
    simplify_eq; [by eauto |].
  rewrite forallb_forall in Holds. apply list_elem_of_In, Holds in Ho.
  rewrite Hs, starts_with_append in Ho. done.
Qed.

(** C8 as it is worded fails when the new identifier of one entry and the
    markup around it make up the old identifier of a later entry.  The
    second old identifier does not occur in the document, but it does once
    the first is replaced; the second round then takes away the character
    that closes the tag, which belongs to no occurrence of an old
    identifier in the document.  It fails too for a document with a line
    end of the form CR LF: no old identifier occurs in it, and what is
    written has a line feed in the place of the two bytes. *)
Lemma rewriting_frame_counterexample :
  (@uri_replacements sample_repr sample_library [] [rewritten_citation]
   = Ok [("zotero://old/1", "http://zotero.org/users/local/items/ABC1");
         (">http", "http://zotero.org/users/local/items/REP2")] /\
   @update_docx_citations sample_repr sample_platform markup_before
     [rewritten_citation] sample_library
   = Ok (Some markup_after) /\
   occurs ">http" markup_before = false /\
   ~ rewrites_only ["zotero://old/1"; ">http"] markup_before markup_after) /\
  (occurs "zotero://old/1" markup_crlf = false /\
   occurs ">http" markup_crlf = false /\
   @update_docx_citations sample_repr sample_platform markup_crlf
     [rewritten_citation] sample_library
   = Ok (Some ("<w:t>a" +:+ newline +:+ "b</w:t>")) /\
   "<w:t>a" +:+ newline +:+ "b</w:t>" <> markup_crlf).
Proof.
  split.
  - split; [vm_compute; reflexivity |]. split; [vm_compute; reflexivity |].
    split; [vm_compute; reflexivity |].
    unfold markup_before, markup_after. intros Hr.
    repeat (apply rewrites_head in Hr as (t' & Ht' & Hr); [| vm_compute; reflexivity];
            vm_compute in Ht'; simplify_eq).
  - split; [vm_compute; reflexivity |]. split; [vm_compute; reflexivity |].
    split; [vm_compute; reflexivity |]. vm_compute. discriminate.
Qed.

(** * Further properties *)

(** ** The normal forms of DOI and ISBN *)

Ltac by_cases_on_ascii c :=
  destruct c as [[] [] [] [] [] [] [] []]; reflexivity.

Lemma lower_char_idempotent (c : ascii) : lower_char (lower_char c) = lower_char c.
Proof. by_cases_on_ascii c. Qed.

Lemma lower_upper_char (c : ascii) : lower_char (upper_char c) = lower_char c.
Proof. by_cases_on_ascii c. Qed.

Lemma upper_char_idempotent (c : ascii) : upper_char (upper_char c) = upper_char c.
Proof. by_cases_on_ascii c. Qed.

Lemma upper_lower_char (c : ascii) : upper_char (lower_char c) = upper_char c.
Proof. by_cases_on_ascii c. Qed.

Lemma is_space_lower_char (c : ascii) : is_space (lower_char c) = is_space c.
Proof. by_cases_on_ascii c. Qed.

Lemma is_ascii_lower_char (c : ascii) : is_ascii (lower_char c) = is_ascii c.
Proof. by_cases_on_ascii c. Qed.

Lemma is_ascii_upper_char (c : ascii) : is_ascii (upper_char c) = is_ascii c.
Proof. by_cases_on_ascii c. Qed.

Lemma is_space_ascii (c : ascii) : is_space c = true -> is_ascii c = true.
Proof. destruct c as [[] [] [] [] [] [] [] []]; (reflexivity || discriminate). Qed.

Lemma is_ascii_cont (c : ascii) : is_ascii c = true -> is_cont c = false.
Proof. destruct c as [[] [] [] [] [] [] [] []]; (reflexivity || discriminate). Qed.

(** White space of ASCII is white space. *)
Lemma is_space_char_byte (c : ascii) : is_space_char (String c "") = is_space c.
Proof. by_cases_on_ascii c. Qed.

Lemma map_string_map_string (f g : ascii -> ascii) (s : string) :
  map_string f (map_string g s) = map_string (fun c => f (g c)) s.
Proof. induction s as [| c s IH]; simpl; [done | by rewrite IH]. Qed.

Lemma map_string_ext (f g : ascii -> ascii) (s : string) :
  (forall c, f c = g c) -> map_string f s = map_string g s.
Proof. intros Hfg. induction s as [| c s IH]; simpl; [done | by rewrite Hfg, IH]. Qed.

Lemma map_string_append (f : ascii -> ascii) (s t : string) :
  map_string f (s +:+ t) = map_string f s +:+ map_string f t.
Proof.
  induction s as [| c s IH]; [done |].
  rewrite append_cons. simpl. by rewrite IH, append_cons.
Qed.

Lemma all_string_map (p : ascii -> bool) (f : ascii -> ascii) (s : string) :
  (forall c, p (f c) = p c) -> all_string p (map_string f s) = all_string p s.
Proof. intros Hpf. induction s as [| c s IH]; simpl; [done | by rewrite Hpf, IH]. Qed.

Lemma all_string_app (p : ascii -> bool) (s t : string) :
  all_string p (s +:+ t) = all_string p s && all_string p t.
Proof. induction s as [| c s IH]; simpl; [done |]. by rewrite IH, andb_assoc. Qed.

Lemma all_string_impl (p q : ascii -> bool) (s : string) :
  (forall c, p c = true -> q c = true) -> all_string p s = true -> all_string q s = true.
Proof.
  intros Hpq. induction s as [| c s IH]; simpl; [done |].
  intros [Hc Hs]%andb_true_iff. by rewrite (Hpq c Hc), IH.
Qed.

Lemma all_string_concat (p : ascii -> bool) (l : list string) :
  all_string p (String.concat "" l) = true <->
  Forall (fun ch => all_string p ch = true) l.
Proof.
  induction l as [| ch l IH]; [by split; [constructor |] |].
  rewrite concat_cons, all_string_app, andb_true_iff, IH, Forall_cons. done.
Qed.

(** The characters of a text of ASCII characters are its bytes. *)
Lemma continues_ascii (s : string) : all_string is_ascii s = true -> continues s = false.
Proof.
  destruct s as [| c s]; [done |]. simpl. intros [Hc _]%andb_true_iff.
  by apply is_ascii_cont.
Qed.

Lemma chars_space (ws : string) :
  all_string is_space ws = true ->
  Forall (fun ch => is_space_char ch = true) (chars ws).
Proof.
  induction ws as [| c ws IH]; [constructor |]. simpl.
  intros [Hc Hws]%andb_true_iff.
  rewrite chars_cons_opens.
  - constructor; [by rewrite is_space_char_byte | by apply IH].
  - apply continues_ascii. revert Hws. apply all_string_impl, is_space_ascii.
Qed.

(** *** What [strip] takes away *)

Lemma dropwhile_app_keep {A} (p : A -> bool) (l1 l2 : list A) :
  dropwhile p l1 <> [] -> dropwhile p (l1 ++ l2) = (dropwhile p l1 ++ l2)%list.
Proof.
  induction l1 as [| a l1 IH]; simpl; [done |].
  destruct (p a); [exact IH | done].
Qed.

Lemma strip_chars_around (X W W' : list string) :
  Forall (fun ch => is_space_char ch = true) W ->
  Forall (fun ch => is_space_char ch = true) W' ->
  rev (dropwhile is_space_char (rev (dropwhile is_space_char (W ++ X ++ W'))))
  = rev (dropwhile is_space_char (rev (dropwhile is_space_char X))).
Proof.
  intros HW HW'. rewrite dropwhile_app by done.
  destruct (dropwhile is_space_char X) as [| x Y] eqn:E.
  - apply dropwhile_nil in E. rewrite dropwhile_app by done.
    apply dropwhile_nil in HW'. by rewrite HW'.
  - rewrite dropwhile_app_keep by (by rewrite E). rewrite E.
    rewrite rev_app_distr, dropwhile_app; [done |]. by apply Forall_rev.
Qed.

Lemma strip_idempotent (s : string) : strip (strip s) = strip s.
Proof.
  unfold strip at 1.
  assert (Hwf : wf_chars (rev (dropwhile is_space_char
                                 (rev (dropwhile is_space_char (chars s)))))).
  { pose proof (chars_wf s) as Hs.
    destruct (dropwhile_split is_space_char (chars s)) as (l1 & Hl & _).
    rewrite Hl in Hs. apply wf_chars_app in Hs as [_ Hs].
    destruct (dropwhile_split is_space_char
                (rev (dropwhile is_space_char (chars s)))) as (l2 & Hl2 & _).
    apply (f_equal (@rev string)) in Hl2.
    rewrite rev_involutive, rev_app_distr in Hl2.
    rewrite Hl2 in Hs. by apply wf_chars_app in Hs as [Hs _]. }
  unfold strip. rewrite chars_concat by done.
  set (Y := dropwhile is_space_char (rev (dropwhile is_space_char (chars s)))).
  f_equal.
  destruct (rev Y) as [| y Z] eqn:E; [done |].
  assert (Hy : is_space_char y = false).
  { pose proof (dropwhile_head is_space_char (chars s)) as Hhead.
    destruct (dropwhile_split is_space_char
                (rev (dropwhile is_space_char (chars s)))) as (l2 & Hl2 & _).
    fold Y in Hl2. apply (f_equal (@rev string)) in Hl2.
    rewrite rev_involutive, rev_app_distr, E in Hl2.
    rewrite Hl2 in Hhead. exact Hhead. }
  rewrite (dropwhile_fixed is_space_char (y :: Z)) by done. rewrite <- E.
  rewrite rev_involutive. subst Y.
  rewrite dropwhile_fixed; [done |]. apply dropwhile_head.
Qed.

(** The bytes of a stripped text are bytes of the text. *)
Lemma all_string_strip (p : ascii -> bool) (s : string) :
  all_string p s = true -> all_string p (strip s) = true.
Proof.
  intros Hs. rewrite <- (concat_chars s) in Hs. apply all_string_concat in Hs.
  unfold strip. apply all_string_concat.
  by apply Forall_rev, Forall_dropwhile, Forall_rev, Forall_dropwhile.
Qed.

Section Normal.
Context {Un : Unicode}.

(** X1.  For a DOI of ASCII characters, as DOIs are written, the normal
    form does not depend on the case of the letters nor on white space of
    ASCII around it, and normalising a normal form changes nothing: two
    such DOIs that differ in these respects only are filed, and looked up,
    under one key. *)
Theorem doi_clean_insensitive (d before after : string) :
  all_string is_ascii d = true ->
  all_string is_space before = true ->
  all_string is_space after = true ->
  doi_clean (before +:+ d +:+ after) = doi_clean d /\
  doi_clean (upper d) = doi_clean d /\
  doi_clean (lower d) = doi_clean d /\
  doi_clean (doi_clean d) = doi_clean d.
Proof.
  intros Hd Hbefore Hafter. unfold doi_clean.
  assert (Hb : all_string is_ascii before = true)
    by (revert Hbefore; apply all_string_impl, is_space_ascii).
  assert (Ha : all_string is_ascii after = true)
    by (revert Hafter; apply all_string_impl, is_space_ascii).
  assert (Hld : all_string is_ascii (lower d) = true)
    by (unfold lower; by rewrite (all_string_map _ _ _ is_ascii_lower_char)).
  rewrite (str_lower_ascii d Hd).
  split; [| split; [| split]].
  - rewrite str_lower_ascii by (by rewrite !all_string_app, Hb, Hd, Ha).
    unfold lower. rewrite !map_string_append. fold (lower before) (lower d) (lower after).
    assert (Hlb : all_string is_space (lower before) = true)
      by (unfold lower; by rewrite (all_string_map _ _ _ is_space_lower_char)).
    assert (Hla : all_string is_space (lower after) = true)
      by (unfold lower; by rewrite (all_string_map _ _ _ is_space_lower_char)).
    assert (Hca : continues (lower after) = false).
    { apply continues_ascii. revert Hla. apply all_string_impl, is_space_ascii. }
    unfold strip. rewrite !chars_app.
    + by rewrite strip_chars_around by (by apply chars_space).
    + done.
    + rewrite continues_append. destruct (is_empty (lower d)); [done |].
      by apply continues_ascii.
  - rewrite str_lower_ascii
      by (unfold upper; by rewrite (all_string_map _ _ _ is_ascii_upper_char)).
    unfold lower, upper. rewrite map_string_map_string.
    by rewrite (map_string_ext _ lower_char _ lower_upper_char).
  - rewrite str_lower_ascii by done.
    unfold lower. rewrite map_string_map_string.
    by rewrite (map_string_ext _ lower_char _ lower_char_idempotent).
  - rewrite str_lower_ascii by (by apply all_string_strip).
    assert (Hfixed : all_string (fun c => Ascii.eqb (lower_char c) c) (strip (lower d))
                     = true).
    { apply all_string_strip. unfold lower. clear.
      induction d as [| c d IH]; simpl; [done |].
      by rewrite lower_char_idempotent, Ascii.eqb_refl. }
    assert (Hlow : forall z, all_string (fun c => Ascii.eqb (lower_char c) c) z = true ->
                             lower z = z).
    { unfold lower. induction z as [| c z IH]; simpl; [done |].
      intros [Hc Hz]%andb_true_iff. apply Ascii.eqb_eq in Hc. by rewrite Hc, IH. }
    rewrite (Hlow _ Hfixed). apply strip_idempotent.
Qed.

End Normal.

Lemma doi_clean_insensitive_witness :
  @doi_clean sample_unicode ("  " +:+ "10.1000/Xyz" +:+ " ")
  = @doi_clean sample_unicode "10.1000/Xyz".
Proof.
  apply (@doi_clean_insensitive sample_unicode "10.1000/Xyz" "  " " "); reflexivity.
Defined.

Lemma is_isbn_char_upper (c : ascii) :
  is_isbn_char c = true -> upper_char c = c.
Proof. destruct c as [[] [] [] [] [] [] [] []]; (reflexivity || discriminate). Qed.

Lemma filter_string_all (p : ascii -> bool) (s : string) :
  all_string p (filter_string p s) = true.
Proof.
  induction s as [| c s IH]; simpl; [done |].
  destruct (p c) eqn:E; simpl; [by rewrite E | done].
Qed.

Lemma filter_string_fixed (p : ascii -> bool) (s : string) :
  all_string p s = true -> filter_string p s = s.
Proof.
  induction s as [| c s IH]; simpl; [done |].
  intros [-> Hs]%andb_true_iff. by rewrite IH.
Qed.

Lemma filter_string_append (p : ascii -> bool) (s t : string) :
  filter_string p (s +:+ t) = filter_string p s +:+ filter_string p t.
Proof.
  induction s as [| c s IH]; [done |]. rewrite append_cons. simpl.
  destruct (p c); [by rewrite IH, append_cons | done].
Qed.

Lemma upper_fixed (s : string) : all_string is_isbn_char s = true -> upper s = s.
Proof.
  unfold upper. induction s as [| c s IH]; simpl; [done |].
  intros [Hc Hs]%andb_true_iff. by rewrite (is_isbn_char_upper c Hc), IH.
Qed.

(** X2.  The normal form of an ISBN is made of digits and [X] only; a
    character that is neither a digit nor the letter x can be put in or
    left out anywhere without changing it, the case of the letters does not
    matter, and normalising a normal form changes nothing. *)
Theorem isbn_clean_insensitive (s t : string) (c : ascii) :
  is_isbn_char (upper_char c) = false ->
  all_string is_isbn_char (isbn_clean s) = true /\
  isbn_clean (s +:+ String c t) = isbn_clean (s +:+ t) /\
  isbn_clean (lower s) = isbn_clean s /\
  isbn_clean (isbn_clean s) = isbn_clean s.
Proof.
  intros Hc. unfold isbn_clean, sub_non_isbn. repeat split.
  - apply filter_string_all.
  - unfold upper. rewrite !map_string_append, !filter_string_append. simpl.
    by rewrite Hc.
  - unfold upper, lower. rewrite map_string_map_string.
    by rewrite (map_string_ext _ upper_char _ upper_lower_char).
  - rewrite (upper_fixed (filter_string _ _)) by apply filter_string_all.
    apply filter_string_fixed, filter_string_all.
Qed.

Lemma isbn_clean_insensitive_witness :
  isbn_clean ("978" +:+ String "-" "030640615x") = isbn_clean ("978" +:+ "030640615x").
Proof.
  apply (isbn_clean_insensitive "978" "030640615x" "-"). reflexivity.
Defined.

(** ** The three dicts of the index *)

Section Dicts.
Context {Un : Unicode}.

(** What [add_item] files under the DOI and under the ISBN of a record. *)
Lemma add_item_doi db item k :
  ZoteroDatabase.items_by_doi (ZoteroDatabase.add_item db item) !! k
  = match LibraryItem.doi item with
    | Some d =>
        if negb (is_empty d) && bool_decide (doi_clean d = k) then Some item
        else ZoteroDatabase.items_by_doi db !! k
    | None => ZoteroDatabase.items_by_doi db !! k
    end.
Proof.
  simpl. destruct (LibraryItem.doi item) as [d |]; [| done].
  destruct (is_empty d); simpl; [done |].
  rewrite lookup_insert. case_bool_decide; case_decide; done.
Qed.

Lemma add_item_isbn db item k :
  ZoteroDatabase.items_by_isbn (ZoteroDatabase.add_item db item) !! k
  = match LibraryItem.isbn item with
    | Some i =>
        if negb (is_empty i) && bool_decide (isbn_clean i = k) then Some item
        else ZoteroDatabase.items_by_isbn db !! k
    | None => ZoteroDatabase.items_by_isbn db !! k
    end.
Proof.
  simpl. destruct (LibraryItem.isbn item) as [i |]; [| done].
  destruct (is_empty i); simpl; [done |].
  rewrite lookup_insert. case_bool_decide; case_decide; done.
Qed.

Lemma add_item_key db item k :
  ZoteroDatabase.items_by_key (ZoteroDatabase.add_item db item) !! k
  = if bool_decide (LibraryItem.key item = k) then Some item
    else ZoteroDatabase.items_by_key db !! k.
Proof. simpl. rewrite lookup_insert. case_bool_decide; case_decide; done. Qed.

Lemma load_items_key_sound rows k item :
  ZoteroDatabase.items_by_key (ZoteroDatabase.load_items rows) !! k = Some item ->
  item ∈ rows /\ LibraryItem.key item = k.
Proof.
  induction rows as [| row rows IH] using rev_ind.
  - unfold ZoteroDatabase.load_items. simpl. by rewrite lookup_empty.
  - rewrite load_items_snoc, add_item_key. rewrite elem_of_app, list_elem_of_singleton.
    case_bool_decide; intros Hk; simplify_eq; [by auto |].
    destruct (IH Hk). auto.
Qed.

Lemma load_items_doi_sound rows k item :
  ZoteroDatabase.items_by_doi (ZoteroDatabase.load_items rows) !! k = Some item ->
  item ∈ rows /\
  exists d, LibraryItem.doi item = Some d /\ d <> "" /\ doi_clean d = k.
Proof.
  induction rows as [| row rows IH] using rev_ind.
  - unfold ZoteroDatabase.load_items. simpl. by rewrite lookup_empty.
  - rewrite load_items_snoc, add_item_doi. rewrite elem_of_app, list_elem_of_singleton.
    assert (Hold : ZoteroDatabase.items_by_doi (ZoteroDatabase.load_items rows) !! k
                   = Some item ->
                   (item ∈ rows \/ item = row) /\
                   exists d, LibraryItem.doi item = Some d /\ d <> "" /\ doi_clean d = k).
    { intros Hk. destruct (IH Hk). auto. }
    destruct (LibraryItem.doi row) as [d |] eqn:Ed; [| done].
    destruct (negb (is_empty d) && bool_decide (doi_clean d = k)) eqn:Ek; [| done].
    intros [= <-]. apply andb_true_iff in Ek as [Hd Hk].
    split; [by right |]. exists d. split; [done |].
    split; [by destruct d | by apply bool_decide_eq_true in Hk].
Qed.

Lemma load_items_isbn_sound rows k item :
  ZoteroDatabase.items_by_isbn (ZoteroDatabase.load_items rows) !! k = Some item ->
  item ∈ rows /\
  exists i, LibraryItem.isbn item = Some i /\ i <> "" /\ isbn_clean i = k.
Proof.
  induction rows as [| row rows IH] using rev_ind.
  - unfold ZoteroDatabase.load_items. simpl. by rewrite lookup_empty.
  - rewrite load_items_snoc, add_item_isbn. rewrite elem_of_app, list_elem_of_singleton.
    assert (Hold : ZoteroDatabase.items_by_isbn (ZoteroDatabase.load_items rows) !! k
                   = Some item ->
                   (item ∈ rows \/ item = row) /\
                   exists i, LibraryItem.isbn item = Some i /\ i <> "" /\ isbn_clean i = k).
    { intros Hk. destruct (IH Hk). auto. }
    destruct (LibraryItem.isbn row) as [i |] eqn:Ei; [| done].
    destruct (negb (is_empty i) && bool_decide (isbn_clean i = k)) eqn:Ek; [| done].
    intros [= <-]. apply andb_true_iff in Ek as [Hi Hk].
    split; [by right |]. exists i. split; [done |].
    split; [by destruct i | by apply bool_decide_eq_true in Hk].
Qed.

Lemma load_items_key_filed rows item :
  item ∈ rows ->
  is_Some (ZoteroDatabase.items_by_key (ZoteroDatabase.load_items rows)
             !! LibraryItem.key item).
Proof.
  induction rows as [| row rows IH] using rev_ind; [by intros ?%elem_of_nil |].
  rewrite load_items_snoc, add_item_key. case_bool_decide; [done |].
  intros [Hin | ->%list_elem_of_singleton]%elem_of_app; [by apply IH | done].
Qed.

Lemma load_items_doi_filed rows item d :
  item ∈ rows -> LibraryItem.doi item = Some d -> d <> "" ->
  is_Some (ZoteroDatabase.items_by_doi (ZoteroDatabase.load_items rows) !! doi_clean d).
Proof.
  intros Hin Hd Hne. revert Hin.
  induction rows as [| row rows IH] using rev_ind; [by intros ?%elem_of_nil |].
  rewrite load_items_snoc, add_item_doi.
  intros [Hin | ->%list_elem_of_singleton]%elem_of_app.
  - destruct (LibraryItem.doi row) as [d' |]; [| by apply IH].
    destruct (negb (is_empty d') && bool_decide (doi_clean d' = doi_clean d));
      [done | by apply IH].
  - rewrite Hd, (is_empty_false d Hne). simpl. by rewrite bool_decide_eq_true_2.
Qed.

Lemma load_items_isbn_filed rows item i :
  item ∈ rows -> LibraryItem.isbn item = Some i -> i <> "" ->
  is_Some (ZoteroDatabase.items_by_isbn (ZoteroDatabase.load_items rows) !! isbn_clean i).
Proof.
  intros Hin Hi Hne. revert Hin.
  induction rows as [| row rows IH] using rev_ind; [by intros ?%elem_of_nil |].
  rewrite load_items_snoc, add_item_isbn.
  intros [Hin | ->%list_elem_of_singleton]%elem_of_app.
  - destruct (LibraryItem.isbn row) as [i' |]; [| by apply IH].
    destruct (negb (is_empty i') && bool_decide (isbn_clean i' = isbn_clean i));
      [done | by apply IH].
  - rewrite Hi, (is_empty_false i Hne). simpl. by rewrite bool_decide_eq_true_2.
Qed.

(** X3.  The index built from the rows holds the rows in their order, and
    each of its dicts leads to rows only: a record filed under a key has
    that key, a record filed under a DOI or an ISBN has a non-empty DOI or
    ISBN of that normal form.  Every key of a row, and every non-empty DOI
    and ISBN in its normal form, is a key of its dict. *)
Theorem load_items_sound (rows : list LibraryItem.t) :
  ZoteroDatabase.items (ZoteroDatabase.load_items rows) = rows /\
  (forall k item,
     ZoteroDatabase.items_by_key (ZoteroDatabase.load_items rows) !! k = Some item ->
     item ∈ rows /\ LibraryItem.key item = k) /\
  (forall k item,
     ZoteroDatabase.items_by_doi (ZoteroDatabase.load_items rows) !! k = Some item ->
     item ∈ rows /\
     exists d, LibraryItem.doi item = Some d /\ d <> "" /\ doi_clean d = k) /\
  (forall k item,
     ZoteroDatabase.items_by_isbn (ZoteroDatabase.load_items rows) !! k = Some item ->
     item ∈ rows /\
     exists i, LibraryItem.isbn item = Some i /\ i <> "" /\ isbn_clean i = k) /\
  (forall item, item ∈ rows ->
     is_Some (ZoteroDatabase.items_by_key (ZoteroDatabase.load_items rows)
                !! LibraryItem.key item) /\
     (forall d, LibraryItem.doi item = Some d -> d <> "" ->
        is_Some (ZoteroDatabase.items_by_doi (ZoteroDatabase.load_items rows)
                   !! doi_clean d)) /\
     (forall i, LibraryItem.isbn item = Some i -> i <> "" ->
        is_Some (ZoteroDatabase.items_by_isbn (ZoteroDatabase.load_items rows)
                   !! isbn_clean i))).
Proof.
  split; [apply load_items_items |].
  split; [apply load_items_key_sound |].
  split; [apply load_items_doi_sound |].
  split; [apply load_items_isbn_sound |].
  intros item Hin. split; [by apply load_items_key_filed |].
  split; [intros d; by apply load_items_doi_filed | intros i; by apply load_items_isbn_filed].
Qed.

Lemma add_item_doi_other db row k :
  ~ doi_filed_as k row ->
  ZoteroDatabase.items_by_doi (ZoteroDatabase.add_item db row) !! k
  = ZoteroDatabase.items_by_doi db !! k.
Proof.
  intros Hrow. rewrite add_item_doi.
  destruct (LibraryItem.doi row) as [d |] eqn:Ed; [| done].
  destruct (negb (is_empty d) && bool_decide (doi_clean d = k)) eqn:Ek; [| done].
  apply andb_true_iff in Ek as [Hd Hk]. destruct Hrow. exists d.
  split; [done |]. split; [by destruct d | by apply bool_decide_eq_true in Hk].
Qed.

Lemma add_item_isbn_other db row k :
  ~ isbn_filed_as k row ->
  ZoteroDatabase.items_by_isbn (ZoteroDatabase.add_item db row) !! k
  = ZoteroDatabase.items_by_isbn db !! k.
Proof.
  intros Hrow. rewrite add_item_isbn.
  destruct (LibraryItem.isbn row) as [i |] eqn:Ei; [| done].
  destruct (negb (is_empty i) && bool_decide (isbn_clean i = k)) eqn:Ek; [| done].
  apply andb_true_iff in Ek as [Hi Hk]. destruct Hrow. exists i.
  split; [done |]. split; [by destruct i | by apply bool_decide_eq_true in Hk].
Qed.

Lemma load_items_doi_last before item after k :
  doi_filed_as k item ->
  Forall (fun item' => ~ doi_filed_as k item') after ->
  ZoteroDatabase.items_by_doi (ZoteroDatabase.load_items (before ++ item :: after)) !! k
  = Some item.
Proof.
  intros (d & Hd & Hne & Hk).
  induction after as [| row after IH] using rev_ind; intros Hafter.
  - rewrite load_items_snoc, add_item_doi, Hd, (is_empty_false d Hne). simpl.
    by rewrite bool_decide_eq_true_2.
  - apply Forall_app in Hafter as [Hafter Hrow%Forall_inv].
    rewrite app_comm_cons, app_assoc, load_items_snoc.
    rewrite add_item_doi_other by done. by apply IH.
Qed.

Lemma load_items_isbn_last before item after k :
  isbn_filed_as k item ->
  Forall (fun item' => ~ isbn_filed_as k item') after ->
  ZoteroDatabase.items_by_isbn (ZoteroDatabase.load_items (before ++ item :: after)) !! k
  = Some item.
Proof.
  intros (i & Hi & Hne & Hk).
  induction after as [| row after IH] using rev_ind; intros Hafter.
  - rewrite load_items_snoc, add_item_isbn, Hi, (is_empty_false i Hne). simpl.
    by rewrite bool_decide_eq_true_2.
  - apply Forall_app in Hafter as [Hafter Hrow%Forall_inv].
    rewrite app_comm_cons, app_assoc, load_items_snoc.
    rewrite add_item_isbn_other by done. by apply IH.
Qed.

Lemma load_items_key_last before item after :
  Forall (fun item' => LibraryItem.key item' <> LibraryItem.key item) after ->
  ZoteroDatabase.items_by_key (ZoteroDatabase.load_items (before ++ item :: after))
    !! LibraryItem.key item = Some item.
Proof.
  induction after as [| row after IH] using rev_ind; intros Hafter.
  - rewrite load_items_snoc, add_item_key. by rewrite bool_decide_eq_true_2.
  - apply Forall_app in Hafter as [Hafter Hrow%Forall_inv].
    rewrite app_comm_cons, app_assoc, load_items_snoc, add_item_key.
    rewrite bool_decide_eq_false_2 by done. by apply IH.
Qed.

(** X4.  Of several rows with the same key, the same normal form of the
    DOI or the same normal form of the ISBN, the dict keeps the last: a
    row is what its dict returns for its identifier as soon as no later
    row has that identifier. *)
Theorem load_items_last_wins (before after : list LibraryItem.t)
    (item : LibraryItem.t) (k : string) :
  (Forall (fun item' => LibraryItem.key item' <> LibraryItem.key item) after ->
   ZoteroDatabase.items_by_key (ZoteroDatabase.load_items (before ++ item :: after))
     !! LibraryItem.key item = Some item) /\
  (doi_filed_as k item ->
   Forall (fun item' => ~ doi_filed_as k item') after ->
   ZoteroDatabase.items_by_doi (ZoteroDatabase.load_items (before ++ item :: after)) !! k
   = Some item) /\
  (isbn_filed_as k item ->
   Forall (fun item' => ~ isbn_filed_as k item') after ->
   ZoteroDatabase.items_by_isbn (ZoteroDatabase.load_items (before ++ item :: after)) !! k
   = Some item).
Proof.
  split; [apply load_items_key_last |].
  split; [apply load_items_doi_last | apply load_items_isbn_last].
Qed.

End Dicts.

Lemma load_items_last_wins_witness :
  ZoteroDatabase.items_by_doi
    (@ZoteroDatabase.load_items sample_unicode
       ([record_report] ++ record_abc1 :: [record_report]))
    !! "10.1/xyz" = Some record_abc1.
Proof.
  apply (proj1 (proj2 (@load_items_last_wins sample_unicode [record_report]
                         [record_report] record_abc1 "10.1/xyz"))).
  - exists "10.1/xyz". repeat split; [discriminate].
  - repeat constructor. intros (d & Hd & _). discriminate.
Defined.

Section LoadedLibrary.
Context {Un : Unicode} {Rp : PyRepr} {Sc : Scorer}.

(** X5.  Loading and matching fit together.  A cited item whose DOI has
    the normal form of the DOI of a row, the last row with it, is matched
    to that row with the method [DOI] and the score 100; and when the DOI
    stage finds nothing, the same holds for the ISBN with the method
    [ISBN], whatever separates its digits.  Nothing else of the item
    changes. *)
Theorem find_match_loaded (before after : list LibraryItem.t) (item : LibraryItem.t)
    (ci : CitationItem.t) (threshold : Z) (x : string) :
  x <> "" ->
  (CitationItem.doi ci = PStr x ->
   doi_filed_as (doi_clean x) item ->
   Forall (fun item' => ~ doi_filed_as (doi_clean x) item') after ->
   exists ci',
     ZoteroDatabase.find_match (ZoteroDatabase.load_items (before ++ item :: after))
       ci threshold
     = Ok (ci', Some item) /\
     CitationItem.match_method ci' = "DOI" /\
     CitationItem.match_score ci' = inject_Z 100 /\
     same_but_score ci ci') /\
  (doi_miss (ZoteroDatabase.load_items (before ++ item :: after)) ci ->
   CitationItem.isbn ci = PStr x ->
   isbn_filed_as (isbn_clean x) item ->
   Forall (fun item' => ~ isbn_filed_as (isbn_clean x) item') after ->
   exists ci',
     ZoteroDatabase.find_match (ZoteroDatabase.load_items (before ++ item :: after))
       ci threshold
     = Ok (ci', Some item) /\
     CitationItem.match_method ci' = "ISBN" /\
     CitationItem.match_score ci' = inject_Z 100 /\
     same_but_score ci ci').
Proof.
  intros Hx. split.
  - intros Hdoi Hitem Hafter.
    exists (CitationItem.set_match "DOI" (inject_Z 100) ci). split.
    + unfold ZoteroDatabase.find_match, ZoteroDatabase.text_if_true.
      rewrite Hdoi. simpl. rewrite (is_empty_false x Hx). simpl.
      by rewrite (load_items_doi_last before item after _ Hitem Hafter).
    + split; [reflexivity |]. split; [reflexivity |]. apply set_match_same.
  - intros Hmiss Hisbn Hitem Hafter.
    exists (CitationItem.set_match "ISBN" (inject_Z 100) ci). split.
    + destruct (doi_miss_lookup _ ci Hmiss) as (o & Ho & Hnone).
      unfold ZoteroDatabase.find_match. rewrite Ho. simpl. rewrite Hnone.
      unfold ZoteroDatabase.text_if_true. rewrite Hisbn. simpl.
      rewrite (is_empty_false x Hx). simpl.
      by rewrite (load_items_isbn_last before item after _ Hitem Hafter).
    + split; [reflexivity |]. split; [reflexivity |]. apply set_match_same.
Qed.

End LoadedLibrary.

Lemma find_match_loaded_witness :
  exists ci',
    @ZoteroDatabase.find_match sample_unicode sample_repr sample_scorer
      (@ZoteroDatabase.load_items sample_unicode ([] ++ record_abc1 :: [record_report]))
      (cited [] None "" " 10.1/XYZ" "") 80
    = Ok (ci', Some record_abc1) /\
    CitationItem.match_method ci' = "DOI" /\
    CitationItem.match_score ci' = inject_Z 100 /\
    same_but_score (cited [] None "" " 10.1/XYZ" "") ci'.
Proof.
  apply (proj1 (@find_match_loaded sample_unicode sample_repr sample_scorer []
                  [record_report] record_abc1 (cited [] None "" " 10.1/XYZ" "") 80
                  " 10.1/XYZ" ltac:(discriminate))).
  - reflexivity.
  - exists "10.1/xyz". repeat split; [discriminate].
  - repeat constructor. intros (d & Hd & _). discriminate.
Defined.

(** ** The records made from the rows *)

Section Records.
Context {Un : Unicode}.

Lemma is_decimal_char_char (ch : string) :
  is_decimal_char ch = true ->
  is_char ch = true /\ opens ch = true /\ is_space_char ch = false.
Proof.
  unfold is_decimal_char, is_space_char.
  destruct (utf8_code ch) as [n |] eqn:E; [| done]. intros Hn.
  destruct (utf8_code_char ch n E). split; [done |]. split; [done |].
  by apply decimal_not_space.
Qed.

Lemma four_digits_at_Some (l : list string) (y : string) :
  four_digits_at l = Some y ->
  exists ys post,
    l = (ys ++ post)%list /\ length ys = 4 /\
    Forall (fun ch => is_decimal_char ch = true) ys /\
    y = String.concat "" ys.
Proof.
  unfold four_digits_at.
  destruct (length (take 4 l) =? 4) eqn:El; [| done].
  destruct (forallb is_decimal_char (take 4 l)) eqn:Ed; [| done].
  intros [= <-]. exists (take 4 l), (drop 4 l).
  split; [by rewrite take_drop |]. split; [by apply Nat.eqb_eq |].
  split; [| done]. apply Forall_forall. intros ch Hch.
  rewrite forallb_forall in Ed. apply Ed. by apply list_elem_of_In.
Qed.

Lemma search_digits_cons (ch : string) (l : list string) :
  search_digits (ch :: l)
  = match four_digits_at (ch :: l) with
    | Some y => Some y
    | None => search_digits l
    end.
Proof. reflexivity. Qed.

(** The run that is found is the first one of the text. *)
Lemma search_digits_Some (l : list string) (y : string) :
  search_digits l = Some y ->
  exists pre ys post,
    l = (pre ++ ys ++ post)%list /\ length ys = 4 /\
    Forall (fun ch => is_decimal_char ch = true) ys /\
    y = String.concat "" ys /\
    forall p1 p2, pre = (p1 ++ p2)%list -> p2 <> [] ->
                  four_digits_at (p2 ++ ys ++ post)%list = None.
Proof.
  induction l as [| ch l IH].
  - done.
  - rewrite search_digits_cons.
    destruct (four_digits_at (ch :: l)) as [y' |] eqn:E.
    + intros [= ->]. apply four_digits_at_Some in E as (ys & post & Hl & Hlen & Hd & Hy).
      exists [], ys, post. repeat (split; [done |]).
      intros [| a p1] [| b p2] Hp Hne; done.
    + intros (pre & ys & post & -> & Hlen & Hd & Hy & Hfirst)%IH.
      exists (ch :: pre), ys, post. repeat (split; [done |]).
      intros [| a p1] p2 Hp Hne.
      * simpl in Hp. subst p2. exact E.
      * simpl in Hp. simplify_eq. by apply (Hfirst p1).
Qed.

Lemma search_digits_None (l : list string) :
  search_digits l = None ->
  forall pre post, l = (pre ++ post)%list -> four_digits_at post = None.
Proof.
  induction l as [| ch l IH]; intros Hl pre post Heq.
  - symmetry in Heq. apply app_eq_nil in Heq as [_ ->]. done.
  - rewrite search_digits_cons in Hl.
    destruct (four_digits_at (ch :: l)) eqn:E; [done |].
    destruct pre as [| a pre].
    + simpl in Heq. by subst post.
    + simpl in Heq. simplify_eq. by apply (IH Hl pre).
Qed.

Lemma make_item_Ok (row : Row.t) (item : LibraryItem.t) :
  make_item row = Ok item ->
  exists names,
    family_names (LibraryItem.authors item) = Ok names /\
    LibraryItem.authors item
    = map (fun c => (Row.firstName c, Row.lastName c))
          (filter (fun c => is_author_or_editor c = true) (Row.creators row)) /\
    LibraryItem.year item
    = (if nonempty (Row.date row)
       then search_four_digits (default "" (Row.date row)) else None) /\
    LibraryItem.search_string item
    = format_optional (Row.title row) +:+ " " +:+ names +:+ " "
      +:+ format_optional (LibraryItem.year item) /\
    LibraryItem.key item = Row.key row /\
    LibraryItem.title item = Row.title row /\
    LibraryItem.date item = Row.date row /\
    LibraryItem.doi item = Row.doi row /\
    LibraryItem.isbn item = Row.isbn row.
Proof.
  unfold make_item. intros (names & Hnames & Hitem)%bind_Ok.
  simplify_eq/=. exists names. done.
Qed.

(** X6.  The year of a record is the first run of four decimal digits of
    its date: four characters that are decimal digits and follow one
    another in the date, with no four decimal digits starting in front of
    them.  A record without date, and one whose date holds no four decimal
    digits in a row, has no year. *)
Theorem make_item_year (row : Row.t) (item : LibraryItem.t) :
  make_item row = Ok item ->
  match LibraryItem.year item with
  | Some y =>
      exists d pre ys post,
        Row.date row = Some d /\ chars d = (pre ++ ys ++ post)%list /\
        length ys = 4 /\
        Forall (fun ch => is_decimal_char ch = true) ys /\
        y = String.concat "" ys /\
        forall p1 p2, pre = (p1 ++ p2)%list -> p2 <> [] ->
                      four_digits_at (p2 ++ ys ++ post)%list = None
  | None =>
      forall d pre post, Row.date row = Some d -> chars d = (pre ++ post)%list ->
                         four_digits_at post = None
  end.
Proof.
  intros (names & _ & _ & Hyear & _)%make_item_Ok. rewrite Hyear.
  destruct (Row.date row) as [d |]; simpl; [| done].
  destruct (is_empty d) eqn:Ed; simpl.
  - apply is_empty_true in Ed as ->.
    intros d pre post [= <-] Heq. change (chars "") with (@nil string) in Heq.
    symmetry in Heq. apply app_eq_nil in Heq as [_ ->]. done.
  - unfold search_four_digits. destruct (search_digits (chars d)) as [y |] eqn:Ey.
    + apply search_digits_Some in Ey as (pre & ys & post & Hs & Hl & Hd & Hy & Hfirst).
      exists d, pre, ys, post. done.
    + intros d' pre post [= <-]. by apply search_digits_None.
Qed.

End Records.

Lemma make_item_year_witness :
  match LibraryItem.year record_abc1 with
  | Some y =>
      exists d pre ys post,
        Some "2020-05-01" = Some d /\ chars d = (pre ++ ys ++ post)%list /\
        length ys = 4 /\
        Forall (fun ch => @is_decimal_char sample_unicode ch = true) ys /\
        y = String.concat "" ys /\
        forall p1 p2, pre = (p1 ++ p2)%list -> p2 <> [] ->
                      @four_digits_at sample_unicode (p2 ++ ys ++ post)%list = None
  | None =>
      forall d pre post, Some "2020-05-01" = Some d -> chars d = (pre ++ post)%list ->
                         @four_digits_at sample_unicode post = None
  end.
Proof.
  apply (@make_item_year sample_unicode
           {| Row.itemID := 1; Row.key := "ABC1"; Row.libraryID := 1;
              Row.itemType := "book"; Row.title := Some "On Matching";
              Row.date := Some "2020-05-01"; Row.doi := Some "10.1/xyz";
              Row.isbn := Some "978-0-306-40615-7";
              Row.creators :=
                [{| Row.firstName := Some "Jo"; Row.lastName := Some "Smith";
                    Row.creatorType := "author" |}] |} record_abc1).
  reflexivity.
Defined.

Lemma family_names_total (authors : list (option string * option string)) :
  (exists names, family_names authors = Ok names) <->
  Forall (fun a => snd a <> None) authors.
Proof.
  unfold family_names. split.
  - intros (names & (l & Hl & _)%bind_Ok). apply mapR_Forall2 in Hl.
    clear names. induction Hl as [| a b authors l Ha _ IH]; constructor; [| done].
    by destruct (snd a).
  - intros Hall.
    destruct (mapR_total (fun a => match snd a with
                                   | Some family => Ok family
                                   | None => Raise TypeError
                                   end) authors) as [l Hl].
    + eapply Forall_impl; [exact Hall |]. intros a Ha. simpl in *.
      destruct (snd a) eqn:E; [eauto | congruence].
    + rewrite Hl. simpl. eauto.
Qed.

Lemma mapR_raises_only {A B} (f : A -> result B) (l : list A) (e0 e : exn) :
  (forall a e', f a = Raise e' -> e' = e0) -> mapR f l = Raise e -> e = e0.
Proof.
  intros Hf. induction l as [| a l IH]; simpl; [done |].
  destruct (f a) as [b |] eqn:Ea; simpl.
  - destruct (mapR f l); simpl; [done |]. intros [= <-]. by apply IH.
  - intros [= <-]. by apply (Hf a).
Qed.

Section Outcome.
Context {Un : Unicode}.

(** The year as the search string shows it is not blank, and opens a
    character. *)
Lemma format_year_not_blank (date : option string) :
  strip (format_optional (if nonempty date
                          then search_four_digits (default "" date) else None)) <> "" /\
  continues (format_optional (if nonempty date
                              then search_four_digits (default "" date) else None))
  = false.
Proof.
  assert (Hnone : strip "None" <> "" /\ continues "None" = false)
    by (split; [vm_compute; discriminate | reflexivity]).
  destruct (nonempty date); [| done]. unfold search_four_digits.
  destruct (search_digits (chars (default "" date))) as [y |] eqn:E; [| done].
  apply search_digits_Some in E as (_ & ys & _ & _ & Hlen & Hd & -> & _).
  destruct ys as [| y0 ys]; [done |]. apply Forall_cons in Hd as [Hy0 Hd].
  apply is_decimal_char_char in Hy0 as (Hchar & Hopens & Hspace).
  assert (Hchars : Forall (fun ch => is_char ch = true) ys).
  { eapply Forall_impl; [exact Hd |]. intros ch Hch.
    by apply is_decimal_char_char in Hch as [? _]. }
  assert (Hrest : continues (String.concat "" ys) = false).
  { apply continues_concat; [done |]. destruct ys as [| y1 ys]; [done |].
    apply Forall_inv in Hd. by apply is_decimal_char_char in Hd as (_ & ? & _). }
  change (format_optional (Some (String.concat "" (y0 :: ys))))
    with (String.concat "" (y0 :: ys)). split.
  - rewrite strip_empty, concat_cons, chars_char_app by done.
    intros Hall%Forall_inv. congruence.
  - apply continues_concat; [by constructor | done].
Qed.

(** X7.  A record is made from a row exactly when every author and every
    editor of the row has a last name; a last name that is NULL raises
    [TypeError].  The record keeps the authors and editors, in their order,
    and no other creator; and its search string is never blank, since it
    ends with the year or, without year, with the word [None]. *)
Theorem make_item_outcome (row : Row.t) :
  (Forall (fun c => is_author_or_editor c = true -> Row.lastName c <> None)
          (Row.creators row) ->
   exists item,
     make_item row = Ok item /\
     LibraryItem.authors item
     = map (fun c => (Row.firstName c, Row.lastName c))
           (filter (fun c => is_author_or_editor c = true) (Row.creators row)) /\
     strip (LibraryItem.search_string item) <> "") /\
  (~ Forall (fun c => is_author_or_editor c = true -> Row.lastName c <> None)
            (Row.creators row) ->
   make_item row = Raise TypeError).
Proof.
  set (authors := map (fun c => (Row.firstName c, Row.lastName c))
                    (filter (fun c => is_author_or_editor c = true) (Row.creators row))).
  assert (Hiff : Forall (fun a => snd a <> None) authors <->
                 Forall (fun c => is_author_or_editor c = true -> Row.lastName c <> None)
                        (Row.creators row)).
  { subst authors. rewrite Forall_fmap. rewrite !Forall_forall. split.
    - intros Hall c Hc Htype. apply (Hall c). by apply list_elem_of_filter.
    - intros Hall c [Htype Hc]%list_elem_of_filter. by apply Hall. }
  split.
  - intros Hall. apply Hiff, family_names_total in Hall as [names Hnames].
    unfold make_item. fold authors. rewrite Hnames. simpl.
    eexists. split; [done |]. split; [done |]. simpl.
    destruct (format_year_not_blank (Row.date row)) as [Hblank Hopens].
    rewrite <- !append_assoc. by apply strip_app_not_empty_r.
  - intros Hnot. unfold make_item. fold authors.
    destruct (family_names authors) as [names | e] eqn:E.
    + destruct Hnot. apply Hiff, family_names_total. eauto.
    + simpl. f_equal. unfold family_names in E.
      destruct (mapR _ authors) as [l | e'] eqn:El; simpl in E; [done |].
      simplify_eq. eapply mapR_raises_only; [| exact El].
      intros a e'. simpl. destruct (snd a); congruence.
Qed.

End Outcome.

Lemma make_item_outcome_witness :
  exists item,
    @make_item sample_unicode
      {| Row.itemID := 2; Row.key := "REP2"; Row.libraryID := 1;
         Row.itemType := "report"; Row.title := None; Row.date := None;
         Row.doi := None; Row.isbn := None;
         Row.creators :=
           [{| Row.firstName := Some "Al"; Row.lastName := Some "Jones";
               Row.creatorType := "author" |};
            {| Row.firstName := None; Row.lastName := None;
               Row.creatorType := "translator" |}] |} = Ok item /\
    LibraryItem.authors item = [(Some "Al", Some "Jones")] /\
    strip (LibraryItem.search_string item) <> "".
Proof.
  apply (proj1 (@make_item_outcome sample_unicode
           {| Row.itemID := 2; Row.key := "REP2"; Row.libraryID := 1;
              Row.itemType := "report"; Row.title := None; Row.date := None;
              Row.doi := None; Row.isbn := None;
              Row.creators :=
                [{| Row.firstName := Some "Al"; Row.lastName := Some "Jones";
                    Row.creatorType := "author" |};
                 {| Row.firstName := None; Row.lastName := None;
                    Row.creatorType := "translator" |}] |})).
  repeat constructor; simpl; discriminate.
Defined.

(** ** The stages of the matching engine *)

Section Stages.
Context {Un : Unicode} {Rp : PyRepr} {Sc : Scorer}.

Lemma accepted_Some bound r score i :
  ZoteroDatabase.accepted bound r = Some (score, i) ->
  (bound <= score)%Q /\ exists c, r = Some (c, score, i).
Proof.
  destruct r as [[[c score'] i'] |]; simpl; [| done].
  destruct (Qle_bool bound score') eqn:E; [| done].
  intros [= <- <-]. split; [by apply Qle_bool_iff | eauto].
Qed.

Lemma accepted_None bound r :
  (forall c score i, r = Some (c, score, i) -> (score < bound)%Q) ->
  ZoteroDatabase.accepted bound r = None.
Proof.
  destruct r as [[[c score] i] |]; simpl; [| done].
  intros Hlt. by rewrite (Qle_bool_lt _ _ (Hlt _ _ _ eq_refl)).
Qed.

(** The record of a position of the composite choices. *)
Lemma record_of_composite db i item :
  ZoteroDatabase.record_of db
    (map (fun row => (LibraryItem.search_string row, LibraryItem.key row))
         (ZoteroDatabase.items db)) i = Ok item ->
  exists row, ZoteroDatabase.items db !! i = Some row /\
              ZoteroDatabase.items_by_key db !! LibraryItem.key row = Some item.
Proof.
  unfold ZoteroDatabase.record_of. rewrite list_lookup_fmap.
  destruct (ZoteroDatabase.items db !! i) as [row |]; simpl; [| done].
  destruct (ZoteroDatabase.items_by_key db !! LibraryItem.key row) eqn:E; [| done].
  intros [= <-]. eauto.
Qed.

Lemma record_of_title db i item :
  ZoteroDatabase.record_of db (ZoteroDatabase.title_choices db) i = Ok item ->
  exists row, ZoteroDatabase.titled_items db !! i = Some row /\
              ZoteroDatabase.items_by_key db !! LibraryItem.key row = Some item.
Proof.
  unfold ZoteroDatabase.record_of, ZoteroDatabase.title_choices.
  rewrite list_lookup_fmap.
  destruct (ZoteroDatabase.titled_items db !! i) as [row |]; simpl; [| done].
  destruct (ZoteroDatabase.items_by_key db !! LibraryItem.key row) eqn:E; [| done].
  intros [= <-]. eauto.
Qed.

Lemma find_match_after_identifiers db ci threshold :
  doi_miss db ci -> isbn_miss db ci ->
  ZoteroDatabase.find_match db ci threshold
  = ZoteroDatabase.find_fuzzy_match db ci threshold.
Proof.
  intros Hdoi Hisbn.
  destruct (doi_miss_lookup db ci Hdoi) as (o1 & Ho1 & Hn1).
  destruct (isbn_miss_lookup db ci Hisbn) as (o2 & Ho2 & Hn2).
  unfold ZoteroDatabase.find_match. rewrite Ho1. simpl. rewrite Hn1.
  rewrite Ho2. simpl. by rewrite Hn2.
Qed.

Lemma find_fuzzy_match_scored db ci threshold s :
  CitationItem.search_string ci = Ok s ->
  strip s <> "" ->
  ZoteroDatabase.items db <> [] ->
  ZoteroDatabase.find_fuzzy_match db ci threshold
  = match ZoteroDatabase.accepted (inject_Z threshold)
            (extractOne s (map LibraryItem.search_string (ZoteroDatabase.items db))) with
    | Some (score, i) =>
        item ← ZoteroDatabase.record_of db
                 (map (fun row => (LibraryItem.search_string row, LibraryItem.key row))
                      (ZoteroDatabase.items db)) i;
        Ok (CitationItem.set_match "fuzzy" score ci, Some item)
    | None => ZoteroDatabase.find_title_match db ci
    end.
Proof.
  intros Hs Hblank Hitems. unfold ZoteroDatabase.find_fuzzy_match.
  rewrite Hs. simpl. rewrite (is_empty_false _ Hblank).
  destruct (ZoteroDatabase.items db) as [| row rows]; [done |].
  simpl. by rewrite map_map.
Qed.


(** X9.  The ways to no match.  After the DOI and ISBN stages have found
    nothing, [find_match] returns no record and leaves the item as it is
    when the search string is blank, when the library is empty, and when
    the best composite score is below the threshold and the title is empty
    or its best score is below 90. *)
Theorem find_match_no_match (db : ZoteroDatabase.t) (ci : CitationItem.t)
    (threshold : Z) (s : string) :
  doi_miss db ci ->
  isbn_miss db ci ->
  CitationItem.search_string ci = Ok s ->
  (strip s = "" -> ZoteroDatabase.find_match db ci threshold = Ok (ci, None)) /\
  (ZoteroDatabase.items db = [] ->
   ZoteroDatabase.find_match db ci threshold = Ok (ci, None)) /\
  ((forall c score i,
      extractOne s (map LibraryItem.search_string (ZoteroDatabase.items db))
      = Some (c, score, i) -> (score < inject_Z threshold)%Q) ->
   truthy (CitationItem.title ci) = false \/
   (exists t, CitationItem.title ci = PStr t /\
      forall c score i,
        extractOne t (map fst (ZoteroDatabase.title_choices db)) = Some (c, score, i) ->
        (score < inject_Z 90)%Q) ->
   ZoteroDatabase.find_match db ci threshold = Ok (ci, None)).
Proof.
  intros Hdoi Hisbn Hs.
  rewrite find_match_after_identifiers by done.
  split; [| split].
  - intros Hblank. unfold ZoteroDatabase.find_fuzzy_match.
    rewrite Hs. simpl. by rewrite Hblank.
  - intros Hnil. unfold ZoteroDatabase.find_fuzzy_match.
    rewrite Hs, Hnil. simpl. by destruct (is_empty (strip s)).
  - intros Hfuzzy Htitle.
    destruct (is_empty (strip s)) eqn:Hblank.
    { unfold ZoteroDatabase.find_fuzzy_match. rewrite Hs. simpl. by rewrite Hblank. }
    destruct (ZoteroDatabase.items db) as [| row rows] eqn:Hitems.
    { unfold ZoteroDatabase.find_fuzzy_match. rewrite Hs, Hitems. simpl.
      by rewrite Hblank. }
    rewrite (find_fuzzy_match_scored db ci threshold s Hs)
      by (by rewrite ?Hitems; try (intros Hb; rewrite Hb in Hblank)).
    rewrite Hitems, (accepted_None _ _ Hfuzzy).
    unfold ZoteroDatabase.find_title_match.
    destruct Htitle as [-> | (t & -> & Htitle)]; [done |].
    destruct (truthy (PStr t)); [| done]. simpl.
    by rewrite (accepted_None _ _ Htitle).
Qed.

(** The stage that has found the record that [find_match] returns. *)
Lemma find_match_stage (db : ZoteroDatabase.t) (ci ci' : CitationItem.t)
    (threshold : Z) (item : LibraryItem.t) :
  ZoteroDatabase.find_match db ci threshold = Ok (ci', Some item) ->
  (exists d, CitationItem.doi ci = PStr d /\ d <> "" /\
     ZoteroDatabase.items_by_doi db !! doi_clean d = Some item /\
     ci' = CitationItem.set_match "DOI" (inject_Z 100) ci) \/
  (exists i, CitationItem.isbn ci = PStr i /\ i <> "" /\
     ZoteroDatabase.items_by_isbn db !! isbn_clean i = Some item /\
     ci' = CitationItem.set_match "ISBN" (inject_Z 100) ci) \/
  (exists s score row,
     CitationItem.search_string ci = Ok s /\
     row ∈ ZoteroDatabase.items db /\
     score = token_set_ratio s (LibraryItem.search_string row) /\
     (inject_Z threshold <= score)%Q /\
     ZoteroDatabase.items_by_key db !! LibraryItem.key row = Some item /\
     ci' = CitationItem.set_match "fuzzy" score ci) \/
  (exists t c score row,
     CitationItem.title ci = PStr t /\
     row ∈ ZoteroDatabase.items db /\
     LibraryItem.title row = Some c /\
     score = token_set_ratio t c /\
     (inject_Z 90 <= score)%Q /\
     ZoteroDatabase.items_by_key db !! LibraryItem.key row = Some item /\
     ci' = CitationItem.set_match "title_only" score ci).
Proof.
  unfold ZoteroDatabase.find_match.
  intros (o1 & Ho1 & Hf)%bind_Ok.
  destruct (o1 ≫= _) as [item1 |] eqn:E1.
  { left. simplify_eq. unfold ZoteroDatabase.text_if_true in Ho1.
    destruct o1 as [d |]; [| done]. simpl in E1.
    destruct (truthy (CitationItem.doi ci)) eqn:Ht; [| done].
    destruct (CitationItem.doi ci) as [| | | | d' | |]; try done. simplify_eq.
    exists d. split; [done |]. split; [by destruct d | done]. }
  apply bind_Ok in Hf as (o2 & Ho2 & Hf).
  destruct (o2 ≫= _) as [item2 |] eqn:E2.
  { right. left. simplify_eq. unfold ZoteroDatabase.text_if_true in Ho2.
    destruct o2 as [i |]; [| done]. simpl in E2.
    destruct (truthy (CitationItem.isbn ci)) eqn:Ht; [| done].
    destruct (CitationItem.isbn ci) as [| | | | i' | |]; try done. simplify_eq.
    exists i. split; [done |]. split; [by destruct i | done]. }
  right. right.
  assert (Hs : exists s, CitationItem.search_string ci = Ok s /\ strip s <> "" /\
                         ZoteroDatabase.items db <> []).
  { unfold ZoteroDatabase.find_fuzzy_match in Hf.
    apply bind_Ok in Hf as (s & Hs & Hf). exists s. split; [done |].
    destruct (is_empty (strip s)) eqn:Hblank; [done |].
    split; [by intros Hb; rewrite Hb in Hblank |].
    intros Hnil. by rewrite Hnil in Hf. }
  destruct Hs as (s & Hs & Hblank & Hitems).
  rewrite (find_fuzzy_match_scored db ci threshold s Hs Hblank Hitems) in Hf.
  destruct (ZoteroDatabase.accepted (inject_Z threshold) _) as [[score i] |] eqn:Ea.
  - left. apply accepted_Some in Ea as (Hscore & c & Hbest).
    apply bind_Ok in Hf as (item' & Hrec & Hf). simplify_eq.
    apply record_of_composite in Hrec as (row & Hrow & Hkey).
    apply extractOne_pick in Hbest as [Hi ->].
    rewrite list_lookup_fmap, Hrow in Hi. simpl in Hi. simplify_eq.
    exists s, (token_set_ratio s (LibraryItem.search_string row)), row. split; [done |].
    split; [apply list_elem_of_lookup; eauto |]. done.
  - right. unfold ZoteroDatabase.find_title_match in Hf.
    destruct (truthy (CitationItem.title ci)); [| done].
    apply bind_Ok in Hf as (t & Ht & Hf).
    destruct (CitationItem.title ci) as [| | | | t' | |]; try done. simplify_eq/=.
    destruct (ZoteroDatabase.accepted (inject_Z 90) _) as [[score i] |] eqn:Eb; [| done].
    apply accepted_Some in Eb as (Hscore & c & Hbest).
    apply bind_Ok in Hf as (item' & Hrec & Hf). simplify_eq.
    apply record_of_title in Hrec as (row & Hrow & Hkey).
    apply extractOne_pick in Hbest as [Hi ->].
    unfold ZoteroDatabase.title_choices in Hi.
    rewrite map_map, list_lookup_fmap, Hrow in Hi. simpl in Hi. simplify_eq.
    assert (Hin : row ∈ ZoteroDatabase.titled_items db)
      by (apply list_elem_of_lookup; eauto).
    apply list_elem_of_filter in Hin as [Htitle Hin].
    destruct (LibraryItem.title row) as [c |] eqn:Ec; [| done].
    exists t, c, (token_set_ratio t c), row. done.
Qed.

(** X10.  What a match is worth.  A record that [find_match] returns is a
    value of one of the dicts of the index, and the item, otherwise as it
    was, bears the stage that found it: the method [DOI] or [ISBN] with the
    score 100 for the record filed under the normal form of its DOI or
    ISBN, the method [fuzzy] with a score that reaches the threshold, or
    the method [title_only] with a score of 90 or more, for the record
    filed under the key of the scored row. *)
Theorem find_match_sound (db : ZoteroDatabase.t) (ci ci' : CitationItem.t)
    (threshold : Z) (item : LibraryItem.t) :
  ZoteroDatabase.find_match db ci threshold = Ok (ci', Some item) ->
  same_but_score ci ci' /\
  ((exists d, CitationItem.doi ci = PStr d /\ d <> "" /\
      ZoteroDatabase.items_by_doi db !! doi_clean d = Some item /\
      CitationItem.match_method ci' = "DOI" /\
      CitationItem.match_score ci' = inject_Z 100) \/
   (exists i, CitationItem.isbn ci = PStr i /\ i <> "" /\
      ZoteroDatabase.items_by_isbn db !! isbn_clean i = Some item /\
      CitationItem.match_method ci' = "ISBN" /\
      CitationItem.match_score ci' = inject_Z 100) \/
   (exists s score row,
      CitationItem.search_string ci = Ok s /\
      row ∈ ZoteroDatabase.items db /\
      score = token_set_ratio s (LibraryItem.search_string row) /\
      (inject_Z threshold <= score)%Q /\
      ZoteroDatabase.items_by_key db !! LibraryItem.key row = Some item /\
      CitationItem.match_method ci' = "fuzzy" /\
      CitationItem.match_score ci' = score) \/
   (exists t c score row,
      CitationItem.title ci = PStr t /\
      row ∈ ZoteroDatabase.items db /\
      LibraryItem.title row = Some c /\
      score = token_set_ratio t c /\
      (inject_Z 90 <= score)%Q /\
      ZoteroDatabase.items_by_key db !! LibraryItem.key row = Some item /\
      CitationItem.match_method ci' = "title_only" /\
      CitationItem.match_score ci' = score)).
Proof.
  intros Hfound. apply find_match_stage in Hfound.
  destruct Hfound as [(d & Hd & Hne & Hin & ->) |
                      [(i & Hi & Hne & Hin & ->) |
                       [(s & score & row & Hs & Hrow & Hsc & Hle & Hin & ->) |
                        (t & c & score & row & Ht & Hrow & Hc & Hsc & Hle & Hin & ->)]]].
  - split; [apply set_match_same |]. left. by exists d.
  - split; [apply set_match_same |]. right. left. by exists i.
  - split; [apply set_match_same |]. right. right. left. by exists s, score, row.
  - split; [apply set_match_same |]. right. right. right. by exists t, c, score, row.
Qed.

(** X11.  A DOI or an ISBN that is true and no text makes [find_match]
    raise [AttributeError]: the DOI at once, the ISBN when the DOI stage
    has found nothing.  Such a value is what the parser stores for a
    number in the payload. *)
Theorem find_match_attribute_error (db : ZoteroDatabase.t) (ci : CitationItem.t)
    (threshold : Z) :
  (truthy (CitationItem.doi ci) = true -> is_str (CitationItem.doi ci) = false ->
   ZoteroDatabase.find_match db ci threshold = Raise AttributeError) /\
  (doi_miss db ci ->
   truthy (CitationItem.isbn ci) = true -> is_str (CitationItem.isbn ci) = false ->
   ZoteroDatabase.find_match db ci threshold = Raise AttributeError).
Proof.
  split.
  - intros Htrue Hstr. unfold ZoteroDatabase.find_match, ZoteroDatabase.text_if_true.
    rewrite Htrue. by destruct (CitationItem.doi ci).
  - intros Hdoi Htrue Hstr.
    destruct (doi_miss_lookup db ci Hdoi) as (o1 & Ho1 & Hn1).
    unfold ZoteroDatabase.find_match. rewrite Ho1. simpl. rewrite Hn1.
    unfold ZoteroDatabase.text_if_true. rewrite Htrue.
    by destruct (CitationItem.isbn ci).
Qed.

End Stages.


Lemma find_match_no_match_witness :
  @ZoteroDatabase.find_match sample_unicode sample_repr sample_scorer
    sample_library (cited [] None "  " "" "") 80
  = Ok (cited [] None "  " "" "", None).
Proof.
  apply (proj1 (@find_match_no_match sample_unicode sample_repr sample_scorer
                  sample_library
                  (cited [] None "  " "" "") 80 "  "
                  ltac:(left; reflexivity) ltac:(left; reflexivity)
                  ltac:(vm_compute; reflexivity))).
  vm_compute. reflexivity.
Defined.

Lemma find_match_sound_witness :
  same_but_score (cited [] None "" "10.1/XYZ" "")
    (CitationItem.set_match "DOI" (inject_Z 100) (cited [] None "" "10.1/XYZ" "")) /\
  ((exists d, CitationItem.doi (cited [] None "" "10.1/XYZ" "") = PStr d /\ d <> "" /\
      ZoteroDatabase.items_by_doi sample_library !! @doi_clean sample_unicode d
      = Some record_abc1 /\
      CitationItem.match_method
        (CitationItem.set_match "DOI" (inject_Z 100) (cited [] None "" "10.1/XYZ" ""))
      = "DOI" /\
      CitationItem.match_score
        (CitationItem.set_match "DOI" (inject_Z 100) (cited [] None "" "10.1/XYZ" ""))
      = inject_Z 100) \/
   (exists i, CitationItem.isbn (cited [] None "" "10.1/XYZ" "") = PStr i /\ i <> "" /\
      ZoteroDatabase.items_by_isbn sample_library !! isbn_clean i = Some record_abc1 /\
      CitationItem.match_method
        (CitationItem.set_match "DOI" (inject_Z 100) (cited [] None "" "10.1/XYZ" ""))
      = "ISBN" /\
      CitationItem.match_score
        (CitationItem.set_match "DOI" (inject_Z 100) (cited [] None "" "10.1/XYZ" ""))
      = inject_Z 100) \/
   (exists s score row,
      @CitationItem.search_string sample_repr (cited [] None "" "10.1/XYZ" "") = Ok s /\
      row ∈ ZoteroDatabase.items sample_library /\
      score = @token_set_ratio sample_scorer s (LibraryItem.search_string row) /\
      (inject_Z 80 <= score)%Q /\
      ZoteroDatabase.items_by_key sample_library !! LibraryItem.key row
      = Some record_abc1 /\
      CitationItem.match_method
        (CitationItem.set_match "DOI" (inject_Z 100) (cited [] None "" "10.1/XYZ" ""))
      = "fuzzy" /\
      CitationItem.match_score
        (CitationItem.set_match "DOI" (inject_Z 100) (cited [] None "" "10.1/XYZ" ""))
      = score) \/
   (exists t c score row,
      CitationItem.title (cited [] None "" "10.1/XYZ" "") = PStr t /\
      row ∈ ZoteroDatabase.items sample_library /\
      LibraryItem.title row = Some c /\
      score = @token_set_ratio sample_scorer t c /\
      (inject_Z 90 <= score)%Q /\
      ZoteroDatabase.items_by_key sample_library !! LibraryItem.key row
      = Some record_abc1 /\
      CitationItem.match_method
        (CitationItem.set_match "DOI" (inject_Z 100) (cited [] None "" "10.1/XYZ" ""))
      = "title_only" /\
      CitationItem.match_score
        (CitationItem.set_match "DOI" (inject_Z 100) (cited [] None "" "10.1/XYZ" ""))
      = score)).
Proof.
  apply (@find_match_sound sample_unicode sample_repr sample_scorer sample_library
           (cited [] None "" "10.1/XYZ" "")
           (CitationItem.set_match "DOI" (inject_Z 100) (cited [] None "" "10.1/XYZ" ""))
           80 record_abc1).
  vm_compute. reflexivity.
Defined.

Lemma find_match_attribute_error_witness :
  @ZoteroDatabase.find_match sample_unicode sample_repr sample_scorer sample_library
    cited_numeric_doi 80 = Raise AttributeError.
Proof.
  apply (proj1 (@find_match_attribute_error sample_unicode sample_repr sample_scorer
                  sample_library cited_numeric_doi 80)); reflexivity.
Defined.

(** ** The search string of a cited item *)

Lemma mapR_as_str (ss : list string) : mapR as_str (map PStr ss) = Ok ss.
Proof. induction ss as [| s ss IH]; simpl; [done |]. by rewrite IH. Qed.

Lemma author_part_names (l : list pyval) (ns : list string) :
  author_names l ns -> flat_map CitationItem.author_part l = map PStr ns.
Proof.
  induction 1 as [| d f l ns Hf _ IH | d n l ns Hf Hn _ IH | s l ns _ IH
                  | v l ns Hv _ IH]; simpl.
  - done.
  - by rewrite Hf, IH.
  - by rewrite Hf, Hn, IH.
  - by rewrite IH.
  - rewrite IH. destruct v as [| | | | | | d]; try done.
    destruct Hv as [Hf Hn]. simpl. by rewrite Hf, Hn.
Qed.

(** X12.  [author_string] joins with spaces, in their order, the family
    names of the authors, the literal name of an author without family
    name, and the authors that are a bare text; given names are not used,
    and an entry of any other shape is passed over without failure. *)
Theorem author_string_names (ci : CitationItem.t) (l : list pyval) (ns : list string) :
  CitationItem.authors ci = PList l ->
  author_names l ns ->
  CitationItem.author_string ci = Ok (join " " ns).
Proof.
  intros Hauthors Hnames. unfold CitationItem.author_string.
  rewrite Hauthors. simpl. unfold py_join.
  by rewrite (author_part_names l ns Hnames), mapR_as_str.
Qed.

Lemma author_string_names_witness :
  CitationItem.author_string
    (CitationItem.set_is_orphaned false
       {| CitationItem.uri := PNone; CitationItem.uris := PList [];
          CitationItem.item_key := None; CitationItem.library_id := None;
          CitationItem.title := PStr "";
          CitationItem.authors :=
            PList [PDict [("family", PStr "Smith"); ("given", PStr "Jo")];
                   PDict [("literal", PStr "World Bank")];
                   PInt 7;
                   PStr "Jones"];
          CitationItem.year := PStr ""; CitationItem.doi := PStr "";
          CitationItem.isbn := PStr ""; CitationItem.item_data := PDict [];
          CitationItem.is_orphaned := false;
          CitationItem.matched_library_item := None;
          CitationItem.match_score := inject_Z 0; CitationItem.match_method := "" |})
  = Ok (join " " ["Smith"; "World Bank"; "Jones"]).
Proof.
  apply (author_string_names _
           [PDict [("family", PStr "Smith"); ("given", PStr "Jo")];
            PDict [("literal", PStr "World Bank")];
            PInt 7;
            PStr "Jones"]).
  - reflexivity.
  - apply names_family; [reflexivity |].
    apply names_literal; [reflexivity | reflexivity |].
    apply names_skip; [exact I |].
    apply names_text. apply names_nil.
Defined.

Section SearchString.
Context {Rp : PyRepr}.

Lemma filter_truthy_texts (ss : list string) :
  filter (fun v => truthy v = true) (map PStr ss)
  = map PStr (filter (fun s => s <> "") ss).
Proof.
  induction ss as [| s ss IH]; [done |]. cbn [map].
  rewrite !filter_cons, IH. destruct s; simpl; repeat case_decide; done.
Qed.

Lemma filter_truthy_year (v : pyval) (y : string) :
  year_text v = Some y ->
  filter (fun v => truthy v = true) (if truthy v then [PStr (py_str v)] else [])
  = filter (fun v => truthy v = true) [PStr y].
Proof.
  destruct v as [| | | | y' | |]; simpl; intros Hy; simplify_eq; [done |].
  destruct y; done.
Qed.

Lemma join_nil_iff (ss : list string) :
  Forall (fun s => s <> "") ss -> join " " ss = "" -> ss = [].
Proof.
  destruct ss as [| s [| s' ss]]; simpl; [done | |].
  - intros Hs%Forall_inv ->. done.
  - intros Hs%Forall_inv. by destruct s.
Qed.

(** X13.  The search string of an item whose title is a text and whose
    year is a text or [None] is made of the title, the author string and
    the year, in this order, the empty ones left out and the others joined
    with spaces; it is empty exactly when all three are empty. *)
Theorem search_string_parts (ci : CitationItem.t) (t a y : string) :
  CitationItem.title ci = PStr t ->
  CitationItem.author_string ci = Ok a ->
  year_text (CitationItem.year ci) = Some y ->
  CitationItem.search_string ci
  = Ok (join " " (filter (fun s => s <> "") [t; a; y])) /\
  (join " " (filter (fun s => s <> "") [t; a; y]) = "" <->
   t = "" /\ a = "" /\ y = "").
Proof.
  intros Htitle Hauthors Hyear. split.
  - unfold CitationItem.search_string. rewrite Hauthors, Htitle. simpl.
    unfold py_join.
    change (PStr t :: PStr a :: ?l) with ([PStr t; PStr a] ++ l)%list.
    rewrite filter_app, (filter_truthy_year _ y Hyear), <- filter_app.
    change ([PStr t; PStr a] ++ [PStr y])%list with (map PStr [t; a; y]).
    by rewrite filter_truthy_texts, mapR_as_str.
  - split.
    + intros Hj. apply join_nil_iff in Hj.
      * destruct (decide (t = "")) as [-> | Ht];
          [| by rewrite filter_cons_True in Hj].
        destruct (decide (a = "")) as [-> | Ha];
          [| by rewrite filter_cons_False, filter_cons_True in Hj by auto].
        destruct (decide (y = "")) as [-> | Hy]; [done |].
        by rewrite !filter_cons_False, filter_cons_True in Hj by auto.
      * apply Forall_forall. by intros s [Hs _]%list_elem_of_filter.
    + intros (-> & -> & ->). done.
Qed.

End SearchString.

Lemma search_string_parts_witness :
  @CitationItem.search_string sample_repr sample_item
  = Ok (join " " (filter (fun s => s <> "") ["On Matching"; ""; "2020"])).
Proof.
  apply (@search_string_parts sample_repr sample_item "On Matching" "" "2020");
    reflexivity.
Defined.

(** ** The citation pattern *)

Lemma no_brace (s : string) : up_to_last_brace s = None -> occurs "}" s = false.
Proof.
  induction s as [| c s IH]; [done |]. cbn [up_to_last_brace].
  destruct (up_to_last_brace s); [done |].
  destruct (Ascii.eqb c "}") eqn:Hc; [done |]. intros _.
  change (occurs "}" (String c s))
    with (starts_with "}" (String c s) || occurs "}" s).
  rewrite IH, orb_false_r by done.
  unfold starts_with. cbn [strip_prefix]. by rewrite Ascii.eqb_sym, Hc.
Qed.

(** The greedy span ends with the last closing brace. *)
Lemma up_to_last_brace_Some (body b : string) :
  up_to_last_brace body = Some b ->
  exists inner post,
    b = inner +:+ "}" /\ body = b +:+ post /\ occurs "}" post = false.
Proof.
  revert b. induction body as [| c body IH]; intros b; [done |].
  cbn [up_to_last_brace].
  destruct (up_to_last_brace body) as [t |] eqn:E.
  - intros [= <-]. destruct (IH t eq_refl) as (inner & post & -> & Hbody & Hpost).
    exists (String c inner), post. rewrite !append_cons. by rewrite <- Hbody.
  - destruct (Ascii.eqb_spec c "}") as [-> | Hc]; [| done]. intros [= <-].
    exists "", body. split; [done |]. split; [done |]. by apply no_brace.
Qed.

Lemma csl_citation_at_Some (s g : string) :
  csl_citation_at s = Some g ->
  exists ws inner post,
    s = citation_marker +:+ ws +:+ g +:+ post /\
    Forall (fun ch => is_space_char ch = true) (chars ws) /\
    g = "{" +:+ inner +:+ "}" /\ occurs "}" post = false.
Proof.
  unfold csl_citation_at.
  destruct (strip_prefix citation_marker s) as [r |] eqn:Hr; [| done].
  apply strip_prefix_Some in Hr as ->.
  destruct (lstrip_split r) as (ws & Hr & Hws%lstrip_empty).
  destruct (lstrip r) as [| c body]; [done |].
  destruct (Ascii.eqb_spec c "{") as [-> | Hc]; [| done].
  destruct (up_to_last_brace body) as [b |] eqn:Hb; [| done].
  intros [= <-].
  apply up_to_last_brace_Some in Hb as (inner & post & -> & Hbody & Hpost).
  exists ws, inner, post. split; [| done].
  rewrite Hr at 1. do 2 f_equal. rewrite Hbody at 1. by rewrite !append_cons.
Qed.

Lemma search_csl_citation_cons (c : ascii) (s : string) :
  search_csl_citation (String c s)
  = match csl_citation_at (String c s) with
    | Some g => Some g
    | None => search_csl_citation s
    end.
Proof. reflexivity. Qed.

Lemma search_csl_citation_Some (field_code g : string) :
  search_csl_citation field_code = Some g ->
  exists pre ws inner post,
    field_code = pre +:+ citation_marker +:+ ws +:+ g +:+ post /\
    Forall (fun ch => is_space_char ch = true) (chars ws) /\
    g = "{" +:+ inner +:+ "}" /\ occurs "}" post = false.
Proof.
  induction field_code as [| c s IH].
  - done.
  - rewrite search_csl_citation_cons.
    destruct (csl_citation_at (String c s)) as [g' |] eqn:E.
    + intros [= ->]. apply csl_citation_at_Some in E as (ws & inner & post & ?).
      exists "", ws, inner, post. done.
    + intros (pre & ws & inner & post & -> & ?)%IH.
      exists (String c pre), ws, inner, post. done.
Qed.

Lemma occurs_intro (x pre rest : string) : occurs x (pre +:+ x +:+ rest) = true.
Proof.
  induction pre as [| c pre IH].
  - change ("" +:+ x +:+ rest) with (x +:+ rest).
    destruct (x +:+ rest) eqn:E; simpl; rewrite <- E, starts_with_append; done.
  - rewrite append_cons. simpl. by rewrite IH, orb_true_r.
Qed.

(** X14.  The payload the citation pattern captures: it stands in the
    field text behind the marker and characters that are white space (the
    white space of Unicode, of which the no-break space is one) only, it
    starts with an opening brace and ends with a closing brace, and no
    closing brace follows it, so it runs to the last closing brace of the
    field text.  A field text without the marker has no payload. *)
Theorem search_csl_citation_payload (field_code : string) :
  (forall g, search_csl_citation field_code = Some g ->
     exists pre ws inner post,
       field_code = pre +:+ citation_marker +:+ ws +:+ g +:+ post /\
       Forall (fun ch => is_space_char ch = true) (chars ws) /\
       g = "{" +:+ inner +:+ "}" /\ occurs "}" post = false) /\
  (occurs citation_marker field_code = false -> search_csl_citation field_code = None).
Proof.
  split; [apply search_csl_citation_Some |].
  intros Hmarker. destruct (search_csl_citation field_code) as [g |] eqn:E; [| done].
  apply search_csl_citation_Some in E as (pre & ws & inner & post & -> & _).
  by rewrite occurs_intro in Hmarker.
Qed.

Lemma search_csl_citation_payload_witness :
  exists pre ws inner post,
    field_of payload_plain = pre +:+ citation_marker +:+ ws +:+ payload_plain +:+ post /\
    Forall (fun ch => is_space_char ch = true) (chars ws) /\
    payload_plain = "{" +:+ inner +:+ "}" /\ occurs "}" post = false.
Proof.
  apply (proj1 (search_csl_citation_payload (field_of payload_plain)) payload_plain).
  vm_compute. reflexivity.
Defined.

Section MarkerTest.
Context {Jd : JsonDecoder} {Rp : PyRepr}.

(** X15.  The test for [ADDIN ZOTERO_ITEM] at the end of a field never
    hides a citation: a field text without that marker is one for which
    [from_field_code] returns [None], so the loop emits a citation exactly
    when the parser returns one for the collected text. *)
Theorem marker_test_redundant (st : extractor) :
  (forall field_code field_index,
     occurs "ADDIN ZOTERO_ITEM" field_code = false ->
     Citation.from_field_code field_code field_index = Ok None) /\
  close_field st
  = (citation ← Citation.from_field_code (String.concat "" (current_field st))
                  (field_index st);
     Ok match citation with
        | Some c =>
            {| citations := (citations st ++ [c])%list;
               field_index := field_index st + 1;
               current_field := []; in_field := false |}
        | None =>
            {| citations := citations st; field_index := field_index st;
               current_field := []; in_field := false |}
        end).
Proof.
  assert (Hnone : forall field_code field_index,
            occurs "ADDIN ZOTERO_ITEM" field_code = false ->
            Citation.from_field_code field_code field_index = Ok None).
  { intros field_code field_index Hmarker.
    unfold Citation.from_field_code, Citation.from_field_code_io.
    destruct (search_csl_citation field_code) as [g |] eqn:E; [| done].
    apply search_csl_citation_Some in E as (pre & ws & inner & post & -> & _).
    change citation_marker with ("ADDIN ZOTERO_ITEM" +:+ " CSL_CITATION") in Hmarker.
    by rewrite append_assoc, occurs_intro in Hmarker. }
  split; [exact Hnone |].
  unfold close_field.
  destruct (occurs "ADDIN ZOTERO_ITEM" _) eqn:E.
  - destruct (Citation.from_field_code _ _) as [[c |] |]; done.
  - by rewrite (Hnone _ _ E).
Qed.

End MarkerTest.

Lemma marker_test_redundant_witness :
  @Citation.from_field_code sample_json_loads sample_repr " PAGE \* MERGEFORMAT " 3
  = Ok None.
Proof.
  apply (proj1 (@marker_test_redundant sample_json_loads sample_repr extractor_init)).
  vm_compute. reflexivity.
Defined.

(** ** The fields of a document *)

Section Fields.
Context {Jd : JsonDecoder} {Rp : PyRepr}.

Lemma from_field_code_index (field_code : string) (field_index : nat) (c : Citation.t) :
  Citation.from_field_code field_code field_index = Ok (Some c) ->
  Citation.field_index c = field_index /\ Citation.field_code c = field_code.
Proof.
  intros (json_str & citation_data & _ & _ & Hc)%from_field_code_Some.
  by apply build_Some in Hc as (cis & entries & _ & _ & _ & ? & _ & ?).
Qed.

Lemma extract_step_numbered (st st' : extractor) (elem : element) :
  extract_step st elem = Ok st' -> numbered st -> numbered st'.
Proof.
  unfold extract_step, close_field, numbered. intros Hstep [Hlen Hpos].
  repeat (case_match; simplify_eq/=); try done.
  apply bind_Ok in Hstep as ([c |] & Hc & Hstep); simplify_eq/=; [| done].
  apply from_field_code_index in Hc as [Hc _]. split.
  - rewrite length_app. simpl. lia.
  - intros i c' [Hi | [Hi Hc']]%lookup_app_Some; [by apply Hpos |].
    destruct (i - length (citations st)) as [| n] eqn:En; [| done].
    simpl in Hc'. simplify_eq. lia.
Qed.

(** X16.  The citations of a document are numbered in document order from
    0: the index of each is its position in the list that is returned. *)
Theorem extract_citations_numbered (elems : list element) (cs : list Citation.t) :
  extract_citations elems = Ok cs ->
  forall i c, cs !! i = Some c -> Citation.field_index c = i.
Proof.
  unfold extract_citations. intros (st & Hloop & Hcs)%bind_Ok. simplify_eq.
  assert (Hinv : forall st0, numbered st0 -> extract_loop st0 elems = Ok st ->
                             numbered st).
  { clear Hloop. induction elems as [| elem elems IH]; intros st0 H0 Hloop; simpl in *.
    - by simplify_eq.
    - apply bind_Ok in Hloop as (st1 & Hstep & Hloop).
      apply (IH st1); [| done]. by apply (extract_step_numbered st0 st1 elem). }
  apply (Hinv extractor_init); [| done]. split; [done |]. by intros i c.
Qed.

Lemma extract_step_inside (st : extractor) (elem : element) :
  inside_field elem -> in_field st = true ->
  extract_step st elem
  = Ok {| citations := citations st; field_index := field_index st;
          current_field := (current_field st ++ instr_texts [elem])%list;
          in_field := true |}.
Proof.
  unfold inside_field, is_fld_begin, is_fld_end, extract_step, instr_texts.
  intros [Hbegin Hend] Hin. destruct st as [cs idx buffer inf]. simpl in *. subst inf.
  destruct (String.eqb_spec (tag elem) (w_name "fldChar")) as [Htag | Htag].
  - simpl in *. rewrite Hbegin, Hend. simpl.
    rewrite Htag. simpl. by rewrite app_nil_r.
  - simpl. destruct (String.eqb (tag elem) (w_name "instrText")); simpl.
    + destruct (nonempty (text elem)); simpl; by rewrite ?app_nil_r.
    + by rewrite app_nil_r.
Qed.

Lemma extract_loop_inside (st : extractor) (body : list element) :
  Forall inside_field body -> in_field st = true ->
  extract_loop st body
  = Ok {| citations := citations st; field_index := field_index st;
          current_field := (current_field st ++ instr_texts body)%list;
          in_field := true |}.
Proof.
  intros Hbody. revert st.
  induction Hbody as [| elem body Helem _ IH]; intros st Hin; simpl.
  - unfold instr_texts. simpl. rewrite app_nil_r. destruct st. simpl in *. by subst.
  - rewrite (extract_step_inside st elem Helem Hin). simpl.
    rewrite IH by done. simpl. f_equal. f_equal.
    unfold instr_texts. simpl. by rewrite app_nil_r, app_assoc.
Qed.

(** X17.  A field that is bracketed properly.  From the begin of a field
    to its end, with no other begin or end between, the loop collects the
    texts of the instruction elements, in their order and leaving out the
    empty ones, whatever else stands between them: a separator, a run, the
    result text of the field.  At the end the field is closed with these
    texts as its buffer, and what was in the buffer before is lost. *)
Theorem extract_loop_field (st : extractor) (elem_begin elem_end : element)
    (body : list element) :
  is_fld_begin elem_begin = true ->
  Forall inside_field body ->
  is_fld_end elem_end = true ->
  extract_loop st (elem_begin :: body ++ [elem_end])
  = close_field {| citations := citations st; field_index := field_index st;
                   current_field := instr_texts body; in_field := true |}.
Proof.
  intros Hbegin Hbody Hend.
  change (elem_begin :: body ++ [elem_end])
    with ([elem_begin] ++ body ++ [elem_end])%list.
  rewrite !extract_loop_app. simpl.
  apply andb_true_iff in Hbegin as [Htag Hattr].
  unfold extract_step at 1. rewrite Htag, Hattr. simpl.
  rewrite extract_loop_app.
  rewrite (extract_loop_inside
             {| citations := citations st; field_index := field_index st;
                current_field := []; in_field := true |} body Hbody eq_refl).
  simpl. apply andb_true_iff in Hend as [Htag' Hattr'].
  unfold extract_step. rewrite Htag', Hattr'. simpl.
  apply bool_decide_eq_true in Hattr' as ->. simpl.
  by destruct (close_field _).
Qed.

(** X18.  Outside a field nothing is collected and nothing is emitted:
    over elements none of which begins a field, the loop leaves the state
    it has outside a field as it is. *)
Theorem extract_loop_outside (st : extractor) (elems : list element) :
  in_field st = false ->
  Forall (fun elem => is_fld_begin elem = false) elems ->
  extract_loop st elems = Ok st.
Proof.
  intros Hout Helems.
  induction Helems as [| elem elems Helem _ IH]; simpl; [done |].
  assert (Hstep : extract_step st elem = Ok st).
  { unfold extract_step, is_fld_begin in *. rewrite Hout.
    destruct (String.eqb (tag elem) (w_name "fldChar")); simpl in *; [| done].
    rewrite Helem. by rewrite andb_false_r. }
  rewrite Hstep. simpl. exact IH.
Qed.

End Fields.

Lemma extract_citations_numbered_witness :
  Citation.field_index sample_citation = 0.
Proof.
  apply (@extract_citations_numbered sample_json_loads sample_repr
           [fld_begin; instr_text (field_of payload_plain); fld_end]
           [sample_citation] ltac:(vm_compute; reflexivity) 0 sample_citation).
  reflexivity.
Defined.

Lemma extract_loop_field_witness :
  @extract_loop sample_json_loads sample_repr extractor_init
    (fld_begin
     :: [instr_text " ADDIN ZOTERO_ITEM CSL_CITATION ";
         {| tag := w_name "fldChar"; attrib := [(w_name "fldCharType", "separate")];
            text := None |};
         instr_text "{nonsense}";
         {| tag := w_name "t"; attrib := []; text := Some "(Smith 2020)" |}]
     ++ [fld_end])
  = @close_field sample_json_loads sample_repr
      {| citations := []; field_index := 0;
         current_field := [" ADDIN ZOTERO_ITEM CSL_CITATION "; "{nonsense}"];
         in_field := true |}.
Proof.
  apply (@extract_loop_field sample_json_loads sample_repr extractor_init
           fld_begin fld_end
           [instr_text " ADDIN ZOTERO_ITEM CSL_CITATION ";
            {| tag := w_name "fldChar"; attrib := [(w_name "fldCharType", "separate")];
               text := None |};
            instr_text "{nonsense}";
            {| tag := w_name "t"; attrib := []; text := Some "(Smith 2020)" |}]).
  - reflexivity.
  - repeat constructor.
  - reflexivity.
Defined.

Lemma extract_loop_outside_witness :
  @extract_loop sample_json_loads sample_repr extractor_init
    [instr_text (field_of payload_plain); fld_end]
  = Ok extractor_init.
Proof.
  apply (@extract_loop_outside sample_json_loads sample_repr extractor_init
           [instr_text (field_of payload_plain); fld_end]).
  - reflexivity.
  - repeat constructor.
Defined.

(** ** The matching loop of [main] and the rewriting it prepares *)

Section MainLoop.
Context {Un : Unicode} {Rp : PyRepr} {Sc : Scorer} {Pf : Platform}.

Lemma mapR_id {A} (f : A -> result A) (l : list A) :
  Forall (fun a => f a = Ok a) l -> mapR f l = Ok l.
Proof.
  induction 1 as [| a l Ha _ IH]; simpl; [done |]. by rewrite Ha, IH.
Qed.

Lemma match_item_same (db : ZoteroDatabase.t) (threshold : Z)
    (item item' : CitationItem.t) :
  match_item db threshold item = Ok item' -> same_but_match item item'.
Proof.
  unfold match_item, same_but_match.
  destruct (CitationItem.is_orphaned item) eqn:Ho; [| by intros [= <-]].
  intros ([ci r] & Hf & Hitem)%bind_Ok. simpl in Hitem.
  assert (Hci : exists method score, ci = CitationItem.set_match method score item \/ ci = item).
  { unfold ZoteroDatabase.find_match, ZoteroDatabase.find_fuzzy_match,
      ZoteroDatabase.find_title_match in Hf.
    unfold mbind, result_bind in Hf.
    exists (CitationItem.match_method ci), (CitationItem.match_score ci).
    repeat (case_match; simplify_eq/=); auto. }
  destruct Hci as (method & score & [-> | ->]);
    destruct r as [record |]; simplify_eq/=; by rewrite ?Ho.
Qed.

(** X19.  The matching loop of [main] changes nothing in a citation but
    the match, the method and the score of its orphaned items: citations
    and items stay in their places, with their identifiers, keys, data and
    flags, and an item that is not orphaned is not touched at all. *)
Theorem find_matches_frame (db : ZoteroDatabase.t) (threshold : Z)
    (citations citations' : list Citation.t) :
  find_matches db threshold citations = Ok citations' ->
  Forall2 (fun c c' =>
             Citation.set_items (Citation.items c') c = c' /\
             Forall2 same_but_match (Citation.items c) (Citation.items c'))
          citations citations'.
Proof.
  unfold find_matches. intros Hcs%mapR_Forall2.
  eapply Forall2_impl; [exact Hcs |]. intros c c'. simpl.
  unfold match_citation. intros (items & Hitems & Hc)%bind_Ok. simplify_eq.
  split; [done |]. simpl. apply mapR_Forall2 in Hitems.
  eapply Forall2_impl; [exact Hitems |]. intros item item'. apply match_item_same.
Qed.

Lemma check_item_resolved db item :
  key_in_library db item = true ->
  CitationItem.is_orphaned (check_item db item) = false.
Proof. intros Hkey. unfold check_item. by rewrite Hkey. Qed.

Lemma uri_replacements_resolved db m cs :
  Forall (fun c => Citation.is_orphaned c = false) cs ->
  uri_replacements db m cs = Ok m.
Proof. induction 1 as [| c cs Hc _ IH]; simpl; [done |]. by rewrite Hc. Qed.

(** X20.  A document all of whose cited items have their key in the
    library is left alone: after the classification no item is orphaned,
    the matching loop queries nothing and changes nothing, and the
    rewriting returns without writing a document. *)
Theorem resolved_document (content : string) (citations : list Citation.t)
    (db : ZoteroDatabase.t) (threshold : Z) :
  Forall (fun c => Forall (fun item => key_in_library db item = true)
                          (Citation.items c)) citations ->
  find_matches db threshold (check_orphaned_status citations db)
  = Ok (check_orphaned_status citations db) /\
  update_docx_citations content (check_orphaned_status citations db) db = Ok None.
Proof.
  intros Hkeys. split.
  - unfold find_matches, check_orphaned_status. apply mapR_id.
    apply Forall_fmap. eapply Forall_impl; [exact Hkeys |]. intros c Hc. simpl.
    unfold match_citation. simpl. rewrite mapR_id; [done |].
    apply Forall_fmap. eapply Forall_impl; [exact Hc |]. intros item Hitem. simpl.
    unfold match_item. by rewrite check_item_resolved.
  - unfold update_docx_citations. rewrite uri_replacements_resolved; [done |].
    unfold check_orphaned_status. apply Forall_fmap.
    eapply Forall_impl; [exact Hkeys |]. intros c Hc. simpl.
    apply not_true_iff_false. rewrite existsb_exists.
    intros (item' & Hin & Hflag). apply in_map_iff in Hin as (item & <- & Hin).
    rewrite Forall_forall in Hc. apply list_elem_of_In in Hin.
    by rewrite check_item_resolved in Hflag by auto.
Qed.

End MainLoop.

Lemma find_matches_frame_witness :
  Forall2 (fun c c' =>
             Citation.set_items (Citation.items c') c = c' /\
             Forall2 same_but_match (Citation.items c) (Citation.items c'))
    (check_orphaned_status [sample_citation] sample_library)
    [Citation.set_items
       [CitationItem.set_matched_library_item (Some record_abc1)
          (CitationItem.set_match "DOI" (inject_Z 100)
             (CitationItem.set_is_orphaned true sample_item))]
       (Citation.set_is_orphaned true sample_citation)].
Proof.
  apply (@find_matches_frame sample_unicode sample_repr sample_scorer sample_library 80).
  vm_compute. reflexivity.
Defined.

Lemma resolved_document_witness :
  @find_matches sample_unicode sample_repr sample_scorer sample_library 80
    (check_orphaned_status
       [Citation.set_items
          [cited ["http://zotero.org/users/1/items/ABC1"] (Some "ABC1") "On Matching" "" ""]
          sample_citation] sample_library)
  = Ok (check_orphaned_status
          [Citation.set_items
             [cited ["http://zotero.org/users/1/items/ABC1"] (Some "ABC1")
                "On Matching" "" ""]
             sample_citation] sample_library) /\
  @update_docx_citations sample_repr sample_platform markup_before
    (check_orphaned_status
       [Citation.set_items
          [cited ["http://zotero.org/users/1/items/ABC1"] (Some "ABC1") "On Matching" "" ""]
          sample_citation] sample_library) sample_library
  = Ok None.
Proof.
  apply (@resolved_document sample_unicode sample_repr sample_scorer sample_platform
           markup_before _ sample_library 80).
  repeat constructor.
Defined.

(** ** The mapping of old to new identifiers *)

Lemma dict_set_keys (k v : string) (d : list (string * string)) :
  forall k', k' ∈ map fst (dict_set k v d) <-> k' = k \/ k' ∈ map fst d.
Proof.
  induction d as [| [k0 v0] d IH]; intros k'; simpl.
  - rewrite list_elem_of_singleton. split; [auto |]. intros [? | ?%elem_of_nil]; done.
  - destruct (String.eqb_spec k k0) as [<- | Hne]; simpl.
    + rewrite !elem_of_cons. tauto.
    + rewrite !elem_of_cons, IH. tauto.
Qed.

Lemma dict_set_NoDup (k v : string) (d : list (string * string)) :
  NoDup (map fst d) -> NoDup (map fst (dict_set k v d)).
Proof.
  induction d as [| [k0 v0] d IH]; simpl; intros Hd.
  - repeat constructor. by intros ?%elem_of_nil.
  - apply NoDup_cons in Hd as [Hk0 Hd].
    destruct (String.eqb_spec k k0) as [<- | Hne]; simpl.
    + by apply NoDup_cons.
    + apply NoDup_cons. split; [| by apply IH].
      rewrite dict_set_keys. intros [? | ?]; done.
Qed.

Lemma dict_set_entries (k v : string) (d : list (string * string)) :
  forall e, e ∈ dict_set k v d -> e = (k, v) \/ e ∈ d.
Proof.
  induction d as [| [k0 v0] d IH]; intros e; simpl.
  - intros ->%list_elem_of_singleton. by left.
  - destruct (String.eqb_spec k k0) as [<- | Hne].
    + rewrite !elem_of_cons. tauto.
    + rewrite !elem_of_cons. intros [-> | He]; [auto |].
      destruct (IH e He); auto.
Qed.

Section Mapping.
Context {Rp : PyRepr}.

(** What holds of a mapping while it is built for [citations]. *)
Definition mapping_ok (db : ZoteroDatabase.t) (citations : list Citation.t)
    (m : list (string * string)) : Prop :=
  NoDup (map fst m) /\
  forall old new, (old, new) ∈ m -> replaced_by db citations old new.

Lemma foldl_dict_set_ok db citations new olds m :
  (forall old, old ∈ olds -> replaced_by db citations old new) ->
  mapping_ok db citations m ->
  mapping_ok db citations (foldl (fun m old => dict_set old new m) m olds).
Proof.
  revert m. induction olds as [| old olds IH]; intros m Holds [Hnd Hm]; simpl; [done |].
  apply IH.
  - intros old' Hin. apply Holds. by right.
  - split; [by apply dict_set_NoDup |].
    intros old' new' [[= -> ->] | He]%dict_set_entries; [| by apply Hm].
    apply Holds. by left.
Qed.

Lemma foldl_dict_set_keys new olds m :
  forall k, k ∈ map fst (foldl (fun m old => dict_set old new m) m olds) <->
            k ∈ olds \/ k ∈ map fst m.
Proof.
  revert m. induction olds as [| old olds IH]; intros m k; simpl.
  - split; [auto |]. intros [?%elem_of_nil | ?]; done.
  - rewrite IH, dict_set_keys, elem_of_cons. tauto.
Qed.

Lemma mapR_as_str_Ok (l : list pyval) (ss : list string) :
  mapR as_str l = Ok ss -> l = map PStr ss.
Proof.
  revert ss. induction l as [| v l IH]; simpl; intros ss Hl; [by simplify_eq |].
  apply bind_Ok in Hl as (s & Hs & Hl). apply bind_Ok in Hl as (ss' & Hss & Hl).
  simplify_eq. destruct v; simplify_eq/=. f_equal. by apply IH.
Qed.

Lemma item_replacements_ok db citations c item m m' :
  c ∈ citations -> Citation.is_orphaned c = true -> item ∈ Citation.items c ->
  item_replacements db m item = Ok m' ->
  mapping_ok db citations m -> mapping_ok db citations m'.
Proof.
  intros Hc Hco Hitem. unfold item_replacements.
  destruct (CitationItem.matched_library_item item) as [record |] eqn:Hrec;
    [| by intros [= <-]].
  destruct (CitationItem.is_orphaned item) eqn:Hio; [| by intros [= <-]].
  intros (us & Hus & Hm)%bind_Ok. apply bind_Ok in Hm as (olds & Holds & Hm).
  simplify_eq. apply foldl_dict_set_ok.
  intros old Hold. exists c, item, record, us. repeat (split; [done |]).
  split; [| done]. apply mapR_as_str_Ok in Holds as ->.
  apply list_elem_of_fmap. eauto.
Qed.

Lemma items_replacements_ok db citations c items m m' :
  c ∈ citations -> Citation.is_orphaned c = true ->
  (forall item, item ∈ items -> item ∈ Citation.items c) ->
  items_replacements db m items = Ok m' ->
  mapping_ok db citations m -> mapping_ok db citations m'.
Proof.
  intros Hc Hco. revert m. induction items as [| item items IH]; intros m Hitems; simpl.
  - by intros [= <-].
  - intros (m1 & Hm1 & Hm')%bind_Ok Hm. apply (IH m1); [| done |].
    + intros item' Hin. apply Hitems. by right.
    + eapply item_replacements_ok; [exact Hc | exact Hco | | exact Hm1 | exact Hm].
      apply Hitems. by left.
Qed.

Lemma uri_replacements_ok db citations cs m m' :
  (forall c, c ∈ cs -> c ∈ citations) ->
  uri_replacements db m cs = Ok m' ->
  mapping_ok db citations m -> mapping_ok db citations m'.
Proof.
  revert m. induction cs as [| c cs IH]; intros m Hcs; simpl.
  - by intros [= <-].
  - destruct (Citation.is_orphaned c) eqn:Hco.
    + intros (m1 & Hm1 & Hm')%bind_Ok Hm. apply (IH m1); [| done |].
      * intros c' Hin. apply Hcs. by right.
      * eapply (items_replacements_ok db citations c); [| exact Hco | | exact Hm1 | exact Hm].
        -- apply Hcs. by left.
        -- done.
    + intros Hm' Hm. apply (IH m); [| done | done].
      intros c' Hin. apply Hcs. by right.
Qed.

(** X21.  The mapping that [update_docx_citations] builds has each old
    identifier once, and each of its entries leads from an identifier of an
    orphaned item with a match, in an orphaned citation, to the identifier
    made from the key of that match: an item that is not orphaned, an item
    without match and a citation that is not orphaned add nothing. *)
Theorem uri_replacements_entries (db : ZoteroDatabase.t) (citations : list Citation.t)
    (m : list (string * string)) :
  uri_replacements db [] citations = Ok m ->
  NoDup (map fst m) /\
  forall old new, (old, new) ∈ m -> replaced_by db citations old new.
Proof.
  intros Hm. apply (uri_replacements_ok db citations citations [] m); [done | done |].
  split; [constructor |]. by intros old new ?%elem_of_nil.
Qed.

(** X22.  The identifier made for a match ends with [/items/] and the key
    of the match: whichever of the three forms it takes, the key pattern of
    the parser reads that key back from it, for every key made of letters
    and digits. *)
Theorem new_uri_key (db : ZoteroDatabase.t) (new_key : string) :
  new_key <> "" ->
  all_string is_alnum new_key = true ->
  search_item_key (new_uri db new_key) = Some new_key.
Proof.
  intros Hne Halnum. apply search_item_key_Some.
  split; [done |]. split; [done |]. unfold new_uri.
  destruct (truthy (ZoteroDatabase.user_id db));
    [| destruct (truthy (ZoteroDatabase.local_user_key db))].
  - exists ("http://zotero.org/users/" +:+ py_str (ZoteroDatabase.user_id db)).
    left. by rewrite !append_assoc.
  - exists ("http://zotero.org/users/local/"
            +:+ py_str (ZoteroDatabase.local_user_key db)).
    left. by rewrite !append_assoc.
  - exists "http://zotero.org/users/local". by left.
Qed.

End Mapping.

Lemma uri_replacements_entries_witness :
  NoDup (map fst [("zotero://old/1", "http://zotero.org/users/local/items/ABC1");
                  (">http", "http://zotero.org/users/local/items/REP2")]) /\
  forall old new,
    (old, new) ∈ [("zotero://old/1", "http://zotero.org/users/local/items/ABC1");
                  (">http", "http://zotero.org/users/local/items/REP2")] ->
    @replaced_by sample_repr sample_library [rewritten_citation] old new.
Proof.
  apply (@uri_replacements_entries sample_repr sample_library [rewritten_citation]).
  vm_compute. reflexivity.
Defined.

Lemma new_uri_key_witness :
  search_item_key (@new_uri sample_repr sample_library "ABC1") = Some "ABC1".
Proof.
  apply (@new_uri_key sample_repr sample_library "ABC1"); [discriminate | reflexivity].
Defined.

(** ** [str.replace] and the test in front of it *)

Lemma occurs_cons (x : string) (c : ascii) (s : string) :
  occurs x (String c s) = starts_with x (String c s) || occurs x s.
Proof. reflexivity. Qed.

Lemma occurs_Some (x s : string) :
  occurs x s = true -> exists pre post, s = pre +:+ x +:+ post.
Proof.
  induction s as [| c s IH].
  - simpl. rewrite orb_false_r. intros [r Hr]%starts_with_Some. by exists "", r.
  - rewrite occurs_cons. intros [Hs | Hs]%orb_true_iff.
    + apply starts_with_Some in Hs as [r Hr]. by exists "", r.
    + destruct (IH Hs) as (pre & post & ->). by exists (String c pre), post.
Qed.

Lemma replace_from_absent (old new s : string) :
  occurs old s = false -> replace_from old new 0 s = s.
Proof.
  induction s as [| c s IH]; [done |].
  rewrite occurs_cons. intros [Hs Hrest]%orb_false_iff.
  cbn [replace_from]. by rewrite Hs, IH.
Qed.

(** X23.  The test [old_uri in content] is true exactly when the old
    identifier stands somewhere in the text, and it does not change what
    is written: [replace] gives back a text in which the old identifier
    does not stand, so each round is the replacement itself. *)
Theorem replace_uri_test (content old new : string) :
  (occurs old content = true <-> exists pre post, content = pre +:+ old +:+ post) /\
  (occurs old content = false -> replace old new content = content) /\
  replace_uri content (old, new) = replace old new content.
Proof.
  assert (Habsent : occurs old content = false -> replace old new content = content).
  { intros Ho. unfold replace. destruct old as [| a old].
    - by destruct content.
    - by apply replace_from_absent. }
  split; [| split; [exact Habsent |]].
  - split; [apply occurs_Some |]. intros (pre & post & ->). apply occurs_intro.
  - unfold replace_uri. simpl. destruct (occurs old content) eqn:Ho; [done |].
    by rewrite Habsent.
Qed.

Lemma replace_uri_test_witness :
  replace "zotero://old/9" "http://zotero.org/users/7/items/ABC1" markup_before
  = markup_before.
Proof.
  apply (proj1 (proj2 (replace_uri_test markup_before "zotero://old/9"
                         "http://zotero.org/users/7/items/ABC1"))).
  vm_compute. reflexivity.
Defined.

(** ** The counters of the report *)

Lemma report_item_sum (items : list CitationItem.t) (n : counters) :
  matched_count (foldl report_item n items)
  + unmatched_count (foldl report_item n items)
  = matched_count n + unmatched_count n
    + length (List.filter CitationItem.is_orphaned items).
Proof.
  revert n. induction items as [| item items IH]; intros n; simpl; [lia |].
  rewrite IH. unfold report_item.
  destruct (CitationItem.is_orphaned item); simpl; [| lia].
  destruct (CitationItem.matched_library_item item); simpl; lia.
Qed.

Lemma report_citations_sum (cs : list Citation.t) (n : counters) :
  matched_count (foldl (fun n c => foldl report_item n (Citation.items c)) n cs)
  + unmatched_count (foldl (fun n c => foldl report_item n (Citation.items c)) n cs)
  = matched_count n + unmatched_count n
    + sum_list (map (fun c => length (List.filter CitationItem.is_orphaned
                                                  (Citation.items c))) cs).
Proof.
  revert n. induction cs as [| c cs IH]; intros n; simpl; [lia |].
  rewrite IH, report_item_sum. lia.
Qed.

Lemma filter_length_le {A} (f : A -> bool) (l : list A) :
  length (List.filter f l) <= length l.
Proof. induction l as [| a l IH]; simpl; [lia |]. destruct (f a); simpl; lia. Qed.

(** X24.  The counts of the report are consistent: the matches and the
    items without match of its summary add up to the orphaned items of its
    head, which are at most the cited items, as the orphaned citations are
    at most the citations. *)
Theorem report_counts_add_up (citations : list Citation.t) :
  matched_count (report_counts citations) + unmatched_count (report_counts citations)
  = orphaned_items citations /\
  orphaned_items citations <= total_items citations /\
  length (orphaned_citations citations) <= length citations.
Proof.
  split; [| split].
  - unfold report_counts, orphaned_items. rewrite report_citations_sum. simpl. lia.
  - unfold orphaned_items, total_items, orphaned_citations.
    induction citations as [| c cs IH]; simpl; [lia |].
    pose proof (filter_length_le CitationItem.is_orphaned (Citation.items c)).
    destruct (Citation.is_orphaned c); simpl; lia.
  - apply filter_length_le.
Qed.

Lemma report_item_matched (items : list CitationItem.t) (n : counters) :
  matched_count (foldl report_item n items) = 0 ->
  matched_count n = 0 /\
  Forall (fun item => CitationItem.is_orphaned item = true ->
                      CitationItem.matched_library_item item = None) items.
Proof.
  revert n. induction items as [| item items IH]; intros n; simpl; [by split |].
  intros [Hn Hitems]%IH. unfold report_item in Hn.
  destruct (CitationItem.is_orphaned item) eqn:Ho; simpl in Hn.
  - destruct (CitationItem.matched_library_item item) eqn:Hm; simpl in Hn; [lia |].
    split; [done |]. constructor; [intros _; exact Hm | done].
  - split; [done |]. constructor; [| done]. simpl. rewrite Ho. discriminate.
Qed.

Lemma report_citations_matched (cs : list Citation.t) (n : counters) :
  matched_count (foldl (fun n c => foldl report_item n (Citation.items c)) n cs) = 0 ->
  matched_count n = 0 /\
  Forall (fun c => Forall (fun item => CitationItem.is_orphaned item = true ->
                                       CitationItem.matched_library_item item = None)
                          (Citation.items c)) cs.
Proof.
  revert n. induction cs as [| c cs IH]; intros n; simpl; [by split |].
  intros [Hn Hcs]%IH. apply report_item_matched in Hn as [Hn Hc].
  split; [done |]. by constructor.
Qed.

Section Report.
Context {Un : Unicode} {Rp : PyRepr} {Sc : Scorer} {Pf : Platform}.

Lemma items_replacements_unmatched db m items :
  Forall (fun item => CitationItem.is_orphaned item = true ->
                      CitationItem.matched_library_item item = None) items ->
  items_replacements db m items = Ok m.
Proof.
  induction 1 as [| item items Hitem _ IH]; simpl; [done |].
  unfold item_replacements.
  destruct (CitationItem.matched_library_item item) eqn:Hm; [| exact IH].
  destruct (CitationItem.is_orphaned item); [| exact IH].
  by specialize (Hitem eq_refl).
Qed.

(** X25.  The report and the rewriting agree on a document without
    matches: when the summary of the report counts no match, the rewriting
    has nothing to replace and returns without writing a document, whatever
    the identifiers of the items are. *)
Theorem report_no_match_no_update (content : string) (citations : list Citation.t)
    (db : ZoteroDatabase.t) :
  matched_count (report_counts citations) = 0 ->
  update_docx_citations content citations db = Ok None.
Proof.
  unfold report_counts. intros [_ Hn]%report_citations_matched.
  unfold update_docx_citations.
  assert (Hm : forall m, uri_replacements db m citations = Ok m).
  { unfold orphaned_citations in Hn.
    induction citations as [| c cs IH]; intros m; simpl; [done |].
    simpl in Hn. destruct (Citation.is_orphaned c).
    - apply Forall_cons in Hn as [Hc Hcs].
      rewrite items_replacements_unmatched by done. simpl. by apply IH.
    - by apply IH. }
  by rewrite Hm.
Qed.

Lemma find_matches_flags db threshold citations citations' :
  find_matches db threshold citations = Ok citations' ->
  Forall2 (fun c c' =>
             Citation.is_orphaned c' = Citation.is_orphaned c /\
             Forall2 (fun item item' =>
                        CitationItem.is_orphaned item' = CitationItem.is_orphaned item)
                     (Citation.items c) (Citation.items c'))
          citations citations'.
Proof.
  unfold find_matches. intros Hcs%mapR_Forall2.
  eapply Forall2_impl; [exact Hcs |]. intros c c'. simpl.
  unfold match_citation. intros (items & Hitems & Hc)%bind_Ok. simplify_eq.
  split; [done |]. simpl. apply mapR_Forall2 in Hitems.
  eapply Forall2_impl; [exact Hitems |]. intros item item' Hitem.
  apply match_item_same in Hitem. unfold same_but_match in Hitem. tauto.
Qed.

Lemma filter_flags_length (items items' : list CitationItem.t) :
  Forall2 (fun item item' =>
             CitationItem.is_orphaned item' = CitationItem.is_orphaned item)
          items items' ->
  length (List.filter CitationItem.is_orphaned items')
  = length (List.filter CitationItem.is_orphaned items).
Proof.
  induction 1 as [| item item' items items' Hitem _ IH]; simpl; [done |].
  rewrite Hitem. destruct (CitationItem.is_orphaned item); simpl; lia.
Qed.

Lemma check_items_orphaned db (items : list CitationItem.t) :
  length (List.filter CitationItem.is_orphaned (map (check_item db) items))
  = length (List.filter (fun item => negb (key_in_library db item)) items) /\
  existsb CitationItem.is_orphaned (map (check_item db) items)
  = existsb (fun item => negb (key_in_library db item)) items.
Proof.
  induction items as [| item items [IHl IHe]]; simpl; [done |].
  rewrite check_item_flag, IHe. simpl. split; [| done].
  destruct (key_in_library db item); simpl; lia.
Qed.

Lemma filter_existsb_length {A} (f : A -> bool) (l : list A) :
  existsb f l = false -> length (List.filter f l) = 0.
Proof.
  induction l as [| a l IH]; simpl; [done |].
  intros [-> Hl]%orb_false_iff. by apply IH.
Qed.

Lemma orphaned_flags (cs cs' : list Citation.t) :
  Forall2 (fun c c' =>
             Citation.is_orphaned c' = Citation.is_orphaned c /\
             Forall2 (fun item item' =>
                        CitationItem.is_orphaned item' = CitationItem.is_orphaned item)
                     (Citation.items c) (Citation.items c'))
          cs cs' ->
  orphaned_items cs' = orphaned_items cs /\
  length (orphaned_citations cs') = length (orphaned_citations cs).
Proof.
  unfold orphaned_items, orphaned_citations.
  induction 1 as [| c c' cs cs' [Hc Hitems] _ [IHi IHc]]; simpl; [done |].
  rewrite Hc. destruct (Citation.is_orphaned c); simpl; [| done].
  rewrite IHi, IHc, (filter_flags_length _ _ Hitems). done.
Qed.

Lemma orphaned_checked db (cs : list Citation.t) :
  orphaned_items (check_orphaned_status cs db)
  = sum_list (map (fun c => length (missing_items db c)) cs) /\
  length (orphaned_citations (check_orphaned_status cs db))
  = length (List.filter (fun c => existsb (fun item => negb (key_in_library db item))
                                          (Citation.items c)) cs).
Proof.
  unfold orphaned_items, orphaned_citations, check_orphaned_status, missing_items.
  induction cs as [| c cs [IHi IHc]]; simpl; [done |].
  destruct (check_items_orphaned db (Citation.items c)) as [Hl He].
  rewrite He.
  destruct (existsb (fun item => negb (key_in_library db item)) (Citation.items c)) eqn:Hex;
    simpl.
  - by rewrite IHi, IHc, Hl.
  - rewrite IHi, IHc. split; [| done].
    by rewrite (filter_existsb_length _ _ Hex).
Qed.

(** X26.  After the classification and the matching loop the report
    misses no item: although it counts inside the orphaned citations only,
    its count of orphaned items is the number of cited items, of all
    citations, whose key is not a key of the library; its orphaned
    citations are as many as the citations with such an item; and it
    announces that all citations are linked exactly when every cited item
    has its key in the library. *)
Theorem report_after_matching (db : ZoteroDatabase.t) (threshold : Z)
    (citations citations' : list Citation.t) :
  find_matches db threshold (check_orphaned_status citations db) = Ok citations' ->
  orphaned_items citations'
  = sum_list (map (fun c => length (missing_items db c)) citations) /\
  length (orphaned_citations citations')
  = length (List.filter (fun c => existsb (fun item => negb (key_in_library db item))
                                          (Citation.items c)) citations) /\
  (orphaned_citations citations' = [] <->
   Forall (fun c => Forall (fun item => key_in_library db item = true)
                           (Citation.items c)) citations).
Proof.
  intros [Hi Hc]%find_matches_flags%orphaned_flags.
  destruct (orphaned_checked db citations) as [Hi' Hc'].
  rewrite Hi' in Hi. rewrite Hc' in Hc. split; [done |]. split; [done |].
  rewrite <- length_zero_iff_nil, Hc. clear.
  induction citations as [| c cs IH]; simpl.
  - split; [constructor | done].
  - rewrite Forall_cons.
    destruct (existsb (fun item => negb (key_in_library db item)) (Citation.items c))
      eqn:Hex; simpl.
    + split; [lia |]. intros [Hall _]. exfalso.
      apply existsb_exists in Hex as (item & Hin & Hitem).
      rewrite Forall_forall in Hall. apply list_elem_of_In in Hin.
      rewrite (Hall item Hin) in Hitem. discriminate.
    + rewrite IH. split; [| tauto]. intros Hcs. split; [| done].
      apply Forall_forall. intros item Hin%list_elem_of_In.
      destruct (key_in_library db item) eqn:Hkey; [done |].
      assert (existsb (fun item => negb (key_in_library db item)) (Citation.items c) = true);
        [| congruence].
      apply existsb_exists. exists item. by rewrite Hkey.
Qed.

End Report.

Lemma report_no_match_no_update_witness :
  @update_docx_citations sample_repr sample_platform markup_before
    (check_orphaned_status [sample_citation] sample_library) sample_library = Ok None.
Proof.
  apply (@report_no_match_no_update sample_repr sample_platform). vm_compute. reflexivity.
Defined.

Lemma report_after_matching_witness :
  orphaned_items
    [Citation.set_items
       [CitationItem.set_matched_library_item (Some record_abc1)
          (CitationItem.set_match "DOI" (inject_Z 100)
             (CitationItem.set_is_orphaned true sample_item))]
       (Citation.set_is_orphaned true sample_citation)]
  = sum_list (map (fun c => length (missing_items sample_library c)) [sample_citation]).
Proof.
  apply (@report_after_matching sample_unicode sample_repr sample_scorer sample_library 80
           [sample_citation]).
  vm_compute. reflexivity.
Defined.
